(** * Candlestick patterns near extremum levels: the optimizing pipeline

    A shallow embedding of
    [Candlestick-patterns-with-extr-levels-optimizing.py]:
    level detection, pattern classification, forward outcome simulation,
    accuracy aggregation and the parameter grid search.

    Conventions of the embedding.
    - A pandas DataFrame with its default RangeIndex is a [list] of rows;
      the index label of a row is its position.
    - Python floats are idealised as exact rationals ([Q]); every
      comparison of the source is the corresponding decidable comparison
      on [Q].  Integer counters are [nat].
    - pandas Timestamps are integers ([Z]), ordered as time is.
    - A Python exception is the [Error] constructor of [result]. *)

From Stdlib Require Import String Ascii List Bool Arith ZArith QArith Qabs Lia.
From Stdlib Require Import Sorted Permutation.
Import ListNotations.

Local Open Scope nat_scope.

(** ** Numbers *)

Definition Qlt_bool (x y : Q) : bool := negb (Qle_bool y x).

Definition Qge_bool (x y : Q) : bool := Qle_bool y x.

Definition Qgt_bool (x y : Q) : bool := Qlt_bool y x.

Definition Qnat (n : nat) : Q := inject_Z (Z.of_nat n).

(** ** Results of fallible code *)

Inductive exn : Type :=
| ValueError
| KeyError
| ZeroDivisionError
| OSError
| RenderError.

Inductive result (A : Type) : Type :=
| Ok (a : A)
| Error (e : exn).

Arguments Ok {A} a.
Arguments Error {A} e.

Definition bind {A B : Type} (m : result A) (k : A -> result B) : result B :=
  match m with
  | Ok a => k a
  | Error e => Error e
  end.

Notation "x <- m ;; k" := (bind m (fun x => k))
  (at level 61, m at next level, right associativity).

(** ** Bars *)

Record Bar : Type := mkBar {
  time : Z;
  open : Q;
  high : Q;
  low : Q;
  close : Q;
  volume : Q;
  candlestick_pattern : string
}.

Definition default_bar : Bar := mkBar 0%Z 0%Q 0%Q 0%Q 0%Q 0%Q EmptyString.

(** [data.iloc[i]] for an index that is known to be in range. *)
Definition iloc (data : list Bar) (i : nat) : Bar := nth i data default_bar.

(** ** scipy.signal.argrelextrema, with numpy's [take] in 'clip' mode *)

(** [a.take(i, mode='clip')]: an index below zero is replaced by the first
    position, an index past the end by the last one. *)
Definition take_clip (a : list Q) (i : Z) : Q :=
  nth (Z.to_nat (Z.max 0 (Z.min i (Z.of_nat (length a) - 1)))) a 0%Q.

(** One round of [_boolrelextrema]: [results &= comparator(main, plus)]
    then [results &= comparator(main, minus)], at every location. *)
Fixpoint relextrema_round (a : list Q) (comparator : Q -> Q -> bool)
    (shift : nat) (loc : nat) (main : list Q) (results : list bool)
    : list bool :=
  match main, results with
  | x :: main', r :: results' =>
      (r && comparator x (take_clip a (Z.of_nat loc + Z.of_nat shift))
         && comparator x (take_clip a (Z.of_nat loc - Z.of_nat shift)))
      :: relextrema_round a comparator shift (S loc) main' results'
  | _, _ => []
  end.

(** The loop [for shift in range(1, order + 1)], which returns early once
    no location is left. *)
Fixpoint relextrema_loop (a : list Q) (comparator : Q -> Q -> bool)
    (shifts : list nat) (results : list bool) : list bool :=
  match shifts with
  | [] => results
  | shift :: rest =>
      let results' := relextrema_round a comparator shift 0 a results in
      if negb (existsb (fun b => b) results') then results'
      else relextrema_loop a comparator rest results'
  end.

Definition boolrelextrema (a : list Q) (comparator : Q -> Q -> bool)
    (order : nat) : result (list bool) :=
  if order <? 1 then Error ValueError
  else Ok (relextrema_loop a comparator (seq 1 order)
             (repeat true (length a))).

(** [np.nonzero(results)[0]]: the positions that hold [True], ascending. *)
Fixpoint nonzero_from (loc : nat) (results : list bool) : list nat :=
  match results with
  | [] => []
  | r :: results' =>
      if r then loc :: nonzero_from (S loc) results'
      else nonzero_from (S loc) results'
  end.

Definition argrelextrema (a : list Q) (comparator : Q -> Q -> bool)
    (order : nat) : result (list nat) :=
  results <- boolrelextrema a comparator order ;;
  Ok (nonzero_from 0 results).

(** ** find_extreme_levels *)

Definition Level : Type := (Q * Z)%type.

(** [(data['close'] - level).abs().lt(level * touch_threshold / 100).sum()] *)
Definition touch_count (data : list Bar) (level touch_threshold : Q) : nat :=
  length (filter
            (fun b => Qlt_bool (Qabs (close b - level))
                               (level * touch_threshold / 100))%Q
            data).

Definition level_of (data : list Bar) (i : nat) : Level :=
  (close (iloc data i), time (iloc data i)).

Definition enough_touches (data : list Bar) (min_touches : nat)
    (touch_threshold : Q) (lv : Level) : bool :=
  min_touches <=? touch_count data (fst lv) touch_threshold.

Definition find_extreme_levels (data : list Bar) (order min_touches : nat)
    (touch_threshold : Q) : result (list Level * list Level) :=
  let prices := map close data in
  max_idx <- argrelextrema prices Qgt_bool order ;;
  min_idx <- argrelextrema prices Qlt_bool order ;;
  let resistance_levels := map (level_of data) max_idx in
  let support_levels := map (level_of data) min_idx in
  let support_levels :=
    filter (enough_touches data min_touches touch_threshold) support_levels in
  let resistance_levels :=
    filter (enough_touches data min_touches touch_threshold)
           resistance_levels in
  Ok (support_levels, resistance_levels).

(** ** Strings and dicts *)

(** Python's [needle in haystack] on strings. *)
Fixpoint contains (needle haystack : string) : bool :=
  prefix needle haystack
  || match haystack with
     | EmptyString => false
     | String _ rest => contains needle rest
     end.

(** A string used as a condition is true when it is not empty. *)
Definition truthy (s : string) : bool :=
  match s with
  | EmptyString => false
  | String _ _ => true
  end.

(** A dict with string keys, in insertion order. *)
Definition dict (V : Type) : Type := list (string * V).

Fixpoint dict_get {V : Type} (k : string) (d : dict V) : result V :=
  match d with
  | [] => Error KeyError
  | (k', v) :: rest => if String.eqb k' k then Ok v else dict_get k rest
  end.

(** [d[k] = v]: an existing key keeps its place, a new key goes last. *)
Fixpoint dict_set {V : Type} (k : string) (v : V) (d : dict V) : dict V :=
  match d with
  | [] => [(k, v)]
  | (k', v') :: rest =>
      if String.eqb k' k then (k', v) :: rest
      else (k', v') :: dict_set k v rest
  end.

(** Division of two Python numbers: a zero divisor raises. *)
Definition py_div (x y : Q) : result Q :=
  if Qeq_bool y 0 then Error ZeroDivisionError else Ok (x / y)%Q.

(** A [for] loop whose body may raise. *)
Fixpoint for_each {A S : Type} (items : list A) (body : A -> S -> result S)
    (s : S) : result S :=
  match items with
  | [] => Ok s
  | x :: rest => s' <- body x s ;; for_each rest body s'
  end.

(** ** Fixed parameters *)

Definition MIN_ACCURACY_THRESHOLD : Q := 60%Q.
Definition MIN_PREDICTIONS_COUNT : nat := 3.

Definition EXTREMA_ORDER_VALUES : list nat := [50; 100; 150].
Definition MIN_LEVEL_TOUCHES_VALUES : list nat := [3; 5; 7].
Definition LEVEL_TOUCH_THRESHOLD_VALUES : list Q := [1 # 2; 1; 3 # 2]%Q.
Definition LEVEL_PROXIMITY_THRESHOLD_VALUES : list Q := [2; 3]%Q.
Definition TARGET_PERCENT_VALUES : list Q := [3; 4]%Q.
Definition STOP_PERCENT_VALUES : list Q := [1; 3 # 2]%Q.

(** ** check_pattern_levels *)

Record CheckResults : Type := mkCheck {
  standard_bull : bool;
  standard_bear : bool;
  logical_bull : bool;
  logical_bear : bool
}.

Definition near_support (r : CheckResults) : CheckResults :=
  mkCheck true (standard_bear r) (logical_bull r) true.

Definition near_resistance (r : CheckResults) : CheckResults :=
  mkCheck (standard_bull r) true true (logical_bear r).

(** [abs(price - level) / price < bound].  The level is a numpy.float64
    (it comes from [data.iloc[i]['close']]), so the difference and the
    quotient are numpy scalars: a zero [price] does not raise, it gives
    inf, or nan when the level is zero too, and neither is below a
    bound. *)
Definition relative_distance_below (price level bound : Q) : bool :=
  if Qeq_bool price 0 then false
  else Qlt_bool (Qabs (price - level) / price)%Q bound.

(** The condition of both loops:
    [abs(price - level) / price < level_proximity_threshold / 100
     and time > level_time]; no part of it raises. *)
Definition level_qualifies (price : Q) (time : Z)
    (level_proximity_threshold : Q) (lv : Level) : result bool :=
  let '(level, level_time) := lv in
  Ok (relative_distance_below price level (level_proximity_threshold / 100)%Q
      && (level_time <? time)%Z).

(** [for level, level_time in levels: if ...: results[...] = True; break] *)
Fixpoint levels_loop (price : Q) (time : Z) (level_proximity_threshold : Q)
    (hit : CheckResults -> CheckResults) (levels : list Level)
    (results : CheckResults) : result CheckResults :=
  match levels with
  | [] => Ok results
  | lv :: rest =>
      q <- level_qualifies price time level_proximity_threshold lv ;;
      if q then Ok (hit results)
      else levels_loop price time level_proximity_threshold hit rest results
  end.

Definition check_pattern_levels (price : Q) (time : Z)
    (support_levels resistance_levels : list Level)
    (level_proximity_threshold : Q) : result CheckResults :=
  let results := mkCheck false false false false in
  results <- levels_loop price time level_proximity_threshold near_support
               support_levels results ;;
  levels_loop price time level_proximity_threshold near_resistance
    resistance_levels results.

(** ** Rows of the working frame *)

(** A row of [crypto] once the three pattern columns are added; [name] is
    the index label, kept when the frame is filtered. *)
Record Row : Type := mkRow {
  name : nat;
  bar : Bar;
  standard_pattern : bool;
  logical_pattern : bool;
  pattern_type : string
}.

(** ** analyze_pattern_performance *)

(** A walk over the future rows: [Some b] is [return b] from inside the
    loop, [None] is the loop running off the end; the number counts the
    rows the loop looked at. *)
Fixpoint bull_walk (min_price_threshold target_price : Q)
    (future_data : list Row) : option bool * nat :=
  match future_data with
  | [] => (None, 0)
  | row :: rest =>
      if Qlt_bool (low (bar row)) min_price_threshold then (Some false, 1)
      else if Qge_bool (high (bar row)) target_price then (Some true, 1)
      else let '(r, n) := bull_walk min_price_threshold target_price rest in
           (r, S n)
  end.

Fixpoint bear_walk (max_price_threshold target_price : Q)
    (future_data : list Row) : option bool * nat :=
  match future_data with
  | [] => (None, 0)
  | row :: rest =>
      if Qgt_bool (high (bar row)) max_price_threshold then (Some false, 1)
      else if Qle_bool (low (bar row)) target_price then (Some true, 1)
      else let '(r, n) := bear_walk max_price_threshold target_price rest in
           (r, S n)
  end.

Definition returned (r : option bool * nat) : bool * nat :=
  match fst r with
  | Some b => (b, snd r)
  | None => (false, snd r)
  end.

(** The verdict together with the number of future rows inspected. *)
Definition analyze_pattern_performance_walk (data : list Row)
    (pattern_row : Row) (ptype : string) (target_percent stop_percent : Q)
    : bool * nat :=
  let pattern_idx := name pattern_row in
  let pattern_price := close (bar pattern_row) in
  let future_data := skipn (pattern_idx + 1) data in
  match future_data with
  | [] => (false, 0)
  | _ :: _ =>
      if contains "Bull" ptype then
        let min_price_threshold :=
          (pattern_price * (1 - stop_percent / 100))%Q in
        let target_price := (pattern_price * (1 + target_percent / 100))%Q in
        returned (bull_walk min_price_threshold target_price future_data)
      else if contains "Bear" ptype then
        let max_price_threshold :=
          (pattern_price * (1 + stop_percent / 100))%Q in
        let target_price := (pattern_price * (1 - target_percent / 100))%Q in
        returned (bear_walk max_price_threshold target_price future_data)
      else (false, 0)
  end.

Definition analyze_pattern_performance (data : list Row) (pattern_row : Row)
    (ptype : string) (target_percent stop_percent : Q) : bool :=
  fst (analyze_pattern_performance_walk data pattern_row ptype
         target_percent stop_percent).

(** ** calculate_average_accuracy *)

Record Stats : Type := mkStats {
  total : nat;
  success : nat
}.

Fixpoint sum_present (items : dict Stats) (total_success total_patterns : nat)
    : nat * nat :=
  match items with
  | [] => (total_success, total_patterns)
  | (_, stats) :: rest =>
      if 0 <? total stats
      then sum_present rest (total_success + success stats)
             (total_patterns + total stats)
      else sum_present rest total_success total_patterns
  end.

Definition calculate_average_accuracy (pattern_stats : dict Stats)
    : result (Q * nat) :=
  let '(total_success, total_patterns) := sum_present pattern_stats 0 0 in
  if MIN_PREDICTIONS_COUNT <=? total_patterns then
    q <- py_div (Qnat total_success) (Qnat total_patterns) ;;
    Ok ((q * 100)%Q, total_patterns)
  else Ok (0%Q, total_patterns).

(** ** process_crypto_data *)

Record CandleResult : Type := mkCandleResult {
  pattern_stats : dict Stats;
  avg_accuracy : Q;
  total_predictions : nat;
  pattern_data : list Row
}.

Record ProcessResult : Type := mkProcessResult {
  support_levels : list Level;
  resistance_levels : list Level;
  results_by_candle : dict CandleResult
}.

(** The body of [for index, row in crypto.iterrows()]: the row with its
    three pattern columns filled in. *)
Definition classify_row (supports resistances : list Level)
    (level_proximity_threshold : Q) (label : nat) (b : Bar) : result Row :=
  let unmarked := mkRow label b false false "" in
  if truthy (candlestick_pattern b) then
    check_results <- check_pattern_levels (close b) (time b) supports
                       resistances level_proximity_threshold ;;
    let is_bull := contains "_Bull" (candlestick_pattern b) in
    let is_bear := contains "_Bear" (candlestick_pattern b) in
    if (is_bull && standard_bull check_results)
       || (is_bear && standard_bear check_results)
    then Ok (mkRow label b true false "standard")
    else if is_bull && logical_bull check_results
    then Ok (mkRow label b false true "logical_bull")
    else if is_bear && logical_bear check_results
    then Ok (mkRow label b false true "logical_bear")
    else Ok unmarked
  else Ok unmarked.

Fixpoint classify_rows (supports resistances : list Level)
    (level_proximity_threshold : Q) (label : nat) (data : list Bar)
    : result (list Row) :=
  match data with
  | [] => Ok []
  | b :: rest =>
      row <- classify_row supports resistances level_proximity_threshold
               label b ;;
      rows <- classify_rows supports resistances level_proximity_threshold
                (S label) rest ;;
      Ok (row :: rows)
  end.

Definition empty_stats : dict Stats :=
  [("Bull"%string, mkStats 0 0); ("Bear"%string, mkStats 0 0);
   ("L_Bull"%string, mkStats 0 0); ("L_Bear"%string, mkStats 0 0)].

(** The key under which a row of [pattern_data] is counted. *)
Definition stats_key (row : Row) : string :=
  if String.eqb (pattern_type row) "standard" then
    if contains "_Bull" (candlestick_pattern (bar row)) then "Bull"
    else "Bear"
  else if String.eqb (pattern_type row) "logical_bull" then "L_Bull"
  else if String.eqb (pattern_type row) "logical_bear" then "L_Bear"
  else "".

(** [pattern_stats[pattern_type]['total'] += 1] *)
Definition add_total (k : string) (d : dict Stats) : result (dict Stats) :=
  stats <- dict_get k d ;;
  Ok (dict_set k (mkStats (total stats + 1) (success stats)) d).

(** [pattern_stats[pattern_type]['success'] += 1] *)
Definition add_success (k : string) (d : dict Stats) : result (dict Stats) :=
  stats <- dict_get k d ;;
  Ok (dict_set k (mkStats (total stats) (success stats + 1)) d).

(** The body of [for index, row in pattern_data.iterrows()]. *)
Definition tally_row (crypto : list Row) (target_percent stop_percent : Q)
    (row : Row) (stats : dict Stats) : result (dict Stats) :=
  let ptype := stats_key row in
  stats <- add_total ptype stats ;;
  if analyze_pattern_performance crypto row ptype target_percent stop_percent
  then add_success ptype stats
  else Ok stats.

(** The body of [for candle in candle_names].  The selection
    [all_filtered_patterns['candlestick_pattern'].str.contains(candle)]
    is a regular-expression search for [candle]; the embedding covers
    names of letters and digits, where that is the substring test. *)
Definition candle_step (crypto all_filtered_patterns : list Row)
    (target_percent stop_percent : Q) (candle : string)
    (by_candle : dict CandleResult) : result (dict CandleResult) :=
  let selected :=
    filter (fun row => contains candle (candlestick_pattern (bar row)))
           all_filtered_patterns in
  match selected with
  | [] => Ok by_candle
  | _ :: _ =>
      stats <- for_each selected
                 (tally_row crypto target_percent stop_percent)
                 empty_stats ;;
      acc <- calculate_average_accuracy stats ;;
      Ok (dict_set candle
            (mkCandleResult stats (fst acc) (snd acc) selected) by_candle)
  end.

Definition process_crypto_data (candle_names : list string)
    (data : list Bar) (extrema_order min_touches : nat)
    (touch_threshold level_proximity_threshold target_percent
       stop_percent : Q) : result ProcessResult :=
  levels <- find_extreme_levels data extrema_order min_touches
              touch_threshold ;;
  let supports := fst levels in
  let resistances := snd levels in
  crypto <- classify_rows supports resistances level_proximity_threshold
              0 data ;;
  let all_filtered_patterns :=
    filter (fun row => standard_pattern row || logical_pattern row) crypto in
  by_candle <- for_each candle_names
                 (candle_step crypto all_filtered_patterns target_percent
                    stop_percent)
                 [] ;;
  Ok (mkProcessResult supports resistances by_candle).

(** ** The parameter search *)

Record Params : Type := mkParams {
  extrema_order : nat;
  min_touches : nat;
  touch_threshold : Q;
  level_proximity_threshold : Q;
  target_percent : Q;
  stop_percent : Q
}.

(** A line of [optimization_results.csv]; [csv_avg_accuracy] is the value
    that the line prints with one decimal. *)
Record CsvRow : Type := mkCsvRow {
  csv_extrema_order : nat;
  csv_min_touches : nat;
  csv_touch_threshold : Q;
  csv_level_proximity_threshold : Q;
  csv_target_percent : Q;
  csv_stop_percent : Q;
  csv_candle_name : string;
  csv_avg_accuracy : Q;
  csv_total_predictions : nat
}.

Definition csv_row (params : Params) (candle : string)
    (candle_results : CandleResult) : CsvRow :=
  mkCsvRow (extrema_order params) (min_touches params)
    (touch_threshold params) (level_proximity_threshold params)
    (target_percent params) (stop_percent params) candle
    (avg_accuracy candle_results) (total_predictions candle_results).

(** What the search prints about charts. *)
Inductive Message : Type :=
| ChartFileSaved (candle : string)
| ChartFileMissing (candle : string)
| ChartError (candle : string) (e : exn)
| CombinationChartSaved (combination : nat) (candle : string)
| CombinationChartNotSaved (combination : nat) (candle : string).

Record Search : Type := mkSearch {
  combination_counter : nat;
  saved_charts : nat;
  best_accuracy : Q;
  best_params : option (string * Params);
  results_file : list CsvRow;
  stdout : list Message
}.

Definition initial_search : Search := mkSearch 0 0 0%Q None [] [].

Definition kept (avg : Q) (predictions : nat) : bool :=
  Qge_bool avg MIN_ACCURACY_THRESHOLD
  && (MIN_PREDICTIONS_COUNT <=? predictions).

Section Engine.

(** The recognised pattern names (the module's global [candle_names]). *)
Variable candle_names : list string.

(** The plotting and saving inside the [try] of [create_and_save_chart]:
    [Ok true] when the file is there afterwards, [Ok false] when it is
    not, [Error e] when anything in the block raises. *)
Variable render :
  string -> CandleResult -> list Level -> list Level -> Params
  -> result bool.

(** Appending one line to the results file, given the lines already
    there; opening or writing may raise. *)
Variable append_line : list CsvRow -> CsvRow -> result unit.

Definition create_and_save_chart (candle : string)
    (candle_results : CandleResult) (supports resistances : list Level)
    (params : Params) : bool * list Message :=
  if kept (avg_accuracy candle_results) (total_predictions candle_results)
  then
    match render candle candle_results supports resistances params with
    | Ok true => (true, [ChartFileSaved candle])
    | Ok false => (false, [ChartFileMissing candle])
    | Error e => (false, [ChartError candle e])
    end
  else (false, []).

(** The body of
    [for candle, candle_results in results['results_by_candle'].items()]. *)
Definition report_candle (params : Params) (results : ProcessResult)
    (item : string * CandleResult) (st : Search) : result Search :=
  let '(candle, candle_results) := item in
  let avg := avg_accuracy candle_results in
  let predictions := total_predictions candle_results in
  let line := csv_row params candle candle_results in
  _ <- append_line (results_file st) line ;;
  let file := results_file st ++ [line] in
  if kept avg predictions then
    let '(chart_saved, printed) :=
      create_and_save_chart candle candle_results
        (support_levels results) (resistance_levels results) params in
    let saved :=
      if chart_saved then saved_charts st + 1 else saved_charts st in
    let out :=
      stdout st ++ printed
      ++ [if chart_saved
          then CombinationChartSaved (combination_counter st) candle
          else CombinationChartNotSaved (combination_counter st) candle] in
    if Qgt_bool avg (best_accuracy st)
    then Ok (mkSearch (combination_counter st) saved avg
               (Some (candle, params)) file out)
    else Ok (mkSearch (combination_counter st) saved (best_accuracy st)
               (best_params st) file out)
  else Ok (mkSearch (combination_counter st) (saved_charts st)
             (best_accuracy st) (best_params st) file (stdout st)).

(** The body of the innermost parameter loop.  The progress line, which
    reads the clock, is left out. *)
Definition combination (crypto : list Bar) (params : Params) (st : Search)
    : result Search :=
  let st := mkSearch (combination_counter st + 1) (saved_charts st)
              (best_accuracy st) (best_params st) (results_file st)
              (stdout st) in
  results <- process_crypto_data candle_names crypto
               (extrema_order params) (min_touches params)
               (touch_threshold params) (level_proximity_threshold params)
               (target_percent params) (stop_percent params) ;;
  for_each (results_by_candle results) (report_candle params results) st.

(** The six nested loops over the candidate values. *)
Definition grid_search (crypto : list Bar)
    (extrema_orders min_touches_values : list nat)
    (touch_thresholds proximity_thresholds target_percents
       stop_percents : list Q) (st : Search) : result Search :=
  for_each extrema_orders (fun extrema_order =>
  for_each min_touches_values (fun min_touches =>
  for_each touch_thresholds (fun touch_threshold =>
  for_each proximity_thresholds (fun level_proximity_threshold =>
  for_each target_percents (fun target_percent =>
  for_each stop_percents (fun stop_percent =>
    combination crypto
      (mkParams extrema_order min_touches touch_threshold
         level_proximity_threshold target_percent stop_percent)))))))
    st.

(** The search over the candidate values of the module, from the frame
    with its pattern column to [best_params, best_accuracy].  Loading the
    bars, the pattern signals and the top-10 summary written after the
    loops are outside the embedding. *)
Definition optimize_parameters (crypto : list Bar)
    : result (option (string * Params) * Q) :=
  st <- grid_search crypto EXTREMA_ORDER_VALUES MIN_LEVEL_TOUCHES_VALUES
          LEVEL_TOUCH_THRESHOLD_VALUES LEVEL_PROXIMITY_THRESHOLD_VALUES
          TARGET_PERCENT_VALUES STOP_PERCENT_VALUES initial_search ;;
  Ok (best_params st, best_accuracy st).

End Engine.

(** ** Specification-side definitions *)

(** The bar positions behind the levels that [find_extreme_levels]
    returns: supports first, resistances second. *)
Definition level_source_indices (data : list Bar) (order min_touches : nat)
    (touch_threshold : Q) : result (list nat * list nat) :=
  let prices := map close data in
  max_idx <- argrelextrema prices Qgt_bool order ;;
  min_idx <- argrelextrema prices Qlt_bool order ;;
  let keep i :=
    enough_touches data min_touches touch_threshold (level_of data i) in
  Ok (filter keep min_idx, filter keep max_idx).

(** Position [i] passes every round of the extremum test. *)
Definition extremum_at (a : list Q) (comparator : Q -> Q -> bool)
    (order : nat) (i : nat) : bool :=
  forallb
    (fun shift =>
       comparator (nth i a 0%Q)
         (take_clip a (Z.of_nat i + Z.of_nat shift))
       && comparator (nth i a 0%Q)
            (take_clip a (Z.of_nat i - Z.of_nat shift)))
    (seq 1 order).

(** No level comes from a bar closer than [order] to either end. *)
Definition levels_clear_of_boundaries (data : list Bar)
    (order min_touches : nat) (touch_threshold : Q) : Prop :=
  forall supports resistances,
    level_source_indices data order min_touches touch_threshold
    = Ok (supports, resistances) ->
    forall i, In i (supports ++ resistances) ->
      order <= i /\ i + order < length data.

Definition flat_bar (t : Z) (hi lo cl : Z) (pattern : string) : Bar :=
  mkBar t (inject_Z cl) (inject_Z hi) (inject_Z lo) (inject_Z cl) 1%Q pattern.

(** Four bars whose second close tops its neighbours. *)
Definition edge_series : list Bar :=
  [ flat_bar 0 1 1 1 ""; flat_bar 1 3 3 3 "";
    flat_bar 2 2 2 2 ""; flat_bar 3 1 1 1 "" ].

(** What one future bar does to an open position, the stop looked at
    before the target. *)
Inductive BarEvent : Type :=
| StopHit
| TargetHit
| NoEvent.

Definition bull_event (entry target_percent stop_percent : Q) (b : Bar)
    : BarEvent :=
  if Qlt_bool (low b) (entry * (1 - stop_percent / 100))%Q then StopHit
  else if Qle_bool (entry * (1 + target_percent / 100))%Q (high b)
  then TargetHit
  else NoEvent.

Definition bear_event (entry target_percent stop_percent : Q) (b : Bar)
    : BarEvent :=
  if Qlt_bool (entry * (1 + stop_percent / 100))%Q (high b) then StopHit
  else if Qle_bool (low b) (entry * (1 - target_percent / 100))%Q
  then TargetHit
  else NoEvent.

(** The reference scan: the first bar with an event decides; running out
    of bars is a failure. *)
Fixpoint reference_scan (event : Bar -> BarEvent) (future : list Bar)
    : bool :=
  match future with
  | [] => false
  | b :: rest =>
      match event b with
      | StopHit => false
      | TargetHit => true
      | NoEvent => reference_scan event rest
      end
  end.

(** The bars strictly after the occurrence at label [k]. *)
Definition bars_after (data : list Row) (k : nat) : list Bar :=
  map bar (skipn (S k) data).

(** The loop condition of [check_pattern_levels] for a nonzero price. *)
Definition qualifies (price : Q) (time : Z) (level_proximity_threshold : Q)
    (lv : Level) : bool :=
  Qlt_bool (Qabs (price - fst lv) / price)%Q
           (level_proximity_threshold / 100)%Q
  && (snd lv <? time)%Z.

Definition first_qualifying (price : Q) (time : Z)
    (level_proximity_threshold : Q) (levels : list Level) : option Level :=
  find (qualifies price time level_proximity_threshold) levels.

Definition near (price : Q) (time : Z) (level_proximity_threshold : Q)
    (levels : list Level) : bool :=
  match first_qualifying price time level_proximity_threshold levels with
  | Some _ => true
  | None => false
  end.

Inductive Category : Type :=
| Standard
| LogicalBull
| LogicalBear
| NoCategory.

Definition category_by_priority (is_bull is_bear near_s near_r : bool)
    : Category :=
  if (is_bull && near_s) || (is_bear && near_r) then Standard
  else if is_bull && near_r then LogicalBull
  else if is_bear && near_s then LogicalBear
  else NoCategory.

(** The three pattern columns of a row, written by category. *)
Definition mark (label : nat) (b : Bar) (c : Category) : Row :=
  match c with
  | Standard => mkRow label b true false "standard"
  | LogicalBull => mkRow label b false true "logical_bull"
  | LogicalBear => mkRow label b false true "logical_bear"
  | NoCategory => mkRow label b false false ""
  end.

Definition nonzero_close (b : Bar) : Prop := ~ (close b == 0)%Q.

(** The frame before any pattern column is filled in. *)
Fixpoint label_rows (label : nat) (data : list Bar) : list Row :=
  match data with
  | [] => []
  | b :: rest => mkRow label b false false "" :: label_rows (S label) rest
  end.

(** Ten bars: a low at bar 1, then a bullish pattern on bars 3, 5 and 7,
    each closing just above that low. *)
Definition demo_series : list Bar :=
  [ flat_bar 0 1000 1000 1000 "";
    flat_bar 1 800 800 800 "";
    flat_bar 2 1000 1000 1000 "";
    flat_bar 3 810 810 810 "CDLDOJI_Bull";
    flat_bar 4 1050 900 1000 "";
    flat_bar 5 810 810 810 "CDLDOJI_Bull";
    flat_bar 6 1000 700 1000 "";
    flat_bar 7 810 810 810 "CDLDOJI_Bull";
    flat_bar 8 1000 700 1000 "";
    flat_bar 9 1200 1200 1200 "" ].

Definition demo_rows : list Row := label_rows 0 demo_series.

Definition demo_row (k : nat) : Row :=
  nth k demo_rows (mkRow 0 default_bar false false "").

(** The sums over the categories of a statistics table. *)
Definition sum_total (table : dict Stats) : nat :=
  fold_right (fun kv n => total (snd kv) + n) 0 table.

Definition sum_success (table : dict Stats) : nat :=
  fold_right (fun kv n => success (snd kv) + n) 0 table.

(** No category has more successes than occurrences. *)
Definition counters_consistent (table : dict Stats) : Prop :=
  Forall (fun kv => success (snd kv) <= total (snd kv)) table.

(** A statistics table with the four categories of the source. *)
Definition table (bull bear l_bull l_bear : Stats) : dict Stats :=
  [("Bull"%string, bull); ("Bear"%string, bear);
   ("L_Bull"%string, l_bull); ("L_Bear"%string, l_bear)].

Definition four_keys : list string :=
  ["Bull"%string; "Bear"%string; "L_Bull"%string; "L_Bear"%string].

(** A row that the classification marked as standard or logical. *)
Definition marked (row : Row) : bool :=
  standard_pattern row || logical_pattern row.

Definition plus_stats (a b : Stats) : Stats :=
  mkStats (total a + total b) (success a + success b).

(** What a list of rows adds to the counters of category [k]. *)
Definition tally (k : string) (frame : list Row)
    (target_percent stop_percent : Q) (rows : list Row) : Stats :=
  mkStats
    (length (filter (fun row => String.eqb (stats_key row) k) rows))
    (length
       (filter
          (fun row =>
             String.eqb (stats_key row) k
             && analyze_pattern_performance frame row (stats_key row)
                  target_percent stop_percent)
          rows)).

(** The frame [crypto] of [process_crypto_data] after classification. *)
Definition working_frame (data : list Bar) (order min_touches : nat)
    (touch_threshold proximity_threshold : Q) : result (list Row) :=
  levels <- find_extreme_levels data order min_touches touch_threshold ;;
  classify_rows (fst levels) (snd levels) proximity_threshold 0 data.

(** The rows of [pattern_data] for one candle name: the classified rows
    in whose pattern string the name is found. *)
Definition selected_rows (candle : string) (frame : list Row)
    : list Row :=
  filter (fun row => contains candle (candlestick_pattern (bar row)))
         (filter marked frame).

(** A name of ASCII letters and digits, as every name of the TA-Lib
    catalog is (CDL2CROWS, CDLDOJI, ...).  [str.contains] reads the name
    as a regular expression; a name of letters and digits has no special
    character, so the search finds it exactly where the name occurs as a
    substring. *)
Definition plain_char (c : ascii) : bool :=
  let n := nat_of_ascii c in
  ((48 <=? n) && (n <=? 57))
  || ((65 <=? n) && (n <=? 90))
  || ((97 <=? n) && (n <=? 122)).

Fixpoint plain_name (s : string) : bool :=
  match s with
  | EmptyString => true
  | String c rest => plain_char c && plain_name rest
  end.

Definition plain_names (candle_names : list string) : Prop :=
  Forall (fun candle => plain_name candle = true) candle_names.




(** What [candle_step] stores for a candle name. *)
Definition candle_entry (frame : list Row) (target_percent stop_percent : Q)
    (entry : string * CandleResult) : Prop :=
  let rows := selected_rows (fst entry) frame in
  rows <> []
  /\ pattern_data (snd entry) = rows
  /\ pattern_stats (snd entry)
     = table (tally "Bull" frame target_percent stop_percent rows)
         (tally "Bear" frame target_percent stop_percent rows)
         (tally "L_Bull" frame target_percent stop_percent rows)
         (tally "L_Bear" frame target_percent stop_percent rows)
  /\ calculate_average_accuracy (pattern_stats (snd entry))
     = Ok (avg_accuracy (snd entry), total_predictions (snd entry)).


(** The parameter combinations in the order of the six nested loops. *)
Definition grid (extrema_orders min_touches_values : list nat)
    (touch_thresholds proximity_thresholds target_percents
       stop_percents : list Q) : list Params :=
  flat_map (fun eo =>
  flat_map (fun mt =>
  flat_map (fun tt =>
  flat_map (fun lp =>
  flat_map (fun tp =>
  map (fun sp => mkParams eo mt tt lp tp sp) stop_percents)
    target_percents) proximity_thresholds) touch_thresholds)
    min_touches_values) extrema_orders.

Definition process_with (candle_names : list string) (crypto : list Bar)
    (params : Params) : result ProcessResult :=
  process_crypto_data candle_names crypto (extrema_order params)
    (min_touches params) (touch_threshold params)
    (level_proximity_threshold params) (target_percent params)
    (stop_percent params).

(** The report lines of one combination, one per stored candle. *)
Definition cell_rows (candle_names : list string) (crypto : list Bar)
    (params : Params) : list CsvRow :=
  match process_with candle_names crypto params with
  | Ok res =>
      map (fun item => csv_row params (fst item) (snd item))
          (results_by_candle res)
  | Error _ => []
  end.

Definition kept_row (r : CsvRow) : bool :=
  kept (csv_avg_accuracy r) (csv_total_predictions r).

Definition row_params (r : CsvRow) : Params :=
  mkParams (csv_extrema_order r) (csv_min_touches r) (csv_touch_threshold r)
    (csv_level_proximity_threshold r) (csv_target_percent r)
    (csv_stop_percent r).

(** The best-so-far result is the first line of the report, among the
    lines that pass [select], whose accuracy no selected line exceeds;
    there is none while no selected line has a positive accuracy. *)
Definition best_among (select : CsvRow -> bool) (st : Search) : Prop :=
  match best_params st with
  | None =>
      best_accuracy st = 0%Q
      /\ forall r, In r (results_file st) -> select r = true ->
                   ~ (0 < csv_avg_accuracy r)%Q
  | Some (candle, params) =>
      exists before r rest,
        results_file st = before ++ r :: rest
        /\ select r = true
        /\ csv_candle_name r = candle
        /\ row_params r = params
        /\ csv_avg_accuracy r = best_accuracy st
        /\ (forall x, In x before -> select x = true ->
                      (csv_avg_accuracy x < best_accuracy st)%Q)
        /\ (forall x, In x rest -> select x = true ->
                      (csv_avg_accuracy x <= best_accuracy st)%Q)
  end.

(** Best among the kept results, as the search tracks it. *)
Definition best_tracks_kept (st : Search) : Prop := best_among kept_row st.

(** Best among all the results examined, kept or not. *)
Definition best_tracks_all (st : Search) : Prop :=
  best_among (fun _ => true) st.

Definition stdout_extends (st st' : Search) : Prop :=
  exists printed, stdout st' = stdout st ++ printed.



(** A renderer that always saves, one that always raises, and a results
    file that always takes the line. *)
Definition saving_render (candle : string) (candle_results : CandleResult)
    (supports resistances : list Level) (params : Params) : result bool :=
  Ok true.

Definition raising_render (candle : string) (candle_results : CandleResult)
    (supports resistances : list Level) (params : Params) : result bool :=
  Error RenderError.

Definition writable (file : list CsvRow) (line : CsvRow) : result unit :=
  Ok tt.

(** A results file whose first line, and only that one, cannot be
    written. *)
Definition unwritable_once (file : list CsvRow) (line : CsvRow)
    : result unit :=
  match file with
  | [] => Error OSError
  | _ :: _ => Ok tt
  end.

(** [demo_series] with a calmer bar 6: two of the three patterns win. *)
Definition winning_series : list Bar :=
  [ flat_bar 0 1000 1000 1000 "";
    flat_bar 1 800 800 800 "";
    flat_bar 2 1000 1000 1000 "";
    flat_bar 3 810 810 810 "CDLDOJI_Bull";
    flat_bar 4 1050 900 1000 "";
    flat_bar 5 810 810 810 "CDLDOJI_Bull";
    flat_bar 6 1000 900 1000 "";
    flat_bar 7 810 810 810 "CDLDOJI_Bull";
    flat_bar 8 1000 700 1000 "";
    flat_bar 9 1200 1200 1200 "" ].

(** The number of bars that the reference scan reads: up to and
    including the first bar with an event. *)
Fixpoint scan_length (event : Bar -> BarEvent) (future : list Bar) : nat :=
  match future with
  | [] => 0
  | b :: rest =>
      match event b with
      | NoEvent => S (scan_length event rest)
      | _ => 1
      end
  end.

(** ** The pattern column (the labelling loop before the search) *)

(** [row[candle_names]] is a dict from the catalog names to the signals of
    the row, in catalog order.
    [list(compress(row[candle_names].keys(), row[candle_names].values != 0))] *)
Definition detected_patterns (signals : dict Z) : list string :=
  map fst (filter (fun s => negb (snd s =? 0)%Z) signals).

(** The body of the labelling loop: the values written to
    [candlestick_pattern] and [candlestick_match_count]. *)
Definition label_row (signals : dict Z) : result (string * nat) :=
  let detected := detected_patterns signals in
  match detected with
  | [] => Ok (EmptyString, 0)
  | best_pattern :: _ =>
      signal <- dict_get best_pattern signals ;;
      let label := if (0 <? signal)%Z then "_Bull"%string
                   else "_Bear"%string in
      Ok ((best_pattern ++ label)%string, length detected)
  end.

(** No underscore in a name, as in the names of the pattern catalog. *)
Fixpoint underscore_free (s : string) : bool :=
  match s with
  | EmptyString => true
  | String c rest => negb (Ascii.eqb c "_") && underscore_free rest
  end.

(** ** The single-pass script (Candlestic-patterns-with-extremum-levels.py) *)

Module ExtremumLevels.

(** Insertion into an ascending list without repeats. *)
Fixpoint insert_level (x : Q) (l : list Q) : list Q :=
  match l with
  | [] => [x]
  | y :: rest =>
      if Qlt_bool x y then x :: l
      else if Qeq_bool x y then l
      else y :: insert_level x rest
  end.

(** [sorted(set(levels))]: the distinct values in ascending order.  Equal
    numbers are one value; which of two equal representations stays is
    immaterial. *)
Definition sorted_set (levels : list Q) : list Q :=
  fold_right insert_level [] levels.

(** [(data['close'] - level).abs().lt(level * 0.01).sum() >= min_touches] *)
Definition tested (data : list Bar) (min_touches : nat) (level : Q) : bool :=
  min_touches
  <=? length (filter
                (fun b => Qlt_bool (Qabs (close b - level))
                                   (level * (1 # 100)))
                data).

Definition find_extreme_levels (data : list Bar) (order min_touches : nat)
    : result (list Q * list Q) :=
  let prices := map close data in
  max_idx <- argrelextrema prices Qgt_bool order ;;
  min_idx <- argrelextrema prices Qlt_bool order ;;
  let resistance_levels := map (fun i => close (iloc data i)) max_idx in
  let support_levels := map (fun i => close (iloc data i)) min_idx in
  let support_levels := filter (tested data min_touches) support_levels in
  let resistance_levels :=
    filter (tested data min_touches) resistance_levels in
  Ok (sorted_set support_levels, sorted_set resistance_levels).

(** [abs(price - level) / price < threshold] on numpy scalars: a zero
    divisor gives inf or nan, neither of which is below the threshold. *)
Definition close_to (price threshold level : Q) : bool :=
  if Qeq_bool price 0 then false
  else Qlt_bool (Qabs (price - level) / price) threshold.

(** [any(abs(price - level) / price < threshold for level in levels)] *)
Definition is_near_extreme_level (price : Q) (levels : list Q)
    (threshold : Q) : bool :=
  existsb (close_to price threshold) levels.

(** The rows of [patterns_near_extreme]: a pattern on the bar and a close
    near one of the levels, with the default threshold of 0.02. *)
Definition patterns_near_extreme (data : list Bar)
    (support_levels resistance_levels : list Q) : list Bar :=
  filter
    (fun b =>
       negb (String.eqb (candlestick_pattern b) "")
       && is_near_extreme_level (close b)
            (support_levels ++ resistance_levels) (2 # 100))
    data.

End ExtremumLevels.

(** ** More specification-side definitions *)

(** Two search states that agree on everything but the charts: the
    counter of saved charts and the printed lines. *)
Definition same_outcome (s t : Search) : Prop :=
  combination_counter s = combination_counter t
  /\ best_accuracy s = best_accuracy t
  /\ best_params s = best_params t
  /\ results_file s = results_file t.

(** The candle names found in the pattern string of at least one
    classified row, in catalog order. *)
Definition candles_with_result (candle_names : list string)
    (frame : list Row) : list string :=
  filter
    (fun candle =>
       existsb
         (fun row => contains candle (candlestick_pattern (bar row)))
         (filter marked frame))
    candle_names.

(** [demo_series] with the three patterns labelled as bullish doji
    stars. *)
Definition star_series : list Bar :=
  [ flat_bar 0 1000 1000 1000 "";
    flat_bar 1 800 800 800 "";
    flat_bar 2 1000 1000 1000 "";
    flat_bar 3 810 810 810 "CDLDOJISTAR_Bull";
    flat_bar 4 1050 900 1000 "";
    flat_bar 5 810 810 810 "CDLDOJISTAR_Bull";
    flat_bar 6 1000 700 1000 "";
    flat_bar 7 810 810 810 "CDLDOJISTAR_Bull";
    flat_bar 8 1000 700 1000 "";
    flat_bar 9 1200 1200 1200 "" ].


(** A simulated bullish or bearish trade from the close of a row. *)
Definition bull_outcome (data : list Row) (row : Row)
    (target_percent stop_percent : Q) : bool :=
  analyze_pattern_performance data row "Bull" target_percent stop_percent.

Definition bear_outcome (data : list Row) (row : Row)
    (target_percent stop_percent : Q) : bool :=
  analyze_pattern_performance data row "Bear" target_percent stop_percent.

(** The chart code left a file: the only case counted as saved. *)
Definition left_a_file (outcome : result bool) : bool :=
  match outcome with
  | Ok true => true
  | _ => false
  end.

(** The saved-chart counter against the kept lines of the results file:
    never more, equal when the renderer always leaves a file, zero when
    it never does. *)
Definition charts_counted
    (render : string -> CandleResult -> list Level -> list Level -> Params
              -> result bool) (st : Search) : Prop :=
  saved_charts st <= length (filter kept_row (results_file st))
  /\ ((forall candle candle_results supports resistances params,
         left_a_file
           (render candle candle_results supports resistances params)
         = true) ->
      saved_charts st = length (filter kept_row (results_file st)))
  /\ ((forall candle candle_results supports resistances params,
         left_a_file
           (render candle candle_results supports resistances params)
         = false) ->
      saved_charts st = 0).

(** * Verification *)

(** ** Comparisons *)

Lemma Qlt_bool_iff (x y : Q) : Qlt_bool x y = true <-> (x < y)%Q.
Proof.
  unfold Qlt_bool. rewrite negb_true_iff.
  split; intro H.
  - apply Qnot_le_lt. intro Hle. apply Qle_bool_iff in Hle. congruence.
  - destruct (Qle_bool y x) eqn:E; [|reflexivity].
    apply Qle_bool_iff in E. exfalso. exact (Qlt_not_le _ _ H E).
Qed.

Lemma Qlt_bool_irrefl (x : Q) : Qlt_bool x x = false.
Proof.
  destruct (Qlt_bool x x) eqn:E; [|reflexivity].
  apply Qlt_bool_iff in E. exfalso. exact (Qlt_irrefl _ E).
Qed.

Lemma Qgt_bool_irrefl (x : Q) : Qgt_bool x x = false.
Proof. apply Qlt_bool_irrefl. Qed.

(** ** The extremum test *)

Lemma take_clip_inside (a : list Q) (j : nat) :
  j < length a -> take_clip a (Z.of_nat j) = nth j a 0%Q.
Proof.
  intro H. unfold take_clip. f_equal. lia.
Qed.

Lemma take_clip_below (a : list Q) (z : Z) :
  (z <= 0)%Z -> take_clip a z = nth 0 a 0%Q.
Proof.
  intro H. unfold take_clip. f_equal. lia.
Qed.

Lemma take_clip_above (a : list Q) (z : Z) :
  (Z.of_nat (length a) - 1 <= z)%Z -> take_clip a z = nth (length a - 1) a 0%Q.
Proof.
  intro H. unfold take_clip. f_equal. lia.
Qed.

Lemma relextrema_round_length a comparator shift :
  forall main loc results,
    length results = length main ->
    length (relextrema_round a comparator shift loc main results)
    = length main.
Proof.
  induction main as [|x main IH]; intros loc results Hlen.
  - reflexivity.
  - destruct results as [|r results]; [discriminate|].
    simpl. f_equal. apply IH. simpl in Hlen. lia.
Qed.

Lemma relextrema_round_nth a comparator shift :
  forall main loc results i,
    length results = length main -> i < length main ->
    nth i (relextrema_round a comparator shift loc main results) false
    = nth i results false
      && comparator (nth i main 0%Q)
           (take_clip a (Z.of_nat (loc + i) + Z.of_nat shift))
      && comparator (nth i main 0%Q)
           (take_clip a (Z.of_nat (loc + i) - Z.of_nat shift)).
Proof.
  induction main as [|x main IH]; intros loc results i Hlen Hi.
  - simpl in Hi. lia.
  - destruct results as [|r results]; [discriminate|].
    simpl in Hlen, Hi. destruct i as [|i]; simpl.
    + rewrite Nat.add_0_r. reflexivity.
    + rewrite IH by lia.
      replace (S loc + i) with (loc + S i) by lia. reflexivity.
Qed.

Lemma existsb_id_false_nth (l : list bool) (i : nat) :
  existsb (fun b => b) l = false -> nth i l false = false.
Proof.
  revert i. induction l as [|b l IH]; intros i H.
  - destruct i; reflexivity.
  - simpl in H. apply orb_false_iff in H. destruct H as [Hb Hl].
    destruct i; simpl; auto.
Qed.

Lemma relextrema_loop_length a comparator :
  forall shifts results,
    length results = length a ->
    length (relextrema_loop a comparator shifts results) = length a.
Proof.
  induction shifts as [|s shifts IH]; intros results Hlen; simpl.
  - assumption.
  - pose proof (relextrema_round_length a comparator s a 0 results Hlen) as HL.
    destruct (negb _); [assumption|]. apply IH. assumption.
Qed.

Lemma relextrema_loop_nth a comparator :
  forall shifts results i,
    length results = length a -> i < length a ->
    nth i (relextrema_loop a comparator shifts results) false
    = nth i results false
      && forallb
           (fun shift =>
              comparator (nth i a 0%Q)
                (take_clip a (Z.of_nat i + Z.of_nat shift))
              && comparator (nth i a 0%Q)
                   (take_clip a (Z.of_nat i - Z.of_nat shift)))
           shifts.
Proof.
  induction shifts as [|s shifts IH]; intros results i Hlen Hi; simpl.
  - rewrite andb_true_r. reflexivity.
  - pose proof (relextrema_round_length a comparator s a 0 results Hlen) as HL.
    pose proof (relextrema_round_nth a comparator s a 0 results i Hlen Hi)
      as HN.
    simpl in HN.
    destruct (existsb (fun b => b) (relextrema_round a comparator s 0 a results))
      eqn:E; simpl.
    + rewrite IH by assumption. rewrite HN.
      rewrite !andb_assoc. reflexivity.
    + pose proof (existsb_id_false_nth _ i E) as HF.
      rewrite HF. rewrite HF in HN.
      rewrite !andb_assoc. rewrite <- HN. reflexivity.
Qed.

Lemma nth_repeat_true (n i : nat) :
  i < n -> nth i (repeat true n) false = true.
Proof.
  revert i. induction n as [|n IH]; intros i H; [lia|].
  destruct i; simpl; [reflexivity|]. apply IH. lia.
Qed.

Lemma nonzero_from_spec :
  forall results loc i,
    In i (nonzero_from loc results)
    <-> loc <= i /\ nth (i - loc) results false = true.
Proof.
  induction results as [|r results IH]; intros loc i; simpl.
  - split; [tauto|]. intros [_ H]. destruct (i - loc); discriminate.
  - assert (Hstep : In i (nonzero_from (S loc) results)
                    <-> loc < i /\ nth (i - S loc) results false = true)
      by (rewrite IH; split; intros [Ha Hb]; split; auto; lia).
    destruct r; simpl; rewrite Hstep.
    + split.
      * intros [<- | [Hlt Hn]].
        -- split; [lia|]. rewrite Nat.sub_diag. reflexivity.
        -- split; [lia|].
           replace (i - loc) with (S (i - S loc)) by lia. assumption.
      * intros [Hle Hn].
        destruct (Nat.eq_dec loc i) as [->|Hne]; [left; reflexivity|].
        right. split; [lia|].
        replace (i - loc) with (S (i - S loc)) in Hn by lia. assumption.
    + split.
      * intros [Hlt Hn]. split; [lia|].
        replace (i - loc) with (S (i - S loc)) by lia. assumption.
      * intros [Hle Hn].
        destruct (Nat.eq_dec loc i) as [->|Hne].
        -- rewrite Nat.sub_diag in Hn. discriminate.
        -- split; [lia|].
           replace (i - loc) with (S (i - S loc)) in Hn by lia. assumption.
Qed.

(** [argrelextrema] returns exactly the positions that pass every round. *)
Lemma argrelextrema_spec a comparator order idx :
  argrelextrema a comparator order = Ok idx ->
  1 <= order /\
  forall i, In i idx
            <-> i < length a /\ extremum_at a comparator order i = true.
Proof.
  unfold argrelextrema, boolrelextrema.
  destruct (order <? 1) eqn:Eo; simpl; [discriminate|].
  apply Nat.ltb_ge in Eo. intro H. injection H as <-.
  split; [assumption|]. intro i.
  rewrite nonzero_from_spec, Nat.sub_0_r.
  pose proof (repeat_length true (length a)) as HR.
  split.
  - intros [_ Hn].
    assert (Hi : i < length a).
    { destruct (Nat.lt_ge_cases i (length a)) as [Hlt|Hge]; [assumption|].
      rewrite nth_overflow in Hn; [discriminate|].
      rewrite relextrema_loop_length by assumption. assumption. }
    split; [assumption|].
    rewrite relextrema_loop_nth in Hn by assumption.
    apply andb_true_iff in Hn. apply Hn.
  - intros [Hi He]. split; [lia|].
    rewrite relextrema_loop_nth by assumption.
    rewrite nth_repeat_true by assumption. exact He.
Qed.

Lemma extremum_at_shift a comparator order i shift :
  extremum_at a comparator order i = true ->
  1 <= shift <= order ->
  comparator (nth i a 0%Q) (take_clip a (Z.of_nat i + Z.of_nat shift)) = true
  /\ comparator (nth i a 0%Q) (take_clip a (Z.of_nat i - Z.of_nat shift))
     = true.
Proof.
  unfold extremum_at. intros H Hs.
  rewrite forallb_forall in H.
  apply andb_true_iff. apply H. apply in_seq. lia.
Qed.

(** With a strict comparison, neither end of the series passes the test:
    the neighbour past the end is the end itself. *)
Lemma extremum_at_not_at_ends a comparator order i :
  (forall x, comparator x x = false) ->
  1 <= order -> i < length a ->
  extremum_at a comparator order i = true ->
  1 <= i /\ i + 1 < length a.
Proof.
  intros Hirr Ho Hi He.
  destruct (extremum_at_shift a comparator order i 1 He ltac:(lia))
    as [Hplus Hminus].
  split.
  - destruct i as [|i]; [|lia].
    rewrite take_clip_below in Hminus by lia.
    rewrite Hirr in Hminus. discriminate.
  - destruct (Nat.lt_ge_cases (i + 1) (length a)) as [Hlt|Hge]; [assumption|].
    rewrite take_clip_above in Hplus by lia.
    replace (length a - 1) with i in Hplus by lia.
    rewrite Hirr in Hplus. discriminate.
Qed.

(** Every bar of the series at most [order] places away is compared. *)
Lemma extremum_at_neighbours a comparator order i j :
  extremum_at a comparator order i = true ->
  j < length a -> j <> i -> j <= i + order -> i <= j + order ->
  comparator (nth i a 0%Q) (nth j a 0%Q) = true.
Proof.
  intros He Hj Hne Hup Hdown.
  destruct (Nat.lt_ge_cases i j) as [Hlt|Hge].
  - destruct (extremum_at_shift a comparator order i (j - i) He ltac:(lia))
      as [Hplus _].
    replace (Z.of_nat i + Z.of_nat (j - i))%Z with (Z.of_nat j) in Hplus
      by lia.
    rewrite take_clip_inside in Hplus by assumption. assumption.
  - destruct (extremum_at_shift a comparator order i (i - j) He ltac:(lia))
      as [_ Hminus].
    replace (Z.of_nat i - Z.of_nat (i - j))%Z with (Z.of_nat j) in Hminus
      by lia.
    rewrite take_clip_inside in Hminus by assumption. assumption.
Qed.

Lemma filter_map_swap {A B : Type} (f : B -> bool) (g : A -> B) (l : list A) :
  filter f (map g l) = map g (filter (fun x => f (g x)) l).
Proof.
  induction l as [|x l IH]; simpl; [reflexivity|].
  destruct (f (g x)); simpl; rewrite IH; reflexivity.
Qed.

Lemma filter_filter_weaker {A : Type} (f g : A -> bool) (l : list A) :
  (forall x, f x = true -> g x = true) ->
  filter f (filter g l) = filter f l.
Proof.
  intro Himp. induction l as [|x l IH]; simpl; [reflexivity|].
  destruct (g x) eqn:Eg; simpl.
  - rewrite IH. reflexivity.
  - destruct (f x) eqn:Ef; [|assumption].
    rewrite (Himp x Ef) in Eg. discriminate.
Qed.

Lemma nth_map_close (data : list Bar) (i : nat) :
  nth i (map close data) 0%Q = close (iloc data i).
Proof.
  unfold iloc. change 0%Q with (close default_bar). apply map_nth.
Qed.

(** The levels are the source positions read off the frame. *)
Lemma find_extreme_levels_sources data order min_touches touch_threshold :
  find_extreme_levels data order min_touches touch_threshold
  = (src <- level_source_indices data order min_touches touch_threshold ;;
     Ok (map (level_of data) (fst src), map (level_of data) (snd src))).
Proof.
  unfold find_extreme_levels, level_source_indices.
  destruct (argrelextrema (map close data) Qgt_bool order) as [max_idx|e];
    simpl; [|reflexivity].
  destruct (argrelextrema (map close data) Qlt_bool order) as [min_idx|e];
    simpl; [|reflexivity].
  rewrite !filter_map_swap. reflexivity.
Qed.

Lemma level_source_indices_total data order min_touches touch_threshold :
  1 <= order ->
  exists src,
    level_source_indices data order min_touches touch_threshold = Ok src.
Proof.
  intro Ho. unfold level_source_indices, argrelextrema, boolrelextrema.
  destruct (order <? 1) eqn:E; [apply Nat.ltb_lt in E; lia|].
  simpl. eexists. reflexivity.
Qed.

Lemma find_extreme_levels_total data order min_touches touch_threshold :
  1 <= order ->
  exists levels,
    find_extreme_levels data order min_touches touch_threshold = Ok levels.
Proof.
  intro Ho. rewrite find_extreme_levels_sources.
  destruct (level_source_indices_total data order min_touches
              touch_threshold Ho) as [src ->].
  simpl. eexists. reflexivity.
Qed.

Lemma level_source_indices_inv data order min_touches touch_threshold
    supports resistances :
  level_source_indices data order min_touches touch_threshold
  = Ok (supports, resistances) ->
  1 <= order
  /\ (forall i, In i supports ->
        i < length data
        /\ extremum_at (map close data) Qlt_bool order i = true)
  /\ (forall i, In i resistances ->
        i < length data
        /\ extremum_at (map close data) Qgt_bool order i = true).
Proof.
  unfold level_source_indices.
  destruct (argrelextrema (map close data) Qgt_bool order) as [max_idx|e]
    eqn:Emax; simpl; [|discriminate].
  destruct (argrelextrema (map close data) Qlt_bool order) as [min_idx|e]
    eqn:Emin; simpl; [|discriminate].
  intro H. injection H as <- <-.
  destruct (argrelextrema_spec _ _ _ _ Emax) as [Ho Hmax].
  destruct (argrelextrema_spec _ _ _ _ Emin) as [_ Hmin].
  rewrite length_map in Hmax, Hmin.
  split; [assumption|].
  split; intros i Hi; apply filter_In in Hi; destruct Hi as [Hi _].
  - apply Hmin. assumption.
  - apply Hmax. assumption.
Qed.

(** C1 (as amended).  Every level that [find_extreme_levels] returns is
    read off a bar that is neither the first nor the last bar of the
    series, and whose close is strictly below (support) or strictly above
    (resistance) the close of every other bar of the series at most
    [order] positions away.  A bar closer than [order] to an end of the
    series is not excluded: the neighbours it lacks are replaced by the
    end bar. *)
Theorem find_extreme_levels_source_bars :
  forall data order min_touches touch_threshold supports resistances,
    find_extreme_levels data order min_touches touch_threshold
    = Ok (supports, resistances) ->
    exists support_idx resistance_idx,
      level_source_indices data order min_touches touch_threshold
      = Ok (support_idx, resistance_idx)
      /\ supports = map (level_of data) support_idx
      /\ resistances = map (level_of data) resistance_idx
      /\ (forall i, In i (support_idx ++ resistance_idx) ->
            1 <= i /\ i + 1 < length data)
      /\ (forall i j, In i support_idx ->
            j < length data -> j <> i -> j <= i + order -> i <= j + order ->
            (close (iloc data i) < close (iloc data j))%Q)
      /\ (forall i j, In i resistance_idx ->
            j < length data -> j <> i -> j <= i + order -> i <= j + order ->
            (close (iloc data j) < close (iloc data i))%Q).
Proof.
  intros data order min_touches touch_threshold supports resistances Hfind.
  rewrite find_extreme_levels_sources in Hfind.
  destruct (level_source_indices data order min_touches touch_threshold)
    as [[support_idx resistance_idx]|e] eqn:Hsrc; cbn in Hfind;
    [|discriminate].
  injection Hfind as <- <-.
  exists support_idx, resistance_idx.
  destruct (level_source_indices_inv _ _ _ _ _ _ Hsrc)
    as [Ho [Hsup Hres]].
  split; [reflexivity|]. split; [reflexivity|]. split; [reflexivity|].
  split; [|split].
  - intros i Hi. apply in_app_or in Hi. destruct Hi as [Hi|Hi].
    + destruct (Hsup i Hi) as [Hlt He].
      pose proof (extremum_at_not_at_ends _ _ _ _ Qlt_bool_irrefl Ho
                    ltac:(rewrite length_map; exact Hlt) He) as HE.
      rewrite length_map in HE. exact HE.
    + destruct (Hres i Hi) as [Hlt He].
      pose proof (extremum_at_not_at_ends _ _ _ _ Qgt_bool_irrefl Ho
                    ltac:(rewrite length_map; exact Hlt) He) as HE.
      rewrite length_map in HE. exact HE.
  - intros i j Hi Hj Hne Hup Hdown.
    destruct (Hsup i Hi) as [_ He].
    pose proof (extremum_at_neighbours _ _ _ i j He
                  ltac:(rewrite length_map; exact Hj) Hne Hup Hdown) as HC.
    rewrite !nth_map_close in HC. apply Qlt_bool_iff. exact HC.
  - intros i j Hi Hj Hne Hup Hdown.
    destruct (Hres i Hi) as [_ He].
    pose proof (extremum_at_neighbours _ _ _ i j He
                  ltac:(rewrite length_map; exact Hj) Hne Hup Hdown) as HC.
    rewrite !nth_map_close in HC. apply Qlt_bool_iff. exact HC.
Qed.

Lemma find_extreme_levels_source_bars_witness :
  find_extreme_levels edge_series 2 1 1%Q = Ok ([], [(3%Q, 1%Z)])
  /\ exists support_idx resistance_idx,
       level_source_indices edge_series 2 1 1%Q
       = Ok (support_idx, resistance_idx)
       /\ forall i, In i (support_idx ++ resistance_idx) ->
                    1 <= i /\ i + 1 < length edge_series.
Proof.
  split; [reflexivity|].
  destruct (find_extreme_levels_source_bars edge_series 2 1 1%Q []
              [(3%Q, 1%Z)] eq_refl)
    as (support_idx & resistance_idx & Hsrc & _ & _ & Hends & _).
  exists support_idx, resistance_idx. split; [exact Hsrc|exact Hends].
Defined.

(** C1 as stated fails: with window 2 the resistance level (3, time 1)
    of [edge_series] comes from the bar at position 1, which is closer
    than 2 to the start of the series. *)
Lemma levels_clear_of_boundaries_fails :
  find_extreme_levels edge_series 2 1 1%Q = Ok ([], [(3%Q, 1%Z)])
  /\ level_source_indices edge_series 2 1 1%Q = Ok ([], [1])
  /\ level_of edge_series 1 = (3%Q, 1%Z)
  /\ ~ levels_clear_of_boundaries edge_series 2 1 1%Q.
Proof.
  split; [reflexivity|]. split; [reflexivity|]. split; [reflexivity|].
  intro H.
  destruct (H [] [1] eq_refl 1 (or_introl eq_refl)) as [Hle _].
  lia.
Qed.

(** ** The outcome simulator *)

Lemma bull_walk_reference min_price_threshold target_price entry
    target_percent stop_percent :
  min_price_threshold = (entry * (1 - stop_percent / 100))%Q ->
  target_price = (entry * (1 + target_percent / 100))%Q ->
  forall future,
    fst (returned (bull_walk min_price_threshold target_price future))
    = reference_scan (bull_event entry target_percent stop_percent)
        (map bar future).
Proof.
  intros -> ->. induction future as [|row rest IH]; [reflexivity|].
  simpl. unfold bull_event at 1. unfold Qge_bool.
  destruct (Qlt_bool (low (bar row)) _); [reflexivity|].
  destruct (Qle_bool _ (high (bar row))); [reflexivity|].
  rewrite <- IH. unfold returned.
  destruct (bull_walk _ _ rest) as [[v|] n]; reflexivity.
Qed.

Lemma bear_walk_reference max_price_threshold target_price entry
    target_percent stop_percent :
  max_price_threshold = (entry * (1 + stop_percent / 100))%Q ->
  target_price = (entry * (1 - target_percent / 100))%Q ->
  forall future,
    fst (returned (bear_walk max_price_threshold target_price future))
    = reference_scan (bear_event entry target_percent stop_percent)
        (map bar future).
Proof.
  intros -> ->. induction future as [|row rest IH]; [reflexivity|].
  simpl. unfold bear_event at 1. unfold Qgt_bool.
  destruct (Qlt_bool _ (high (bar row))); [reflexivity|].
  destruct (Qle_bool (low (bar row)) _); [reflexivity|].
  rewrite <- IH. unfold returned.
  destruct (bear_walk _ _ rest) as [[v|] n]; reflexivity.
Qed.

(** Both walks stop at the first bar with an event. *)
Lemma bull_walk_stops entry target_percent stop_percent :
  forall future,
    snd (bull_walk (entry * (1 - stop_percent / 100))%Q
           (entry * (1 + target_percent / 100))%Q future)
    = scan_length (bull_event entry target_percent stop_percent)
        (map bar future).
Proof.
  induction future as [|row rest IH]; [reflexivity|].
  simpl. unfold bull_event at 1. unfold Qge_bool.
  destruct (Qlt_bool (low (bar row)) _); [reflexivity|].
  destruct (Qle_bool _ (high (bar row))); [reflexivity|].
  rewrite <- IH. destruct (bull_walk _ _ rest) as [v n]; reflexivity.
Qed.

Lemma bear_walk_stops entry target_percent stop_percent :
  forall future,
    snd (bear_walk (entry * (1 + stop_percent / 100))%Q
           (entry * (1 - target_percent / 100))%Q future)
    = scan_length (bear_event entry target_percent stop_percent)
        (map bar future).
Proof.
  induction future as [|row rest IH]; [reflexivity|].
  simpl. unfold bear_event at 1. unfold Qgt_bool.
  destruct (Qlt_bool _ (high (bar row))); [reflexivity|].
  destruct (Qle_bool (low (bar row)) _); [reflexivity|].
  rewrite <- IH. destruct (bear_walk _ _ rest) as [v n]; reflexivity.
Qed.

(** The reference scan succeeds exactly when some bar hits the target
    and no bar before it has any event. *)
Lemma reference_scan_true event future :
  reference_scan event future = true
  <-> exists before b rest,
        future = before ++ b :: rest
        /\ event b = TargetHit
        /\ Forall (fun x => event x = NoEvent) before.
Proof.
  induction future as [|x future IH]; simpl.
  - split; [discriminate|].
    intros (before & b & rest & H & _). destruct before; discriminate.
  - destruct (event x) eqn:E.
    + split; [discriminate|].
      intros (before & b & rest & H & Hb & Hall).
      destruct before as [|y before]; simpl in H; injection H as -> ->.
      * congruence.
      * inversion Hall; congruence.
    + split; [|reflexivity]. intros _.
      exists [], x, future. repeat split; auto.
    + rewrite IH. split.
      * intros (before & b & rest & -> & Hb & Hall).
        exists (x :: before), b, rest. repeat split; auto.
      * intros (before & b & rest & H & Hb & Hall).
        destruct before as [|y before]; simpl in H; injection H as -> ->.
        -- congruence.
        -- exists before, b, rest. inversion Hall. repeat split; auto.
Qed.

(** C2.  With a pattern type that contains "Bull", the simulator returns
    the reference scan of the bars strictly after the occurrence with the
    bull rule (stop: low strictly below entry*(1 - s/100), looked at first;
    target: high at or above entry*(1 + t/100)); with a pattern type that
    contains "Bear" and not "Bull" it returns the reference scan with the
    mirrored bear rule.  The entry price is the close of the occurrence's
    bar; no bar left, or no event on any bar, is a failure. *)
Theorem analyze_pattern_performance_is_reference_scan :
  forall data pattern_row ptype target_percent stop_percent,
    (contains "Bull" ptype = true ->
     analyze_pattern_performance data pattern_row ptype target_percent
       stop_percent
     = reference_scan
         (bull_event (close (bar pattern_row)) target_percent stop_percent)
         (bars_after data (name pattern_row)))
    /\ (contains "Bull" ptype = false -> contains "Bear" ptype = true ->
        analyze_pattern_performance data pattern_row ptype target_percent
          stop_percent
        = reference_scan
            (bear_event (close (bar pattern_row)) target_percent
               stop_percent)
            (bars_after data (name pattern_row))).
Proof.
  intros data pattern_row ptype target_percent stop_percent.
  unfold analyze_pattern_performance, analyze_pattern_performance_walk,
    bars_after.
  rewrite Nat.add_1_r.
  split.
  - intros ->.
    destruct (skipn (S (name pattern_row)) data) as [|row rest] eqn:E;
      [reflexivity|].
    apply bull_walk_reference; reflexivity.
  - intros -> ->.
    destruct (skipn (S (name pattern_row)) data) as [|row rest] eqn:E;
      [reflexivity|].
    apply bear_walk_reference; reflexivity.
Qed.

Lemma analyze_pattern_performance_is_reference_scan_witness :
  contains "Bull" "L_Bull" = true
  /\ analyze_pattern_performance demo_rows (demo_row 3) "L_Bull" 3 1
     = reference_scan (bull_event (close (bar (demo_row 3))) 3 1)
         (bars_after demo_rows (name (demo_row 3)))
  /\ contains "Bull" "L_Bear" = false
  /\ contains "Bear" "L_Bear" = true
  /\ analyze_pattern_performance demo_rows (demo_row 3) "L_Bear" 3 1
     = reference_scan (bear_event (close (bar (demo_row 3))) 3 1)
         (bars_after demo_rows (name (demo_row 3))).
Proof.
  split; [reflexivity|].
  split;
    [apply (proj1 (analyze_pattern_performance_is_reference_scan
                     demo_rows (demo_row 3) "L_Bull" 3 1)); reflexivity|].
  split; [reflexivity|].
  split; [reflexivity|].
  apply (proj2 (analyze_pattern_performance_is_reference_scan
                  demo_rows (demo_row 3) "L_Bear" 3 1)); reflexivity.
Defined.

(** Entry 100, target 5, stop 2: a low of 99 and then a high of 106 is a
    success; a low of 97 on a bar whose high is 106 is a failure. *)
Example reference_scan_target_after_quiet_bar :
  reference_scan (bull_event 100 5 2)
    [flat_bar 1 100 99 100 ""; flat_bar 2 106 100 105 ""] = true.
Proof. reflexivity. Qed.

Example reference_scan_stop_before_target :
  reference_scan (bull_event 100 5 2) [flat_bar 1 106 97 100 ""] = false.
Proof. reflexivity. Qed.

(** C9.  A pattern type that contains neither "Bull" nor "Bear" makes the
    simulator return False without looking at any future bar; the
    simulator is a total function, so nothing is raised. *)
Theorem analyze_pattern_performance_other_type :
  forall data pattern_row ptype target_percent stop_percent,
    contains "Bull" ptype = false ->
    contains "Bear" ptype = false ->
    analyze_pattern_performance_walk data pattern_row ptype target_percent
      stop_percent = (false, 0)
    /\ analyze_pattern_performance data pattern_row ptype target_percent
         stop_percent = false.
Proof.
  intros data pattern_row ptype target_percent stop_percent Hbull Hbear.
  unfold analyze_pattern_performance, analyze_pattern_performance_walk.
  rewrite Hbull, Hbear.
  destruct (skipn (name pattern_row + 1) data); split; reflexivity.
Qed.

Lemma analyze_pattern_performance_other_type_witness :
  contains "Bull" "" = false
  /\ contains "Bear" "" = false
  /\ analyze_pattern_performance_walk demo_rows (demo_row 3) "" 3 1
     = (false, 0)
  /\ analyze_pattern_performance demo_rows (demo_row 3) "" 3 1 = false.
Proof.
  split; [reflexivity|]. split; [reflexivity|].
  apply (analyze_pattern_performance_other_type demo_rows (demo_row 3) ""
           3 1); reflexivity.
Defined.

(** ** The classifier *)

Lemma py_div_nonzero (x y : Q) : ~ (y == 0)%Q -> py_div x y = Ok (x / y)%Q.
Proof.
  intro H. unfold py_div.
  destruct (Qeq_bool y 0) eqn:E; [|reflexivity].
  apply Qeq_bool_iff in E. contradiction.
Qed.

Lemma level_qualifies_nonzero price time p lv :
  ~ (price == 0)%Q ->
  level_qualifies price time p lv = Ok (qualifies price time p lv).
Proof.
  intro H. destruct lv as [level level_time].
  unfold level_qualifies, relative_distance_below, qualifies.
  destruct (Qeq_bool price 0) eqn:E; [|reflexivity].
  apply Qeq_bool_iff in E. contradiction.
Qed.

(** The loop condition is a value for every price, zero included. *)
Lemma level_qualifies_total price time p lv :
  exists q, level_qualifies price time p lv = Ok q.
Proof. destruct lv as [level level_time]. eexists. reflexivity. Qed.

(** At a zero price no level qualifies. *)
Lemma level_qualifies_zero price time p lv :
  (price == 0)%Q -> level_qualifies price time p lv = Ok false.
Proof.
  intro H. destruct lv as [level level_time].
  unfold level_qualifies, relative_distance_below.
  apply Qeq_bool_iff in H. rewrite H. reflexivity.
Qed.

(** A level qualifies only when it was formed strictly before. *)
Lemma level_qualifies_earlier price time p lv :
  level_qualifies price time p lv = Ok true -> (snd lv < time)%Z.
Proof.
  destruct lv as [level level_time]. unfold level_qualifies.
  intro H. injection H as H. apply andb_true_iff in H.
  apply Z.ltb_lt. apply H.
Qed.

Lemma levels_loop_inv price time p hit :
  forall levels results results',
    levels_loop price time p hit levels results = Ok results' ->
    (results' = results
     /\ Forall (fun lv => level_qualifies price time p lv = Ok false) levels)
    \/ (results' = hit results
        /\ exists lv, In lv levels
                      /\ level_qualifies price time p lv = Ok true).
Proof.
  induction levels as [|lv levels IH]; intros results results' H; simpl in H.
  - injection H as <-. left. split; [reflexivity|constructor].
  - destruct (level_qualifies price time p lv) as [[|]|e] eqn:E;
      simpl in H; [| |discriminate].
    + injection H as <-. right. split; [reflexivity|].
      exists lv. split; [left; reflexivity|assumption].
    + destruct (IH _ _ H) as [[-> Hall]|[-> (lv' & Hin & Hq)]].
      * left. split; [reflexivity|constructor; assumption].
      * right. split; [reflexivity|].
        exists lv'. split; [right; assumption|assumption].
Qed.

(** Neither loop of [check_pattern_levels] raises. *)
Lemma levels_loop_total price time p hit :
  forall levels results,
    exists results', levels_loop price time p hit levels results = Ok results'.
Proof.
  induction levels as [|lv levels IH]; intro results; simpl.
  - eexists. reflexivity.
  - destruct (level_qualifies_total price time p lv) as [q ->]. simpl.
    destruct q; [eexists; reflexivity|apply IH].
Qed.

Lemma check_pattern_levels_total price time supports resistances p :
  exists results,
    check_pattern_levels price time supports resistances p = Ok results.
Proof.
  unfold check_pattern_levels.
  destruct (levels_loop_total price time p near_support supports
              (mkCheck false false false false)) as [r ->].
  simpl. apply levels_loop_total.
Qed.

(** At a zero price both loops run to their end and no flag is set. *)
Lemma levels_loop_zero price time p hit :
  (price == 0)%Q ->
  forall levels results,
    levels_loop price time p hit levels results = Ok results.
Proof.
  intro Hp. induction levels as [|lv levels IH]; intro results; simpl.
  - reflexivity.
  - rewrite level_qualifies_zero by assumption. simpl. apply IH.
Qed.

Lemma check_pattern_levels_zero price time supports resistances p :
  (price == 0)%Q ->
  check_pattern_levels price time supports resistances p
  = Ok (mkCheck false false false false).
Proof.
  intro Hp. unfold check_pattern_levels.
  rewrite levels_loop_zero by assumption. simpl.
  apply levels_loop_zero. assumption.
Qed.

(** For a nonzero price the loop stops at the first qualifying level. *)
Lemma levels_loop_first price time p hit :
  ~ (price == 0)%Q ->
  forall levels results,
    levels_loop price time p hit levels results
    = Ok (if near price time p levels then hit results else results).
Proof.
  intros Hp. unfold near, first_qualifying.
  induction levels as [|lv levels IH]; intro results; simpl.
  - reflexivity.
  - rewrite level_qualifies_nonzero by assumption. simpl.
    destruct (qualifies price time p lv); [reflexivity|apply IH].
Qed.

Lemma find_first {A : Type} (f : A -> bool) :
  forall l x,
    find f l = Some x ->
    exists before rest,
      l = before ++ x :: rest
      /\ f x = true
      /\ Forall (fun y => f y = false) before.
Proof.
  induction l as [|y l IH]; intros x H; simpl in H; [discriminate|].
  destruct (f y) eqn:E.
  - injection H as <-. exists [], l. repeat split; auto.
  - destruct (IH x H) as (before & rest & -> & Hx & Hall).
    exists (y :: before), rest. repeat split; auto.
Qed.

Lemma check_pattern_levels_nonzero price time supports resistances p :
  ~ (price == 0)%Q ->
  check_pattern_levels price time supports resistances p
  = Ok (mkCheck (near price time p supports) (near price time p resistances)
          (near price time p resistances) (near price time p supports)).
Proof.
  intro Hp. unfold check_pattern_levels.
  rewrite levels_loop_first by assumption. simpl.
  rewrite levels_loop_first by assumption.
  destruct (near price time p supports), (near price time p resistances);
    reflexivity.
Qed.

(** C5.  A level counts as near an occurrence only if it was formed
    strictly before the occurrence: the loop condition holds for no level
    whose formation time is the occurrence's time or later, a flag of
    [check_pattern_levels] is set only when its level set holds a
    qualifying, strictly earlier level, and an occurrence whose time equals
    the formation time of every level is near none. *)
Theorem check_pattern_levels_causal :
  forall price time p,
    (forall lv, level_qualifies price time p lv = Ok true ->
                (snd lv < time)%Z)
    /\ (forall level, level_qualifies price time p (level, time) <> Ok true)
    /\ (forall supports resistances results,
          check_pattern_levels price time supports resistances p
          = Ok results ->
          (standard_bull results = true \/ logical_bear results = true ->
           exists lv, In lv supports
                      /\ level_qualifies price time p lv = Ok true
                      /\ (snd lv < time)%Z)
          /\ (standard_bear results = true \/ logical_bull results = true ->
              exists lv, In lv resistances
                         /\ level_qualifies price time p lv = Ok true
                         /\ (snd lv < time)%Z))
    /\ (forall supports resistances results,
          Forall (fun lv => (time <= snd lv)%Z) (supports ++ resistances) ->
          check_pattern_levels price time supports resistances p
          = Ok results ->
          results = mkCheck false false false false).
Proof.
  intros price time p.
  assert (Hq : forall lv, level_qualifies price time p lv = Ok true ->
                          (snd lv < time)%Z)
    by (intro lv; apply level_qualifies_earlier).
  assert (Hchk : forall supports resistances results,
             check_pattern_levels price time supports resistances p
             = Ok results ->
             (standard_bull results = true \/ logical_bear results = true ->
              exists lv, In lv supports
                         /\ level_qualifies price time p lv = Ok true
                         /\ (snd lv < time)%Z)
             /\ (standard_bear results = true
                 \/ logical_bull results = true ->
                 exists lv, In lv resistances
                            /\ level_qualifies price time p lv = Ok true
                            /\ (snd lv < time)%Z)).
  { intros supports resistances results H.
    unfold check_pattern_levels in H.
    destruct (levels_loop price time p near_support supports
                (mkCheck false false false false)) as [r1|e] eqn:E1;
      simpl in H; [|discriminate].
    apply levels_loop_inv in E1. apply levels_loop_inv in H.
    split.
    - intro Hflag.
      destruct E1 as [[-> _]|[_ (lv & Hin & Hlv)]].
      + destruct H as [[-> _]|[-> _]]; simpl in Hflag;
          destruct Hflag; discriminate.
      + exists lv. auto.
    - intro Hflag.
      destruct H as [[-> _]|[_ (lv & Hin & Hlv)]].
      + destruct E1 as [[-> _]|[-> _]]; simpl in Hflag;
          destruct Hflag; discriminate.
      + exists lv. auto. }
  split; [exact Hq|]. split; [|split; [exact Hchk|]].
  - intros level H. apply Hq in H. simpl in H. lia.
  - intros supports resistances results Hall H.
    destruct (Hchk _ _ _ H) as [Hs Hr].
    rewrite Forall_forall in Hall.
    destruct results as [sb sr lb lr]; simpl in Hs, Hr.
    assert (Hsb : sb = false /\ lr = false).
    { destruct sb, lr; auto;
        (destruct Hs as (lv & Hin & _ & Hlt); [auto|];
         specialize (Hall lv (in_or_app _ _ _ (or_introl Hin))); lia). }
    assert (Hsr : sr = false /\ lb = false).
    { destruct sr, lb; auto;
        (destruct Hr as (lv & Hin & _ & Hlt); [auto|];
         specialize (Hall lv (in_or_app _ _ _ (or_intror Hin))); lia). }
    destruct Hsb as [-> ->], Hsr as [-> ->]. reflexivity.
Qed.

Lemma check_pattern_levels_causal_witness :
  level_qualifies 810 3 2 (800%Q, 1%Z) = Ok true
  /\ (snd (800%Q, 1%Z) < 3)%Z
  /\ check_pattern_levels 810 3 [(800%Q, 3%Z)] [(810%Q, 3%Z)] 2
     = Ok (mkCheck false false false false).
Proof.
  split; [reflexivity|].
  split.
  - apply (proj1 (check_pattern_levels_causal 810 3 2) (800%Q, 1%Z)).
    reflexivity.
  - reflexivity.
Defined.

Lemma mark_injective label b c c' : mark label b c = mark label b c' -> c = c'.
Proof. destruct c, c'; simpl; intro H; try reflexivity; discriminate. Qed.

Lemma classify_row_without_pattern supports resistances p label b :
  truthy (candlestick_pattern b) = false ->
  classify_row supports resistances p label b = Ok (mark label b NoCategory).
Proof. intro H. unfold classify_row. rewrite H. reflexivity. Qed.

(** C6.  A pattern occurrence gets exactly one category, chosen in the
    order standard (bullish near support or bearish near resistance),
    logical_bull (bullish near resistance), logical_bear (bearish near
    support), none.  Near a level set means that the set has a first
    level, in iteration order, that was formed before the occurrence and
    lies at a relative distance |price - level| / price strictly below
    p/100; the levels before it do not qualify and the ones after it are
    not looked at, however close they are. *)
Theorem classify_row_priority :
  forall supports resistances p label b,
    nonzero_close b ->
    truthy (candlestick_pattern b) = true ->
    classify_row supports resistances p label b
    = Ok (mark label b
            (category_by_priority
               (contains "_Bull" (candlestick_pattern b))
               (contains "_Bear" (candlestick_pattern b))
               (near (close b) (time b) p supports)
               (near (close b) (time b) p resistances)))
    /\ (forall c c', mark label b c = mark label b c' -> c = c')
    /\ (forall levels,
          near (close b) (time b) p levels = true
          <-> exists before lv rest,
                levels = before ++ lv :: rest
                /\ (Qabs (close b - fst lv) / close b < p / 100)%Q
                /\ (snd lv < time b)%Z
                /\ Forall (fun x => qualifies (close b) (time b) p x = false)
                     before)
    /\ (forall hit levels results,
          levels_loop (close b) (time b) p hit levels results
          = Ok (if near (close b) (time b) p levels
                then hit results else results)).
Proof.
  intros supports resistances p label b Hnz Hpat.
  split; [|split; [|split]].
  - unfold classify_row. rewrite Hpat.
    rewrite check_pattern_levels_nonzero by exact Hnz. simpl.
    unfold category_by_priority.
    destruct (contains "_Bull" (candlestick_pattern b)),
      (contains "_Bear" (candlestick_pattern b)),
      (near (close b) (time b) p supports),
      (near (close b) (time b) p resistances); reflexivity.
  - intros c c'. apply mark_injective.
  - intro levels. unfold near, first_qualifying. split.
    + destruct (find _ levels) as [lv|] eqn:E; [|discriminate]. intros _.
      destruct (find_first _ _ _ E) as (before & rest & Hl & Hq & Hall).
      exists before, lv, rest. split; [assumption|].
      unfold qualifies in Hq. apply andb_true_iff in Hq.
      destruct Hq as [Hd Ht].
      split; [apply Qlt_bool_iff; assumption|].
      split; [apply Z.ltb_lt; assumption|assumption].
    + intros (before & lv & rest & -> & Hd & Ht & Hall).
      assert (Hq : qualifies (close b) (time b) p lv = true).
      { unfold qualifies. apply andb_true_iff.
        split; [apply Qlt_bool_iff; assumption|apply Z.ltb_lt; assumption]. }
      clear Hd Ht. induction Hall as [|x before Hx Hall IH]; simpl.
      * rewrite Hq. reflexivity.
      * rewrite Hx. exact IH.
  - intros hit levels results. apply levels_loop_first. exact Hnz.
Qed.

Lemma classify_row_priority_witness :
  nonzero_close (nth 3 demo_series default_bar)
  /\ truthy (candlestick_pattern (nth 3 demo_series default_bar)) = true
  /\ classify_row [(800%Q, 1%Z); (810%Q, 2%Z)] [(1000%Q, 2%Z)] 2 3
       (nth 3 demo_series default_bar)
     = Ok (mark 3 (nth 3 demo_series default_bar) Standard).
Proof.
  assert (Hnz : nonzero_close (nth 3 demo_series default_bar))
    by (intro H; discriminate H).
  split; [exact Hnz|]. split; [reflexivity|].
  exact (proj1 (classify_row_priority [(800%Q, 1%Z); (810%Q, 2%Z)]
                  [(1000%Q, 2%Z)] 2 3 (nth 3 demo_series default_bar)
                  Hnz eq_refl)).
Defined.

(** The first qualifying level wins although a later one is nearer:
    800 is taken for a price of 810 while 810 itself comes second. *)
Example first_qualifying_not_nearest :
  first_qualifying 810 3 2 [(800%Q, 1%Z); (810%Q, 2%Z)] = Some (800%Q, 1%Z).
Proof. reflexivity. Qed.

(** ** The accuracy aggregator *)

Lemma sum_present_spec :
  forall items total_success total_patterns,
    counters_consistent items ->
    sum_present items total_success total_patterns
    = (total_success + sum_success items, total_patterns + sum_total items).
Proof.
  induction items as [|[k stats] items IH];
    intros total_success total_patterns Hc; simpl.
  - rewrite !Nat.add_0_r. reflexivity.
  - inversion Hc as [|? ? Hle Hrest]; subst. simpl in Hle.
    destruct (0 <? total stats) eqn:E.
    + rewrite IH by assumption. f_equal; lia.
    + apply Nat.ltb_ge in E. rewrite IH by assumption. f_equal; lia.
Qed.

(** The sum of the totals does not depend on the success counters. *)
Lemma sum_present_total :
  forall items total_success total_patterns,
    snd (sum_present items total_success total_patterns)
    = total_patterns + sum_total items.
Proof.
  induction items as [|[k stats] items IH];
    intros total_success total_patterns; simpl.
  - lia.
  - destruct (0 <? total stats) eqn:E; rewrite IH.
    + lia.
    + apply Nat.ltb_ge in E. lia.
Qed.

Lemma Qnat_nonzero (n : nat) : 0 < n -> ~ (Qnat n == 0)%Q.
Proof.
  intros Hn H. unfold Qnat, Qeq in H. simpl in H. lia.
Qed.

(** C7.  For a statistics table whose counters are consistent: when the
    sum of the totals reaches MIN_PREDICTIONS_COUNT the accuracy is
    (sum of successes / sum of totals) * 100, otherwise it is 0; no
    division by zero is raised, and the sum of the totals is returned
    unchanged in both cases. *)
Theorem calculate_average_accuracy_spec :
  forall pattern_stats,
    counters_consistent pattern_stats ->
    (MIN_PREDICTIONS_COUNT <= sum_total pattern_stats ->
     calculate_average_accuracy pattern_stats
     = Ok ((Qnat (sum_success pattern_stats)
            / Qnat (sum_total pattern_stats) * 100)%Q,
           sum_total pattern_stats))
    /\ (sum_total pattern_stats < MIN_PREDICTIONS_COUNT ->
        calculate_average_accuracy pattern_stats
        = Ok (0%Q, sum_total pattern_stats))
    /\ exists accuracy,
         calculate_average_accuracy pattern_stats
         = Ok (accuracy, sum_total pattern_stats).
Proof.
  intros pattern_stats Hc.
  assert (Hge : MIN_PREDICTIONS_COUNT <= sum_total pattern_stats ->
                calculate_average_accuracy pattern_stats
                = Ok ((Qnat (sum_success pattern_stats)
                       / Qnat (sum_total pattern_stats) * 100)%Q,
                      sum_total pattern_stats)).
  { intro H. unfold calculate_average_accuracy.
    rewrite sum_present_spec by assumption. rewrite !Nat.add_0_l.
    cbv beta iota.
    apply Nat.leb_le in H. rewrite H.
    apply Nat.leb_le in H. unfold MIN_PREDICTIONS_COUNT in H.
    rewrite py_div_nonzero by (apply Qnat_nonzero; lia).
    reflexivity. }
  assert (Hlt : sum_total pattern_stats < MIN_PREDICTIONS_COUNT ->
                calculate_average_accuracy pattern_stats
                = Ok (0%Q, sum_total pattern_stats)).
  { intro H. unfold calculate_average_accuracy.
    rewrite sum_present_spec by assumption. rewrite !Nat.add_0_l.
    cbv beta iota.
    apply Nat.leb_gt in H. rewrite H. reflexivity. }
  split; [exact Hge|]. split; [exact Hlt|].
  destruct (Nat.le_gt_cases MIN_PREDICTIONS_COUNT (sum_total pattern_stats))
    as [H|H].
  - eexists. apply Hge. exact H.
  - eexists. apply Hlt. exact H.
Qed.

Lemma calculate_average_accuracy_spec_witness :
  counters_consistent (table (mkStats 2 2) (mkStats 0 0) (mkStats 0 0)
                         (mkStats 0 0))
  /\ calculate_average_accuracy
       (table (mkStats 2 2) (mkStats 0 0) (mkStats 0 0) (mkStats 0 0))
     = Ok (0%Q, 2)
  /\ counters_consistent (table (mkStats 2 1) (mkStats 0 0) (mkStats 2 2)
                            (mkStats 0 0))
  /\ calculate_average_accuracy
       (table (mkStats 2 1) (mkStats 0 0) (mkStats 2 2) (mkStats 0 0))
     = Ok ((Qnat 3 / Qnat 4 * 100)%Q, 4).
Proof.
  assert (H1 : counters_consistent
                 (table (mkStats 2 2) (mkStats 0 0) (mkStats 0 0)
                    (mkStats 0 0)))
    by (repeat constructor).
  assert (H2 : counters_consistent
                 (table (mkStats 2 1) (mkStats 0 0) (mkStats 2 2)
                    (mkStats 0 0)))
    by (repeat constructor).
  split; [exact H1|].
  split.
  - apply (proj1 (proj2 (calculate_average_accuracy_spec _ H1))).
    unfold MIN_PREDICTIONS_COUNT. simpl. lia.
  - split; [exact H2|].
    apply (proj1 (calculate_average_accuracy_spec _ H2)).
    unfold MIN_PREDICTIONS_COUNT. simpl. lia.
Defined.

(** ** Counting the selected rows *)

Lemma stats_eq (a b : Stats) :
  total a = total b -> success a = success b -> a = b.
Proof. destruct a, b; simpl; intros -> ->; reflexivity. Qed.

Lemma tally_row_table frame target_percent stop_percent row a b c d :
  In (stats_key row) four_keys ->
  tally_row frame target_percent stop_percent row (table a b c d)
  = Ok (table
          (plus_stats a (tally "Bull" frame target_percent stop_percent [row]))
          (plus_stats b (tally "Bear" frame target_percent stop_percent [row]))
          (plus_stats c
             (tally "L_Bull" frame target_percent stop_percent [row]))
          (plus_stats d
             (tally "L_Bear" frame target_percent stop_percent [row]))).
Proof.
  intros [H|[H|[H|[H|[]]]]];
    unfold tally_row, add_total, add_success, tally, plus_stats;
    cbn [filter]; rewrite <- H; simpl;
    destruct (analyze_pattern_performance frame row _ target_percent
                stop_percent);
    simpl; unfold table; repeat f_equal;
    try (apply stats_eq; simpl; lia); lia.
Qed.

Lemma tally_cons k frame target_percent stop_percent row rows :
  tally k frame target_percent stop_percent (row :: rows)
  = plus_stats (tally k frame target_percent stop_percent [row])
      (tally k frame target_percent stop_percent rows).
Proof.
  unfold tally, plus_stats. cbn [filter].
  destruct (String.eqb (stats_key row) k); simpl;
    [destruct (analyze_pattern_performance frame row (stats_key row)
                 target_percent stop_percent)|];
    reflexivity.
Qed.

Lemma plus_stats_assoc a b c :
  plus_stats (plus_stats a b) c = plus_stats a (plus_stats b c).
Proof. apply stats_eq; simpl; lia. Qed.

Lemma plus_stats_zero a : plus_stats (mkStats 0 0) a = a.
Proof. apply stats_eq; simpl; lia. Qed.

(** The loop over [pattern_data] adds, to every category, the tally of
    the rows; it raises nothing when every row has one of the four keys. *)
Lemma tally_rows_table frame target_percent stop_percent :
  forall rows a b c d,
    Forall (fun row => In (stats_key row) four_keys) rows ->
    for_each rows (tally_row frame target_percent stop_percent)
      (table a b c d)
    = Ok (table
            (plus_stats a (tally "Bull" frame target_percent stop_percent rows))
            (plus_stats b (tally "Bear" frame target_percent stop_percent rows))
            (plus_stats c
               (tally "L_Bull" frame target_percent stop_percent rows))
            (plus_stats d
               (tally "L_Bear" frame target_percent stop_percent rows))).
Proof.
  induction rows as [|row rows IH]; intros a b c d Hall.
  - simpl. unfold table. repeat f_equal; apply stats_eq; simpl; lia.
  - inversion Hall as [|? ? Hrow Hrows]; subst.
    cbn [for_each]. rewrite tally_row_table by assumption.
    cbn [bind]. rewrite IH by assumption.
    rewrite !plus_stats_assoc, <- !tally_cons. reflexivity.
Qed.

Lemma key_count_total frame target_percent stop_percent :
  forall rows,
    Forall (fun row => In (stats_key row) four_keys) rows ->
    total (tally "Bull" frame target_percent stop_percent rows)
    + total (tally "Bear" frame target_percent stop_percent rows)
    + total (tally "L_Bull" frame target_percent stop_percent rows)
    + total (tally "L_Bear" frame target_percent stop_percent rows)
    = length rows.
Proof.
  induction rows as [|row rows IH]; intro Hall; [reflexivity|].
  inversion Hall as [|? ? Hrow Hrows]; subst.
  specialize (IH Hrows).
  rewrite (tally_cons "Bull" _ _ _ row rows),
    (tally_cons "Bear" _ _ _ row rows),
    (tally_cons "L_Bull" _ _ _ row rows),
    (tally_cons "L_Bear" _ _ _ row rows).
  unfold plus_stats. cbn [total]. cbn [length]. rewrite <- IH.
  destruct Hrow as [H|[H|[H|[H|[]]]]]; unfold tally at 1 3 5 7;
    cbn [filter total]; rewrite <- H; simpl; lia.
Qed.

Lemma tally_consistent k frame target_percent stop_percent rows :
  success (tally k frame target_percent stop_percent rows)
  <= total (tally k frame target_percent stop_percent rows).
Proof.
  induction rows as [|row rows IH]; [simpl; lia|].
  rewrite tally_cons. unfold plus_stats. cbn [total success].
  assert (Hone : success (tally k frame target_percent stop_percent [row])
                 <= total (tally k frame target_percent stop_percent [row])).
  { unfold tally. cbn [filter].
    destruct (String.eqb (stats_key row) k); simpl;
      [destruct (analyze_pattern_performance frame row (stats_key row)
                   target_percent stop_percent)|]; simpl; lia. }
  lia.
Qed.

Lemma Qnat_le (m n : nat) : m <= n -> (Qnat m <= Qnat n)%Q.
Proof. intro H. unfold Qnat, Qle. simpl. lia. Qed.

Lemma Qnat_pos (n : nat) : 0 < n -> (0 < Qnat n)%Q.
Proof. intro H. unfold Qnat, Qlt. simpl. lia. Qed.

Lemma ratio_percent_range (s t : nat) :
  s <= t -> 0 < t ->
  (0 <= Qnat s / Qnat t * 100 /\ Qnat s / Qnat t * 100 <= 100)%Q.
Proof.
  intros Hle Hpos.
  pose proof (Qnat_pos t Hpos) as Ht.
  assert (H0 : (0 <= Qnat s / Qnat t)%Q).
  { apply Qle_shift_div_l; [assumption|].
    rewrite Qmult_0_l. apply (Qnat_le 0 s). lia. }
  assert (H1 : (Qnat s / Qnat t <= 1)%Q).
  { apply Qle_shift_div_r; [assumption|].
    rewrite Qmult_1_l. apply Qnat_le. assumption. }
  split.
  - apply Qmult_le_0_compat; [assumption|discriminate].
  - apply Qle_trans with (1 * 100)%Q; [|discriminate].
    apply Qmult_le_compat_r; [assumption|discriminate].
Qed.

(** The value that the aggregator returns for consistent counters. *)
Lemma calculate_average_accuracy_value pattern_stats :
  counters_consistent pattern_stats ->
  calculate_average_accuracy pattern_stats
  = Ok (if MIN_PREDICTIONS_COUNT <=? sum_total pattern_stats
        then (Qnat (sum_success pattern_stats)
              / Qnat (sum_total pattern_stats) * 100)%Q
        else 0%Q,
        sum_total pattern_stats).
Proof.
  intro Hc. unfold calculate_average_accuracy.
  rewrite sum_present_spec by assumption. rewrite !Nat.add_0_l.
  cbv beta iota.
  destruct (MIN_PREDICTIONS_COUNT <=? sum_total pattern_stats) eqn:E;
    [|reflexivity].
  apply Nat.leb_le in E. unfold MIN_PREDICTIONS_COUNT in E.
  rewrite py_div_nonzero by (apply Qnat_nonzero; lia).
  reflexivity.
Qed.

Lemma sum_success_le_total pattern_stats :
  counters_consistent pattern_stats ->
  sum_success pattern_stats <= sum_total pattern_stats.
Proof.
  induction 1 as [|kv rest Hkv Hrest IH]; simpl; lia.
Qed.

Lemma calculate_average_accuracy_range pattern_stats accuracy predictions :
  counters_consistent pattern_stats ->
  calculate_average_accuracy pattern_stats = Ok (accuracy, predictions) ->
  predictions = sum_total pattern_stats
  /\ (0 <= accuracy)%Q /\ (accuracy <= 100)%Q.
Proof.
  intros Hc H. rewrite calculate_average_accuracy_value in H by assumption.
  destruct (MIN_PREDICTIONS_COUNT <=? sum_total pattern_stats) eqn:E;
    injection H as <- <-; (split; [reflexivity|]).
  - apply Nat.leb_le in E. unfold MIN_PREDICTIONS_COUNT in E.
    apply ratio_percent_range; [|lia].
    apply sum_success_le_total. assumption.
  - split; discriminate.
Qed.

(** ** The classified frame and the per-candle results *)

Lemma classify_row_fields supports resistances p label b row :
  classify_row supports resistances p label b = Ok row ->
  name row = label /\ bar row = b
  /\ (marked row = true -> In (stats_key row) four_keys).
Proof.
  unfold classify_row.
  destruct (truthy (candlestick_pattern b)).
  - destruct (check_pattern_levels _ _ _ _ _) as [cr|e]; simpl;
      [|discriminate].
    destruct (_ || _).
    + intro H. injection H as <-. repeat split.
      intros _. unfold stats_key. simpl.
      destruct (contains "_Bull" (candlestick_pattern b)); simpl; auto.
    + destruct (_ && logical_bull cr).
      * intro H. injection H as <-. repeat split. intros _. simpl. auto.
      * destruct (_ && logical_bear cr); intro H; injection H as <-;
          repeat split; simpl; auto; discriminate.
  - intro H. injection H as <-. repeat split. discriminate.
Qed.

Lemma classify_rows_fields supports resistances p :
  forall data label rows,
    classify_rows supports resistances p label data = Ok rows ->
    Forall (fun row => marked row = true -> In (stats_key row) four_keys)
      rows
    /\ map bar rows = data.
Proof.
  induction data as [|b data IH]; intros label rows H; simpl in H.
  - injection H as <-. split; constructor.
  - destruct (classify_row supports resistances p label b) as [row|e] eqn:E;
      simpl in H; [|discriminate].
    destruct (classify_rows supports resistances p (S label) data)
      as [rest|e] eqn:Er; simpl in H; [|discriminate].
    injection H as <-.
    destruct (classify_row_fields _ _ _ _ _ _ E) as (_ & Hb & Hk).
    destruct (IH _ _ Er) as [Hall Hmap].
    split; [constructor; assumption|]. simpl. congruence.
Qed.

Lemma contains_after (needle s t : string) :
  contains needle t = true -> contains needle (s ++ t) = true.
Proof.
  intro H. induction s as [|c s IH]; simpl; [assumption|].
  rewrite IH. apply orb_true_r.
Qed.

Lemma prefix_app_self (s t : string) : prefix s (s ++ t) = true.
Proof.
  induction s as [|c s IH]; simpl; [destruct t; reflexivity|].
  destruct (ascii_dec c c) as [_|Hne]; [exact IH|contradiction].
Qed.

Lemma contains_own_prefix (s t : string) : contains s (s ++ t) = true.
Proof.
  assert (Hstep : forall haystack,
             prefix s haystack = true -> contains s haystack = true).
  { intros haystack H. destruct haystack; cbn [contains]; rewrite H;
      reflexivity. }
  apply Hstep. apply prefix_app_self.
Qed.





Lemma selected_rows_keys frame candle :
  Forall (fun row => marked row = true -> In (stats_key row) four_keys)
    frame ->
  Forall (fun row => In (stats_key row) four_keys)
    (selected_rows candle frame).
Proof.
  intro Hall. rewrite Forall_forall in Hall. apply Forall_forall.
  intros row Hin. unfold selected_rows in Hin.
  apply filter_In in Hin. destruct Hin as [Hin _].
  apply filter_In in Hin. destruct Hin as [Hin Hm].
  apply Hall; assumption.
Qed.

Lemma for_each_invariant {A S : Type} (I : S -> Prop)
    (body : A -> S -> result S) :
  forall items s s',
    (forall x t t', In x items -> I t -> body x t = Ok t' -> I t') ->
    I s -> for_each items body s = Ok s' -> I s'.
Proof.
  induction items as [|x items IH]; intros s s' Hstep Hs H; simpl in H.
  - injection H as <-. assumption.
  - destruct (body x s) as [t|e] eqn:E; simpl in H; [|discriminate].
    apply (IH t s'); auto.
    + intros y u u' Hy. apply Hstep. right. assumption.
    + apply (Hstep x s t); auto. left. reflexivity.
Qed.

Lemma dict_set_Forall {V : Type} (P : string * V -> Prop) k v :
  forall d, P (k, v) -> Forall P d -> Forall P (dict_set k v d).
Proof.
  induction d as [|[k' v'] d IH]; intros Hkv Hd; simpl.
  - constructor; [assumption|constructor].
  - inversion Hd as [|? ? Hhead Htail]; subst.
    destruct (String.eqb k' k) eqn:E.
    + apply String.eqb_eq in E. subst k'. constructor; assumption.
    + constructor; [assumption|]. apply IH; assumption.
Qed.

Lemma tally_table_consistent frame target_percent stop_percent rows :
  counters_consistent
    (table (tally "Bull" frame target_percent stop_percent rows)
       (tally "Bear" frame target_percent stop_percent rows)
       (tally "L_Bull" frame target_percent stop_percent rows)
       (tally "L_Bear" frame target_percent stop_percent rows)).
Proof.
  unfold counters_consistent, table.
  repeat constructor; simpl; apply tally_consistent.
Qed.

Lemma candle_step_entries frame target_percent stop_percent candle
    by_candle by_candle' :
  Forall (fun row => marked row = true -> In (stats_key row) four_keys)
    frame ->
  Forall (candle_entry frame target_percent stop_percent) by_candle ->
  candle_step frame (filter marked frame) target_percent stop_percent candle
    by_candle = Ok by_candle' ->
  Forall (candle_entry frame target_percent stop_percent) by_candle'.
Proof.
  intros Hkeys Hall H. unfold candle_step in H.
  fold (selected_rows candle frame) in H.
  pose proof (selected_rows_keys frame candle Hkeys) as Hrows.
  destruct (selected_rows candle frame) as [|row rows] eqn:E.
  - injection H as <-. assumption.
  - change empty_stats
      with (table (mkStats 0 0) (mkStats 0 0) (mkStats 0 0) (mkStats 0 0))
      in H.
    rewrite tally_rows_table in H by assumption.
    cbn [bind] in H. rewrite !plus_stats_zero in H.
    destruct (calculate_average_accuracy _) as [acc|e] eqn:Eacc;
      cbn [bind] in H; [|discriminate].
    injection H as <-.
    apply dict_set_Forall; [|assumption].
    unfold candle_entry. cbn [fst snd pattern_data pattern_stats
                                avg_accuracy total_predictions].
    rewrite E. split; [discriminate|]. split; [reflexivity|].
    split; [reflexivity|]. rewrite Eacc. destruct acc; reflexivity.
Qed.

(** What [process_crypto_data] returns, read against the frame. *)
Lemma process_crypto_data_inv candle_names data order min_touches
    touch_threshold proximity_threshold target_percent stop_percent res :
  process_crypto_data candle_names data order min_touches touch_threshold
    proximity_threshold target_percent stop_percent = Ok res ->
  exists frame,
    working_frame data order min_touches touch_threshold proximity_threshold
    = Ok frame
    /\ find_extreme_levels data order min_touches touch_threshold
       = Ok (support_levels res, resistance_levels res)
    /\ Forall (fun row => marked row = true -> In (stats_key row) four_keys)
         frame
    /\ Forall (candle_entry frame target_percent stop_percent)
         (results_by_candle res).
Proof.
  unfold process_crypto_data, working_frame. intro H.
  destruct (find_extreme_levels data order min_touches touch_threshold)
    as [[supports resistances]|e]; cbn [bind fst snd] in *; [|discriminate].
  destruct (classify_rows supports resistances proximity_threshold 0 data)
    as [frame|e] eqn:Ef; cbn [bind] in *; [|discriminate].
  destruct (classify_rows_fields _ _ _ _ _ _ Ef) as [Hkeys _].
  change (filter (fun row => standard_pattern row || logical_pattern row)
            frame)
    with (filter marked frame) in H.
  destruct (for_each candle_names
              (candle_step frame (filter marked frame) target_percent
                 stop_percent) [])
    as [by_candle|e] eqn:Eb; cbn [bind] in H; [|discriminate].
  injection H as <-. exists frame. cbn.
  repeat split; try assumption.
  refine (for_each_invariant
            (Forall (candle_entry frame target_percent stop_percent))
            _ candle_names [] by_candle _ (Forall_nil _) Eb).
  intros candle t t' _ Ht Hstep.
  exact (candle_step_entries _ _ _ _ _ _ Hkeys Ht Hstep).
Qed.


Lemma sum_total_table a b c d :
  sum_total (table a b c d) = total a + total b + total c + total d.
Proof. unfold sum_total, table. simpl. lia. Qed.

Lemma for_each_total {A S : Type} (body : A -> S -> result S) :
  (forall x s, exists s', body x s = Ok s') ->
  forall items s, exists s', for_each items body s = Ok s'.
Proof.
  intro Hbody. induction items as [|x items IH]; intro s; simpl.
  - eexists. reflexivity.
  - destruct (Hbody x s) as [t ->]. simpl. apply IH.
Qed.

Lemma classify_row_total supports resistances p label b :
  exists row, classify_row supports resistances p label b = Ok row.
Proof.
  unfold classify_row.
  destruct (truthy (candlestick_pattern b)); [|eexists; reflexivity].
  destruct (check_pattern_levels_total (close b) (time b) supports
              resistances p) as [check_results ->].
  cbn [bind].
  destruct (_ || _); [eexists; reflexivity|].
  destruct (_ && _); [eexists; reflexivity|].
  destruct (_ && _); eexists; reflexivity.
Qed.

Lemma classify_rows_total supports resistances p :
  forall data label,
    exists rows, classify_rows supports resistances p label data = Ok rows.
Proof.
  induction data as [|b data IH]; intro label; simpl.
  - eexists. reflexivity.
  - destruct (classify_row_total supports resistances p label b)
      as [row ->].
    destruct (IH (S label)) as [rows ->].
    simpl. eexists. reflexivity.
Qed.

Lemma candle_step_total frame target_percent stop_percent candle by_candle :
  Forall (fun row => marked row = true -> In (stats_key row) four_keys)
    frame ->
  exists by_candle',
    candle_step frame (filter marked frame) target_percent stop_percent
      candle by_candle = Ok by_candle'.
Proof.
  intro Hkeys. unfold candle_step.
  fold (selected_rows candle frame).
  pose proof (selected_rows_keys frame candle Hkeys) as Hrows.
  destruct (selected_rows candle frame) as [|row rows];
    [eexists; reflexivity|].
  change empty_stats
    with (table (mkStats 0 0) (mkStats 0 0) (mkStats 0 0) (mkStats 0 0)).
  rewrite tally_rows_table by assumption. cbn [bind].
  rewrite !plus_stats_zero.
  rewrite calculate_average_accuracy_value
    by apply tally_table_consistent.
  cbn [bind]. eexists. reflexivity.
Qed.

(** With a window of at least one bar the processing of a combination
    returns, whatever the bars hold. *)
Lemma process_crypto_data_total candle_names data order min_touches
    touch_threshold proximity_threshold target_percent stop_percent :
  1 <= order ->
  exists res,
    process_crypto_data candle_names data order min_touches touch_threshold
      proximity_threshold target_percent stop_percent = Ok res.
Proof.
  intros Ho. unfold process_crypto_data.
  destruct (find_extreme_levels_total data order min_touches touch_threshold
              Ho) as [[supports resistances] ->].
  cbn [bind fst snd].
  destruct (classify_rows_total supports resistances proximity_threshold
              data 0) as [frame Hf].
  rewrite Hf. cbn [bind].
  destruct (classify_rows_fields _ _ _ _ _ _ Hf) as [Hkeys _].
  change (filter (fun row => standard_pattern row || logical_pattern row)
            frame)
    with (filter marked frame).
  destruct (for_each_total
              (candle_step frame (filter marked frame) target_percent
                 stop_percent)
              (fun candle by_candle =>
                 candle_step_total frame target_percent stop_percent candle
                   by_candle Hkeys)
              candle_names []) as [by_candle ->].
  cbn [bind]. eexists. reflexivity.
Qed.

(** ** Loops *)

Lemma for_each_app {A S : Type} (body : A -> S -> result S) :
  forall l1 l2 s,
    for_each (l1 ++ l2) body s
    = (s' <- for_each l1 body s ;; for_each l2 body s').
Proof.
  induction l1 as [|x l1 IH]; intros l2 s; simpl; [reflexivity|].
  destruct (body x s) as [t|e]; simpl; [apply IH|reflexivity].
Qed.

Lemma for_each_ext {A S : Type} (body body' : A -> S -> result S) :
  (forall x s, body x s = body' x s) ->
  forall items s, for_each items body s = for_each items body' s.
Proof.
  intro Hext. induction items as [|x items IH]; intro s; simpl;
    [reflexivity|].
  rewrite Hext. destruct (body' x s); simpl; [apply IH|reflexivity].
Qed.

Lemma for_each_map {A B S : Type} (f : A -> B) (body : B -> S -> result S) :
  forall items s,
    for_each (map f items) body s
    = for_each items (fun x => body (f x)) s.
Proof.
  induction items as [|x items IH]; intro s; simpl; [reflexivity|].
  destruct (body (f x) s); simpl; [apply IH|reflexivity].
Qed.

Lemma for_each_flat_map {A B S : Type} (f : A -> list B)
    (body : B -> S -> result S) :
  forall items s,
    for_each (flat_map f items) body s
    = for_each items (fun x => for_each (f x) body) s.
Proof.
  induction items as [|x items IH]; intro s; simpl; [reflexivity|].
  rewrite for_each_app.
  destruct (for_each (f x) body s); simpl; [apply IH|reflexivity].
Qed.

(** A relation that every step respects holds from the start of a loop
    to the step of any item, and from there to the end. *)
Lemma for_each_through {A S : Type} (R : S -> S -> Prop)
    (body : A -> S -> result S) :
  (forall s, R s s) ->
  (forall s t u, R s t -> R t u -> R s u) ->
  (forall x s s', body x s = Ok s' -> R s s') ->
  forall items s s',
    for_each items body s = Ok s' ->
    R s s'
    /\ forall x, In x items ->
         exists t u, R s t /\ body x t = Ok u /\ R u s'.
Proof.
  intros Hrefl Htrans Hstep.
  induction items as [|y items IH]; intros s s' H; simpl in H.
  - injection H as <-. split; [apply Hrefl|]. intros x [].
  - destruct (body y s) as [t|e] eqn:E; simpl in H; [|discriminate].
    destruct (IH _ _ H) as [Hts' Hin].
    pose proof (Hstep _ _ _ E) as Hst.
    split; [eapply Htrans; eassumption|].
    intros x [<-|Hx].
    + exists s, t. repeat split; auto.
    + destruct (Hin x Hx) as (t1 & u & Ht1 & Hb & Hu).
      exists t1, u. repeat split; auto. eapply Htrans; eassumption.
Qed.

(** ** The search engine *)

Section EngineFacts.

Variable candle_names : list string.
Variable render :
  string -> CandleResult -> list Level -> list Level -> Params
  -> result bool.
Variable append_line : list CsvRow -> CsvRow -> result unit.
Variable crypto : list Bar.

Lemma grid_search_flat extrema_orders min_touches_values touch_thresholds
    proximity_thresholds target_percents stop_percents st :
  grid_search candle_names render append_line crypto extrema_orders
    min_touches_values touch_thresholds proximity_thresholds
    target_percents stop_percents st
  = for_each
      (grid extrema_orders min_touches_values touch_thresholds
         proximity_thresholds target_percents stop_percents)
      (combination candle_names render append_line crypto) st.
Proof.
  unfold grid_search, grid.
  rewrite for_each_flat_map. apply for_each_ext. intros eo s1.
  rewrite for_each_flat_map. apply for_each_ext. intros mt s2.
  rewrite for_each_flat_map. apply for_each_ext. intros tt s3.
  rewrite for_each_flat_map. apply for_each_ext. intros lp s4.
  rewrite for_each_flat_map. apply for_each_ext. intros tp s5.
  rewrite for_each_map. reflexivity.
Qed.

Lemma create_and_save_chart_caught candle candle_results supports
    resistances params e :
  kept (avg_accuracy candle_results) (total_predictions candle_results)
  = true ->
  render candle candle_results supports resistances params = Error e ->
  create_and_save_chart render candle candle_results supports resistances
    params = (false, [ChartError candle e]).
Proof.
  intros Hk Hr. unfold create_and_save_chart. rewrite Hk, Hr. reflexivity.
Qed.

(** What one report step does to the state. *)
Lemma report_candle_inv params results candle candle_results st st' :
  report_candle render append_line params results
    (candle, candle_results) st = Ok st' ->
  results_file st'
  = results_file st ++ [csv_row params candle candle_results]
  /\ combination_counter st' = combination_counter st
  /\ stdout_extends st st'
  /\ (kept (avg_accuracy candle_results)
        (total_predictions candle_results) = false ->
      best_accuracy st' = best_accuracy st
      /\ best_params st' = best_params st
      /\ stdout st' = stdout st)
  /\ (kept (avg_accuracy candle_results)
        (total_predictions candle_results) = true ->
      (if Qgt_bool (avg_accuracy candle_results) (best_accuracy st)
       then best_accuracy st' = avg_accuracy candle_results
            /\ best_params st' = Some (candle, params)
       else best_accuracy st' = best_accuracy st
            /\ best_params st' = best_params st)
      /\ forall e,
           render candle candle_results (support_levels results)
             (resistance_levels results) params = Error e ->
           In (ChartError candle e) (stdout st')).
Proof.
  unfold report_candle.
  destruct (append_line _ _) as [u|e]; cbn [bind]; [|discriminate].
  destruct (kept _ _) eqn:Ek.
  - destruct (create_and_save_chart render candle candle_results
                (support_levels results) (resistance_levels results)
                params) as [chart_saved printed] eqn:Ec.
    assert (Hlog : forall e,
               render candle candle_results (support_levels results)
                 (resistance_levels results) params = Error e ->
               In (ChartError candle e) printed).
    { intros e He.
      rewrite (create_and_save_chart_caught _ _ _ _ _ e Ek He) in Ec.
      injection Ec as <- <-. left. reflexivity. }
    destruct (Qgt_bool (avg_accuracy candle_results) (best_accuracy st));
      intro H; injection H as <-; cbn;
      (split; [reflexivity|]); (split; [reflexivity|]);
      (split; [eexists; reflexivity|]);
      (split; [discriminate|]); intros _;
      (split; [split; reflexivity|]);
      intros e He; apply in_or_app; right; apply in_or_app; left;
      apply Hlog; assumption.
  - intro H. injection H as <-. cbn.
    split; [reflexivity|]. split; [reflexivity|].
    split; [exists []; rewrite app_nil_r; reflexivity|].
    split; [auto|discriminate].
Qed.

Lemma report_candle_total params results item st :
  (forall file line, exists u, append_line file line = Ok u) ->
  exists st', report_candle render append_line params results item st
              = Ok st'.
Proof.
  intro Happ. destruct item as [candle candle_results].
  unfold report_candle.
  destruct (Happ (results_file st)
              (csv_row params candle candle_results)) as [u ->].
  cbn [bind].
  destruct (kept _ _); [|eexists; reflexivity].
  destruct (create_and_save_chart _ _ _ _ _ _) as [chart_saved printed].
  destruct (Qgt_bool _ _); eexists; reflexivity.
Qed.

End EngineFacts.

(** ** The best result so far *)

Lemma kept_positive avg predictions :
  kept avg predictions = true -> (0 < avg)%Q.
Proof.
  unfold kept, Qge_bool, MIN_ACCURACY_THRESHOLD. intro H.
  apply andb_true_iff in H. destruct H as [H _].
  apply Qle_bool_iff in H.
  apply Qlt_le_trans with 60%Q; [reflexivity|assumption].
Qed.

Lemma csv_row_fields params candle candle_results :
  csv_candle_name (csv_row params candle candle_results) = candle
  /\ row_params (csv_row params candle candle_results) = params
  /\ csv_avg_accuracy (csv_row params candle candle_results)
     = avg_accuracy candle_results
  /\ kept_row (csv_row params candle candle_results)
     = kept (avg_accuracy candle_results) (total_predictions candle_results).
Proof. destruct params. repeat split. Qed.

(** Appending the line of a result that is not kept. *)
Lemma best_tracks_kept_skip st st' line :
  best_tracks_kept st ->
  results_file st' = results_file st ++ [line] ->
  kept_row line = false ->
  best_accuracy st' = best_accuracy st ->
  best_params st' = best_params st ->
  best_tracks_kept st'.
Proof.
  unfold best_tracks_kept, best_among. intros Hb Hfile Hline Hacc Hpar.
  rewrite Hfile, Hacc, Hpar.
  destruct (best_params st) as [[candle params]|].
  - destruct Hb as (before & r & rest & Hf & Hr & Hc & Hp & Ha & Hbef & Hrest).
    exists before, r, (rest ++ [line]).
    rewrite Hf, <- app_assoc. repeat split; auto.
    intros x Hx Hsel. apply in_app_or in Hx. destruct Hx as [Hx|[<-|[]]].
    + apply Hrest; assumption.
    + congruence.
  - destruct Hb as [H0 Hnone]. split; [assumption|].
    intros r Hr Hsel. apply in_app_or in Hr. destruct Hr as [Hr|[<-|[]]].
    + apply Hnone; assumption.
    + congruence.
Qed.

(** Appending the line of a kept result that beats the best so far. *)
Lemma best_tracks_kept_take st st' line candle params :
  best_tracks_kept st ->
  results_file st' = results_file st ++ [line] ->
  kept_row line = true ->
  csv_candle_name line = candle ->
  row_params line = params ->
  (best_accuracy st < csv_avg_accuracy line)%Q ->
  best_accuracy st' = csv_avg_accuracy line ->
  best_params st' = Some (candle, params) ->
  best_tracks_kept st'.
Proof.
  unfold best_tracks_kept, best_among.
  intros Hb Hfile Hline Hc Hp Hgt Hacc Hpar.
  rewrite Hfile, Hacc, Hpar.
  exists (results_file st), line, []. repeat split; auto.
  - intros x Hx Hsel.
    destruct (best_params st) as [[candle0 params0]|].
    + destruct Hb
        as (before & r & rest & Hf & Hr & _ & _ & Ha & Hbef & Hrest).
      rewrite Hf in Hx. apply in_app_or in Hx.
      destruct Hx as [Hx|[<-|Hx]].
      * apply Qlt_trans with (best_accuracy st); [apply Hbef|]; assumption.
      * rewrite Ha. assumption.
      * apply Qle_lt_trans with (best_accuracy st); [apply Hrest|];
          assumption.
    + destruct Hb as [_ Hnone]. exfalso. apply (Hnone x Hx Hsel).
      apply (kept_positive _ _ Hsel).
  - intros x [].
Qed.

(** Appending the line of a kept result that does not beat it. *)
Lemma best_tracks_kept_tie st st' line :
  best_tracks_kept st ->
  results_file st' = results_file st ++ [line] ->
  kept_row line = true ->
  ~ (best_accuracy st < csv_avg_accuracy line)%Q ->
  best_accuracy st' = best_accuracy st ->
  best_params st' = best_params st ->
  best_tracks_kept st'.
Proof.
  unfold best_tracks_kept, best_among.
  intros Hb Hfile Hline Hngt Hacc Hpar.
  rewrite Hfile, Hacc, Hpar.
  destruct (best_params st) as [[candle params]|].
  - destruct Hb as (before & r & rest & Hf & Hr & Hc & Hp & Ha & Hbef & Hrest).
    exists before, r, (rest ++ [line]).
    rewrite Hf, <- app_assoc. repeat split; auto.
    intros x Hx Hsel. apply in_app_or in Hx. destruct Hx as [Hx|[<-|[]]].
    + apply Hrest; assumption.
    + apply Qnot_lt_le. assumption.
  - destruct Hb as [H0 _]. exfalso. apply Hngt. rewrite H0.
    apply (kept_positive _ _ Hline).
Qed.

Lemma report_candle_tracks render append_line params results item st st' :
  best_tracks_kept st ->
  report_candle render append_line params results item st = Ok st' ->
  best_tracks_kept st'.
Proof.
  destruct item as [candle candle_results]. intros Hb H.
  destruct (report_candle_inv _ _ _ _ _ _ _ _ H)
    as (Hfile & _ & _ & Hskip & Hkept).
  destruct (csv_row_fields params candle candle_results)
    as (Hc & Hp & Ha & Hk).
  destruct (kept (avg_accuracy candle_results)
              (total_predictions candle_results)) eqn:Ek.
  - destruct (Hkept eq_refl) as [Hbest _].
    destruct (Qgt_bool (avg_accuracy candle_results) (best_accuracy st))
      eqn:Eg; destruct Hbest as [Hacc Hpar].
    + apply (best_tracks_kept_take st st' _ candle params Hb Hfile);
        try assumption.
      rewrite Ha. apply Qlt_bool_iff. exact Eg.
    + apply (best_tracks_kept_tie st st' _ Hb Hfile); try assumption.
      rewrite Ha. intro Hlt. apply Qlt_bool_iff in Hlt.
      unfold Qgt_bool in Eg. congruence.
  - destruct (Hskip eq_refl) as (Hacc & Hpar & _).
    apply (best_tracks_kept_skip st st' _ Hb Hfile); assumption.
Qed.

Lemma combination_tracks candle_names render append_line crypto params
    st st' :
  best_tracks_kept st ->
  combination candle_names render append_line crypto params st = Ok st' ->
  best_tracks_kept st'.
Proof.
  intros Hb H. unfold combination in H.
  destruct (process_crypto_data _ _ _ _ _ _ _ _) as [results|e];
    cbn [bind] in H; [|discriminate].
  refine (for_each_invariant best_tracks_kept _ _ _ st' _ _ H).
  - intros item t t' _ Ht Hstep.
    exact (report_candle_tracks _ _ _ _ _ _ _ Ht Hstep).
  - exact Hb.
Qed.

Lemma combinations_track candle_names render append_line crypto :
  forall combos st st',
    best_tracks_kept st ->
    for_each combos (combination candle_names render append_line crypto) st
    = Ok st' ->
    best_tracks_kept st'.
Proof.
  intros combos st st' Hb H.
  refine (for_each_invariant best_tracks_kept _ _ _ st' _ Hb H).
  intros params t t' _ Ht Hstep.
  exact (combination_tracks _ _ _ _ _ _ _ Ht Hstep).
Qed.

Lemma best_tracks_kept_initial : best_tracks_kept initial_search.
Proof.
  unfold best_tracks_kept, best_among. simpl.
  split; [reflexivity|]. intros r [].
Qed.

(** C3 (as amended).  After any prefix of the grid enumeration, and
    after any report step inside a combination, the best-so-far result
    is the kept result (accuracy at least MIN_ACCURACY_THRESHOLD and at
    least MIN_PREDICTIONS_COUNT predictions) with the greatest accuracy
    among the kept results examined so far, the first such result in
    enumeration order when several tie; while no result has been kept
    there is no best result and the best accuracy is 0. *)
Theorem best_so_far_tracks_kept_results :
  forall candle_names render append_line crypto,
    best_tracks_kept initial_search
    /\ (forall params results item st st',
          best_tracks_kept st ->
          report_candle render append_line params results item st
          = Ok st' ->
          best_tracks_kept st'
          /\ results_file st'
             = results_file st ++ [csv_row params (fst item) (snd item)])
    /\ (forall extrema_orders min_touches_values touch_thresholds
               proximity_thresholds target_percents stop_percents
               done rest st,
          grid extrema_orders min_touches_values touch_thresholds
            proximity_thresholds target_percents stop_percents
          = done ++ rest ->
          for_each done
            (combination candle_names render append_line crypto)
            initial_search = Ok st ->
          best_tracks_kept st)
    /\ (forall extrema_orders min_touches_values touch_thresholds
               proximity_thresholds target_percents stop_percents st,
          grid_search candle_names render append_line crypto
            extrema_orders min_touches_values touch_thresholds
            proximity_thresholds target_percents stop_percents
            initial_search = Ok st ->
          best_tracks_kept st).
Proof.
  intros candle_names render append_line crypto.
  split; [exact best_tracks_kept_initial|].
  split; [|split].
  - intros params results item st st' Hb H.
    split; [exact (report_candle_tracks _ _ _ _ _ _ _ Hb H)|].
    destruct item as [candle candle_results].
    apply (report_candle_inv _ _ _ _ _ _ _ _ H).
  - intros extrema_orders min_touches_values touch_thresholds
      proximity_thresholds target_percents stop_percents done rest st _ H.
    exact (combinations_track _ _ _ _ _ _ _ best_tracks_kept_initial H).
  - intros extrema_orders min_touches_values touch_thresholds
      proximity_thresholds target_percents stop_percents st H.
    rewrite grid_search_flat in H.
    exact (combinations_track _ _ _ _ _ _ _ best_tracks_kept_initial H).
Qed.

Lemma best_so_far_tracks_kept_results_witness :
  exists st,
    grid_search ["CDLDOJI"%string] saving_render writable winning_series
      [1] [1] [1%Q] [2%Q] [3%Q] [1%Q; 1%Q] initial_search = Ok st
    /\ best_tracks_kept st.
Proof.
  destruct (grid_search ["CDLDOJI"%string] saving_render writable
              winning_series [1] [1] [1%Q] [2%Q] [3%Q] [1%Q; 1%Q]
              initial_search) as [st|e] eqn:E;
    [|vm_compute in E; discriminate E].
  exists st. split; [reflexivity|].
  exact (proj2 (proj2 (proj2
           (best_so_far_tracks_kept_results ["CDLDOJI"%string] saving_render
              writable winning_series)))
           [1] [1] [1%Q] [2%Q] [3%Q] [1%Q; 1%Q] st E).
Defined.

(** C3 as stated fails: on [demo_series] the only result examined has an
    accuracy of 100/3 with 3 predictions; it is not kept, and the search
    ends with no best result and a best accuracy of 0. *)
Lemma best_so_far_ignores_results_not_kept :
  exists st,
    grid_search ["CDLDOJI"%string] saving_render writable demo_series
      [1] [1] [1%Q] [2%Q] [3%Q] [1%Q] initial_search = Ok st
    /\ best_params st = None
    /\ (exists r, In r (results_file st) /\ (0 < csv_avg_accuracy r)%Q)
    /\ ~ best_tracks_all st.
Proof.
  eexists. split; [vm_compute; reflexivity|].
  split; [reflexivity|].
  split.
  - eexists. split; [left; reflexivity|reflexivity].
  - unfold best_tracks_all, best_among. simpl. intros [_ H].
    apply (H _ (or_introl eq_refl) eq_refl). reflexivity.
Qed.

(** ** The report lines *)

Lemma dict_set_keys_in {V : Type} (k : string) (v : V) :
  forall d k',
    In k' (map fst (dict_set k v d)) <-> k' = k \/ In k' (map fst d).
Proof.
  induction d as [|[k0 v0] d IH]; intro k'; simpl.
  - split; [intros [<-|[]]; auto|intros [->|[]]; auto].
  - destruct (String.eqb k0 k) eqn:E; simpl.
    + apply String.eqb_eq in E. subst k0. split; [auto|].
      intros [->|H]; auto.
    + rewrite IH. tauto.
Qed.

Lemma dict_set_keys_nodup {V : Type} (k : string) (v : V) :
  forall d, NoDup (map fst d) -> NoDup (map fst (dict_set k v d)).
Proof.
  induction d as [|[k0 v0] d IH]; intro Hd; simpl.
  - constructor; [intros []|constructor].
  - inversion Hd as [|? ? Hnotin Hrest]; subst.
    destruct (String.eqb k0 k) eqn:E; simpl.
    + constructor; assumption.
    + constructor; [|apply IH; assumption].
      rewrite dict_set_keys_in. intros [->|H]; [|contradiction].
      rewrite String.eqb_refl in E. discriminate.
Qed.

Lemma candle_step_keys frame target_percent stop_percent candle
    by_candle by_candle' :
  candle_step frame (filter marked frame) target_percent stop_percent candle
    by_candle = Ok by_candle' ->
  (NoDup (map fst by_candle) -> NoDup (map fst by_candle'))
  /\ forall k,
       In k (map fst by_candle')
       <-> In k (map fst by_candle)
           \/ (k = candle /\ selected_rows k frame <> []).
Proof.
  unfold candle_step. fold (selected_rows candle frame).
  destruct (selected_rows candle frame) as [|row rows] eqn:E.
  - intro H. injection H as <-. split; [auto|].
    intro k. split; [auto|]. intros [H|[-> H]]; [assumption|].
    rewrite E in H. contradiction.
  - destruct (for_each _ _ empty_stats) as [stats|e]; cbn [bind];
      [|discriminate].
    destruct (calculate_average_accuracy stats) as [acc|e]; cbn [bind];
      [|discriminate].
    intro H. injection H as <-.
    split; [apply dict_set_keys_nodup|].
    intro k. rewrite dict_set_keys_in. split.
    + intros [->|H]; [right|left; assumption].
      split; [reflexivity|]. rewrite E. discriminate.
    + intros [H|[-> _]]; auto.
Qed.

Lemma candle_loop_keys frame target_percent stop_percent :
  forall names by_candle by_candle',
    for_each names
      (candle_step frame (filter marked frame) target_percent stop_percent)
      by_candle = Ok by_candle' ->
    (NoDup (map fst by_candle) -> NoDup (map fst by_candle'))
    /\ forall k,
         In k (map fst by_candle')
         <-> In k (map fst by_candle)
             \/ (In k names /\ selected_rows k frame <> []).
Proof.
  induction names as [|candle names IH]; intros by_candle by_candle' H;
    simpl in H.
  - injection H as <-. split; [auto|]. intro k. split; [auto|].
    intros [H|[[] _]]. assumption.
  - destruct (candle_step frame (filter marked frame) target_percent
                stop_percent candle by_candle) as [mid|e] eqn:E;
      cbn [bind] in H; [|discriminate].
    destruct (candle_step_keys _ _ _ _ _ _ E) as [Hnd Hin].
    destruct (IH _ _ H) as [Hnd' Hin'].
    split; [auto|].
    intro k. rewrite Hin', Hin. simpl. split.
    + intros [[H1|[-> H1]]|[H1 H2]]; auto.
    + intros [H1|[[<-|H1] H2]]; auto.
Qed.


(** The candle names stored by [process_crypto_data]: each recognised
    name with a selected row, once. *)
Lemma process_crypto_data_keys candle_names data order min_touches
    touch_threshold proximity_threshold target_percent stop_percent res :
  process_crypto_data candle_names data order min_touches touch_threshold
    proximity_threshold target_percent stop_percent = Ok res ->
  exists frame,
    working_frame data order min_touches touch_threshold proximity_threshold
    = Ok frame
    /\ NoDup (map fst (results_by_candle res))
    /\ forall k,
         In k (map fst (results_by_candle res))
         <-> In k candle_names /\ selected_rows k frame <> [].
Proof.
  unfold process_crypto_data, working_frame. intro H.
  destruct (find_extreme_levels data order min_touches touch_threshold)
    as [[supports resistances]|e]; cbn [bind fst snd] in *; [|discriminate].
  destruct (classify_rows supports resistances proximity_threshold 0 data)
    as [frame|e]; cbn [bind] in *; [|discriminate].
  change (filter (fun row => standard_pattern row || logical_pattern row)
            frame)
    with (filter marked frame) in H.
  destruct (for_each candle_names
              (candle_step frame (filter marked frame) target_percent
                 stop_percent) [])
    as [by_candle|e] eqn:Eb; cbn [bind] in H; [|discriminate].
  injection H as <-. exists frame. cbn.
  destruct (candle_loop_keys _ _ _ _ _ _ Eb) as [Hnd Hin].
  split; [reflexivity|]. split; [apply Hnd; constructor|].
  intro k. rewrite Hin. simpl. tauto.
Qed.

(** ** The counters of a candle *)




Section ReportFacts.

Variable candle_names : list string.
Variable render :
  string -> CandleResult -> list Level -> list Level -> Params
  -> result bool.
Variable append_line : list CsvRow -> CsvRow -> result unit.
Variable crypto : list Bar.

Lemma report_loop_rows params results :
  forall items st st',
    for_each items (report_candle render append_line params results) st
    = Ok st' ->
    results_file st'
    = results_file st
      ++ map (fun item => csv_row params (fst item) (snd item)) items
    /\ combination_counter st' = combination_counter st.
Proof.
  induction items as [|[candle candle_results] items IH]; intros st st' H;
    cbn [for_each] in H.
  - injection H as <-. rewrite app_nil_r. split; reflexivity.
  - destruct (report_candle render append_line params results
                (candle, candle_results) st) as [t|e] eqn:E;
      cbn [bind] in H; [|discriminate].
    destruct (report_candle_inv _ _ _ _ _ _ _ _ E) as (Hfile & Hc & _).
    destruct (IH _ _ H) as [Hfile' Hc'].
    rewrite Hfile', Hfile, Hc', Hc, <- app_assoc. split; reflexivity.
Qed.

Lemma combination_rows params st st' :
  combination candle_names render append_line crypto params st = Ok st' ->
  results_file st'
  = results_file st ++ cell_rows candle_names crypto params
  /\ combination_counter st' = S (combination_counter st).
Proof.
  unfold combination, cell_rows, process_with. intro H.
  destruct (process_crypto_data _ _ _ _ _ _ _ _) as [results|e];
    cbn [bind] in H; [|discriminate].
  destruct (report_loop_rows _ _ _ _ _ H) as [Hfile Hc].
  rewrite Hfile, Hc. cbn. split; [reflexivity|lia].
Qed.

Lemma combinations_rows :
  forall combos st st',
    for_each combos (combination candle_names render append_line crypto)
      st = Ok st' ->
    results_file st'
    = results_file st ++ flat_map (cell_rows candle_names crypto) combos
    /\ combination_counter st' = combination_counter st + length combos.
Proof.
  induction combos as [|params combos IH]; intros st st' H;
    cbn [for_each] in H.
  - injection H as <-. simpl. rewrite app_nil_r. split; [reflexivity|lia].
  - destruct (combination candle_names render append_line crypto params
                st) as [t|e] eqn:E; cbn [bind] in H; [|discriminate].
    destruct (combination_rows _ _ _ E) as [Hfile Hc].
    destruct (IH _ _ H) as [Hfile' Hc'].
    rewrite Hfile', Hfile, Hc', Hc. simpl. rewrite <- app_assoc.
    split; [reflexivity|lia].
Qed.


End ReportFacts.



(** A name that only occurs inside the name of another pattern gets its
    row too: on [star_series] no bar carries a CDLDOJI pattern, and the
    combination writes one row for CDLDOJI and one for CDLDOJISTAR, both
    over the same three occurrences. *)
Lemma row_through_longer_name :
  map (fun r => (csv_candle_name r, csv_total_predictions r))
    (cell_rows ["CDLDOJI"%string; "CDLDOJISTAR"%string] star_series
       (mkParams 1 1 1 2 3 1))
  = [("CDLDOJI"%string, 3); ("CDLDOJISTAR"%string, 3)].
Proof. vm_compute. reflexivity. Qed.


(** ** Chart errors and the end of the search *)

Lemma length_flat_map_const {A B : Type} (f : A -> list B) (n : nat) :
  (forall x, length (f x) = n) ->
  forall l, length (flat_map f l) = length l * n.
Proof.
  intro Hf. induction l as [|x l IH]; simpl; [reflexivity|].
  rewrite length_app, Hf, IH. reflexivity.
Qed.

(** The grid has one combination for every choice of the six values. *)
Lemma grid_length extrema_orders min_touches_values touch_thresholds
    proximity_thresholds target_percents stop_percents :
  length (grid extrema_orders min_touches_values touch_thresholds
            proximity_thresholds target_percents stop_percents)
  = length extrema_orders * length min_touches_values
    * length touch_thresholds * length proximity_thresholds
    * length target_percents * length stop_percents.
Proof.
  unfold grid.
  rewrite (length_flat_map_const _
             (length min_touches_values * length touch_thresholds
              * length proximity_thresholds * length target_percents
              * length stop_percents)); [lia|].
  intro eo.
  rewrite (length_flat_map_const _
             (length touch_thresholds * length proximity_thresholds
              * length target_percents * length stop_percents)); [lia|].
  intro mt.
  rewrite (length_flat_map_const _
             (length proximity_thresholds * length target_percents
              * length stop_percents)); [lia|].
  intro tt.
  rewrite (length_flat_map_const _
             (length target_percents * length stop_percents)); [lia|].
  intro lp.
  rewrite (length_flat_map_const _ (length stop_percents)); [lia|].
  intro tp. apply length_map.
Qed.

Lemma grid_extrema_order extrema_orders min_touches_values touch_thresholds
    proximity_thresholds target_percents stop_percents params :
  In params (grid extrema_orders min_touches_values touch_thresholds
               proximity_thresholds target_percents stop_percents) ->
  In (extrema_order params) extrema_orders.
Proof.
  unfold grid. intro H.
  apply in_flat_map in H. destruct H as (eo & Heo & H).
  apply in_flat_map in H. destruct H as (mt & _ & H).
  apply in_flat_map in H. destruct H as (tt & _ & H).
  apply in_flat_map in H. destruct H as (lp & _ & H).
  apply in_flat_map in H. destruct H as (tp & _ & H).
  apply in_map_iff in H. destruct H as (sp & <- & _).
  exact Heo.
Qed.

Lemma stdout_extends_refl st : stdout_extends st st.
Proof. exists []. rewrite app_nil_r. reflexivity. Qed.

Lemma stdout_extends_trans s t u :
  stdout_extends s t -> stdout_extends t u -> stdout_extends s u.
Proof.
  intros [p Hp] [q Hq]. exists (p ++ q).
  rewrite Hq, Hp, app_assoc. reflexivity.
Qed.

Lemma stdout_extends_in s t m :
  stdout_extends s t -> In m (stdout s) -> In m (stdout t).
Proof.
  intros [p Hp] H. rewrite Hp. apply in_or_app. left. assumption.
Qed.

Section SurvivalFacts.

Variable candle_names : list string.
Variable render :
  string -> CandleResult -> list Level -> list Level -> Params
  -> result bool.
Variable append_line : list CsvRow -> CsvRow -> result unit.
Variable crypto : list Bar.

Lemma report_candle_extends params results item st st' :
  report_candle render append_line params results item st = Ok st' ->
  stdout_extends st st'.
Proof.
  destruct item as [candle candle_results]. intro H.
  apply (report_candle_inv _ _ _ _ _ _ _ _ H).
Qed.

(** A chart error of a kept result is on the output once the
    combination is done. *)
Lemma combination_logs params st st' :
  combination candle_names render append_line crypto params st = Ok st' ->
  stdout_extends st st'
  /\ forall res candle candle_results e,
       process_with candle_names crypto params = Ok res ->
       In (candle, candle_results) (results_by_candle res) ->
       kept (avg_accuracy candle_results)
         (total_predictions candle_results) = true ->
       render candle candle_results (support_levels res)
         (resistance_levels res) params = Error e ->
       In (ChartError candle e) (stdout st').
Proof.
  unfold combination, process_with. intro H.
  destruct (process_crypto_data _ _ _ _ _ _ _ _) as [results|e0];
    cbn [bind] in H; [|discriminate].
  destruct (for_each_through stdout_extends
              (report_candle render append_line params results)
              stdout_extends_refl stdout_extends_trans
              (report_candle_extends params results) _ _ _ H)
    as [Hext Hin].
  split; [exact Hext|].
  intros res candle candle_results e Hres Hitem Hkept Hrender.
  injection Hres as <-.
  destruct (Hin _ Hitem) as (t & u & _ & Hstep & Hu).
  apply (stdout_extends_in u st'); [assumption|].
  destruct (report_candle_inv _ _ _ _ _ _ _ _ Hstep)
    as (_ & _ & _ & _ & Hk).
  apply (Hk Hkept). assumption.
Qed.

Lemma combination_total params st :
  (forall file line, exists u, append_line file line = Ok u) ->
  1 <= extrema_order params ->
  exists st',
    combination candle_names render append_line crypto params st = Ok st'.
Proof.
  intros Happ Ho. unfold combination.
  destruct (process_crypto_data_total candle_names crypto
              (extrema_order params) (min_touches params)
              (touch_threshold params) (level_proximity_threshold params)
              (target_percent params) (stop_percent params) Ho)
    as [res ->].
  cbn [bind]. apply for_each_total.
  intros item s. apply report_candle_total. assumption.
Qed.

Lemma combinations_total :
  (forall file line, exists u, append_line file line = Ok u) ->
  forall combos st,
    Forall (fun params => 1 <= extrema_order params) combos ->
    exists st',
      for_each combos (combination candle_names render append_line crypto)
        st = Ok st'.
Proof.
  intros Happ. induction combos as [|params combos IH]; intros st Hall;
    cbn [for_each].
  - eexists. reflexivity.
  - inversion Hall as [|? ? Ho Hrest]; subst.
    destruct (combination_total params st Happ Ho) as [t ->].
    cbn [bind]. apply IH. assumption.
Qed.

Lemma combinations_log :
  forall combos st st',
    for_each combos (combination candle_names render append_line crypto)
      st = Ok st' ->
    forall params res candle candle_results e,
      In params combos ->
      process_with candle_names crypto params = Ok res ->
      In (candle, candle_results) (results_by_candle res) ->
      kept (avg_accuracy candle_results)
        (total_predictions candle_results) = true ->
      render candle candle_results (support_levels res)
        (resistance_levels res) params = Error e ->
      In (ChartError candle e) (stdout st').
Proof.
  intros combos st st' H params res candle candle_results e Hin Hres
    Hitem Hkept Hrender.
  destruct (for_each_through stdout_extends
              (combination candle_names render append_line crypto)
              stdout_extends_refl stdout_extends_trans
              (fun x s s' Hs => proj1 (combination_logs x s s' Hs))
              _ _ _ H) as [_ Hthrough].
  destruct (Hthrough _ Hin) as (t & u & _ & Hstep & Hu).
  apply (stdout_extends_in u st'); [assumption|].
  exact (proj2 (combination_logs _ _ _ Hstep) _ _ _ _ Hres Hitem Hkept
           Hrender).
Qed.

End SurvivalFacts.

(** C8 (as amended).  An error raised while the chart of a kept result
    is produced is caught and printed, and the search goes on: whatever
    the renderer does and whatever the bars hold, when every append to
    the results file succeeds and every extrema_order candidate is at
    least 1, the search processes every combination of the cartesian
    product, writes all their report rows, and its output holds the
    error message of every kept result whose chart raised. *)
Theorem grid_search_survives_chart_errors :
  forall candle_names render append_line crypto extrema_orders
         min_touches_values touch_thresholds proximity_thresholds
         target_percents stop_percents,
    (forall file line, exists u, append_line file line = Ok u) ->
    Forall (fun order => 1 <= order) extrema_orders ->
    exists st,
      grid_search candle_names render append_line crypto extrema_orders
        min_touches_values touch_thresholds proximity_thresholds
        target_percents stop_percents initial_search = Ok st
      /\ combination_counter st
         = length extrema_orders * length min_touches_values
           * length touch_thresholds * length proximity_thresholds
           * length target_percents * length stop_percents
      /\ results_file st
         = flat_map (cell_rows candle_names crypto)
             (grid extrema_orders min_touches_values touch_thresholds
                proximity_thresholds target_percents stop_percents)
      /\ forall params res candle candle_results e,
           In params
             (grid extrema_orders min_touches_values touch_thresholds
                proximity_thresholds target_percents stop_percents) ->
           process_with candle_names crypto params = Ok res ->
           In (candle, candle_results) (results_by_candle res) ->
           kept (avg_accuracy candle_results)
             (total_predictions candle_results) = true ->
           render candle candle_results (support_levels res)
             (resistance_levels res) params = Error e ->
           In (ChartError candle e) (stdout st).
Proof.
  intros candle_names render append_line crypto extrema_orders
    min_touches_values touch_thresholds proximity_thresholds target_percents
    stop_percents Happ Horders.
  assert (Hall : Forall (fun params => 1 <= extrema_order params)
                   (grid extrema_orders min_touches_values touch_thresholds
                      proximity_thresholds target_percents stop_percents)).
  { apply Forall_forall. intros params Hin.
    rewrite Forall_forall in Horders. apply Horders.
    exact (grid_extrema_order _ _ _ _ _ _ _ Hin). }
  destruct (combinations_total candle_names render append_line crypto Happ
              _ initial_search Hall) as [st Hst].
  exists st. rewrite grid_search_flat.
  split; [exact Hst|].
  destruct (combinations_rows _ _ _ _ _ _ _ Hst) as [Hfile Hcount].
  split; [rewrite Hcount, grid_length; reflexivity|].
  split; [exact Hfile|].
  exact (combinations_log _ _ _ _ _ _ _ Hst).
Qed.

Lemma grid_search_survives_chart_errors_witness :
  exists st,
    grid_search ["CDLDOJI"%string] raising_render writable winning_series
      [1] [1] [1%Q] [2%Q] [3%Q] [1%Q; 1%Q] initial_search = Ok st
    /\ combination_counter st = 2
    /\ In (ChartError "CDLDOJI" RenderError) (stdout st).
Proof.
  assert (Hkept : exists res candle_results,
             process_with ["CDLDOJI"%string] winning_series
               (mkParams 1 1 1 2 3 1) = Ok res
             /\ In ("CDLDOJI"%string, candle_results)
                  (results_by_candle res)
             /\ kept (avg_accuracy candle_results)
                  (total_predictions candle_results) = true).
  { eexists. eexists. split; [vm_compute; reflexivity|].
    split; [left; reflexivity|vm_compute; reflexivity]. }
  destruct Hkept as (res & candle_results & Hres & Hin & Hk).
  destruct (grid_search_survives_chart_errors ["CDLDOJI"%string]
              raising_render writable winning_series
              [1] [1] [1%Q] [2%Q] [3%Q] [1%Q; 1%Q]
              (fun file line => ex_intro _ tt eq_refl)
              (Forall_cons 1 (le_n 1) (Forall_nil _)))
    as (st & Hrun & Hcount & _ & Hlog).
  exists st. split; [exact Hrun|]. split; [exact Hcount|].
  apply (Hlog (mkParams 1 1 1 2 3 1) res "CDLDOJI"%string candle_results
           RenderError); try assumption.
  - left. reflexivity.
  - reflexivity.
Defined.

(** C8 as stated fails for the report: the first result on
    [winning_series] is kept, the append of its row raises, nothing
    catches it, and the search stops before the second combination. *)
Lemma grid_search_aborts_on_report_error :
  (exists res candle_results,
     process_with ["CDLDOJI"%string] winning_series (mkParams 1 1 1 2 3 1)
     = Ok res
     /\ In ("CDLDOJI"%string, candle_results) (results_by_candle res)
     /\ kept (avg_accuracy candle_results)
          (total_predictions candle_results) = true)
  /\ grid_search ["CDLDOJI"%string] saving_render unwritable_once
       winning_series [1] [1] [1%Q] [2%Q] [3%Q] [1%Q; 1%Q] initial_search
     = Error OSError
  /\ length (grid [1] [1] [1%Q] [2%Q] [3%Q] [1%Q; 1%Q]) = 2.
Proof.
  split; [|split; [vm_compute; reflexivity|reflexivity]].
  eexists. eexists. split; [vm_compute; reflexivity|].
  split; [left; reflexivity|vm_compute; reflexivity].
Qed.

(** A window of 0 stops the search as well: [argrelextrema] rejects
    it, and nothing around [process_crypto_data] catches the error. *)
Lemma grid_search_aborts_on_zero_window :
  grid_search ["CDLDOJI"%string] saving_render writable winning_series
    [0; 1] [1] [1%Q] [2%Q] [3%Q] [1%Q] initial_search
  = Error ValueError.
Proof. reflexivity. Qed.

(** A bar with a zero close does not stop it: no level qualifies for
    such a bar, and its pattern stays unclassified. *)
Lemma classify_row_zero_close supports resistances p label b :
  (close b == 0)%Q ->
  exists row,
    classify_row supports resistances p label b = Ok row
    /\ marked row = false.
Proof.
  intro Hz. unfold classify_row.
  destruct (truthy (candlestick_pattern b)); [|eexists; split; reflexivity].
  rewrite check_pattern_levels_zero by assumption. cbn.
  rewrite !andb_false_r. eexists. split; reflexivity.
Qed.

(** ** The search with the candidate values of the module *)

Lemma module_grid_size :
  length (grid EXTREMA_ORDER_VALUES MIN_LEVEL_TOUCHES_VALUES
            LEVEL_TOUCH_THRESHOLD_VALUES LEVEL_PROXIMITY_THRESHOLD_VALUES
            TARGET_PERCENT_VALUES STOP_PERCENT_VALUES) = 216.
Proof. rewrite grid_length. reflexivity. Qed.

(** With the module's candidate values the search returns whenever the
    results file can be written. *)
Lemma optimize_parameters_returns candle_names render append_line crypto :
  (forall file line, exists u, append_line file line = Ok u) ->
  exists best,
    optimize_parameters candle_names render append_line crypto = Ok best.
Proof.
  intros Happ. unfold optimize_parameters.
  rewrite grid_search_flat.
  destruct (combinations_total candle_names render append_line crypto Happ
              (grid EXTREMA_ORDER_VALUES MIN_LEVEL_TOUCHES_VALUES
                 LEVEL_TOUCH_THRESHOLD_VALUES LEVEL_PROXIMITY_THRESHOLD_VALUES
                 TARGET_PERCENT_VALUES STOP_PERCENT_VALUES)
              initial_search) as [st ->].
  - apply Forall_forall. intros params Hin.
    apply grid_extrema_order in Hin. unfold EXTREMA_ORDER_VALUES in Hin.
    destruct Hin as [<-|[<-|[<-|[]]]]; lia.
  - cbn [bind]. eexists. reflexivity.
Qed.

(** * Further properties of the code *)

(** ** Levels: errors, short series, spacing, order, touches *)

Lemma find_extreme_levels_indices data order min_touches touch_threshold
    supports resistances :
  find_extreme_levels data order min_touches touch_threshold
  = Ok (supports, resistances) ->
  exists support_idx resistance_idx,
    level_source_indices data order min_touches touch_threshold
    = Ok (support_idx, resistance_idx)
    /\ supports = map (level_of data) support_idx
    /\ resistances = map (level_of data) resistance_idx.
Proof.
  intro H. rewrite find_extreme_levels_sources in H.
  destruct (level_source_indices data order min_touches touch_threshold)
    as [[support_idx resistance_idx]|e]; cbn in H; [|discriminate].
  injection H as <- <-. exists support_idx, resistance_idx.
  repeat split; reflexivity.
Qed.

Lemma no_member_nil {A : Type} (l : list A) :
  (forall x, ~ In x l) -> l = [].
Proof.
  destruct l as [|x l]; [reflexivity|].
  intro H. exfalso. apply (H x). left. reflexivity.
Qed.

(** A window of 0 is refused with ValueError whatever the series; any
    window of at least one bar is accepted; and a series of fewer than
    three bars has no level at all. *)
Theorem find_extreme_levels_window_and_short_series :
  forall data min_touches touch_threshold,
    find_extreme_levels data 0 min_touches touch_threshold
    = Error ValueError
    /\ (forall order,
          1 <= order ->
          exists levels,
            find_extreme_levels data order min_touches touch_threshold
            = Ok levels)
    /\ (forall order,
          1 <= order -> length data < 3 ->
          find_extreme_levels data order min_touches touch_threshold
          = Ok ([], [])).
Proof.
  intros data min_touches touch_threshold.
  split; [reflexivity|]. split.
  - intros order Ho. apply find_extreme_levels_total. assumption.
  - intros order Ho Hshort.
    destruct (find_extreme_levels_total data order min_touches
                touch_threshold Ho) as [[supports resistances] H].
    rewrite H.
    destruct (find_extreme_levels_indices _ _ _ _ _ _ H)
      as (si & ri & Hsrc & -> & ->).
    destruct (level_source_indices_inv _ _ _ _ _ _ Hsrc)
      as (_ & Hsup & Hres).
    assert (Hsi : si = []).
    { apply no_member_nil. intros i Hi. destruct (Hsup i Hi) as [Hlt He].
      pose proof (extremum_at_not_at_ends _ _ _ _ Qlt_bool_irrefl Ho
                    ltac:(rewrite length_map; exact Hlt) He) as HE.
      rewrite length_map in HE. lia. }
    assert (Hri : ri = []).
    { apply no_member_nil. intros i Hi. destruct (Hres i Hi) as [Hlt He].
      pose proof (extremum_at_not_at_ends _ _ _ _ Qgt_bool_irrefl Ho
                    ltac:(rewrite length_map; exact Hlt) He) as HE.
      rewrite length_map in HE. lia. }
    rewrite Hsi, Hri. reflexivity.
Qed.

Lemma find_extreme_levels_window_and_short_series_witness :
  find_extreme_levels [flat_bar 0 1 1 1 ""; flat_bar 1 3 3 3 ""] 5 1 1
  = Ok ([], []).
Proof.
  apply (proj2 (proj2 (find_extreme_levels_window_and_short_series
                         [flat_bar 0 1 1 1 ""; flat_bar 1 3 3 3 ""] 1 1))
           5).
  - lia.
  - simpl. lia.
Defined.

Lemma extremum_pair_excluded a (cmp : Q -> Q -> bool) order i j :
  (forall x y, cmp x y = true -> cmp y x = false) ->
  extremum_at a cmp order i = true ->
  extremum_at a cmp order j = true ->
  i < length a -> j < length a -> i <> j ->
  j <= i + order -> i <= j + order -> False.
Proof.
  intros Hasym Hi Hj Hli Hlj Hne Hup Hdown.
  pose proof (extremum_at_neighbours a cmp order i j Hi Hlj
                ltac:(intro; subst; contradiction) Hup Hdown) as H1.
  pose proof (extremum_at_neighbours a cmp order j i Hj Hli Hne Hdown Hup)
    as H2.
  rewrite (Hasym _ _ H1) in H2. discriminate.
Qed.

Lemma Qlt_bool_asym x y : Qlt_bool x y = true -> Qlt_bool y x = false.
Proof.
  intro H. apply Qlt_bool_iff in H.
  destruct (Qlt_bool y x) eqn:E; [|reflexivity].
  apply Qlt_bool_iff in E. exfalso.
  exact (Qlt_irrefl _ (Qlt_trans _ _ _ H E)).
Qed.

Lemma Qgt_bool_asym x y : Qgt_bool x y = true -> Qgt_bool y x = false.
Proof. unfold Qgt_bool. apply Qlt_bool_asym. Qed.

(** Two support levels, and two resistance levels, always come from bars
    more than [order] positions apart, and no bar gives both a support
    and a resistance level. *)
Theorem level_sources_spaced :
  forall data order min_touches touch_threshold supports resistances,
    find_extreme_levels data order min_touches touch_threshold
    = Ok (supports, resistances) ->
    exists support_idx resistance_idx,
      supports = map (level_of data) support_idx
      /\ resistances = map (level_of data) resistance_idx
      /\ (forall i j, In i support_idx -> In j support_idx -> i < j ->
                      i + order < j)
      /\ (forall i j, In i resistance_idx -> In j resistance_idx -> i < j ->
                      i + order < j)
      /\ (forall i, In i support_idx -> ~ In i resistance_idx).
Proof.
  intros data order min_touches touch_threshold supports resistances Hfind.
  destruct (find_extreme_levels_indices _ _ _ _ _ _ Hfind)
    as (si & ri & Hsrc & -> & ->).
  exists si, ri. split; [reflexivity|]. split; [reflexivity|].
  destruct (level_source_indices_inv _ _ _ _ _ _ Hsrc)
    as (Ho & Hsup & Hres).
  split; [|split].
  - intros i j Hi Hj Hlt.
    destruct (Hsup i Hi) as [Hli Hei]. destruct (Hsup j Hj) as [Hlj Hej].
    destruct (Nat.lt_ge_cases (i + order) j) as [H|H]; [assumption|].
    exfalso.
    apply (extremum_pair_excluded (map close data) Qlt_bool order i j
             Qlt_bool_asym Hei Hej); rewrite ?length_map; lia.
  - intros i j Hi Hj Hlt.
    destruct (Hres i Hi) as [Hli Hei]. destruct (Hres j Hj) as [Hlj Hej].
    destruct (Nat.lt_ge_cases (i + order) j) as [H|H]; [assumption|].
    exfalso.
    apply (extremum_pair_excluded (map close data) Qgt_bool order i j
             Qgt_bool_asym Hei Hej); rewrite ?length_map; lia.
  - intros i Hi Hr.
    destruct (Hsup i Hi) as [Hli Hmin]. destruct (Hres i Hr) as [_ Hmax].
    pose proof (extremum_at_not_at_ends _ _ _ _ Qlt_bool_irrefl Ho
                  ltac:(rewrite length_map; exact Hli) Hmin) as [_ Hlast].
    rewrite length_map in Hlast.
    pose proof (extremum_at_neighbours _ _ _ i (i + 1) Hmin
                  ltac:(rewrite length_map; lia) ltac:(lia) ltac:(lia)
                  ltac:(lia)) as H1.
    pose proof (extremum_at_neighbours _ _ _ i (i + 1) Hmax
                  ltac:(rewrite length_map; lia) ltac:(lia) ltac:(lia)
                  ltac:(lia)) as H2.
    unfold Qgt_bool in H2. rewrite (Qlt_bool_asym _ _ H1) in H2.
    discriminate.
Qed.

Lemma level_sources_spaced_witness :
  exists support_idx resistance_idx,
    [(800%Q, 1%Z); (810%Q, 3%Z); (810%Q, 5%Z); (810%Q, 7%Z)]
    = map (level_of demo_series) support_idx
    /\ [(1000%Q, 2%Z); (1000%Q, 4%Z); (1000%Q, 6%Z)]
       = map (level_of demo_series) resistance_idx
    /\ (forall i j, In i support_idx -> In j support_idx -> i < j ->
                    i + 1 < j).
Proof.
  destruct (level_sources_spaced demo_series 1 1 1 _ _ eq_refl)
    as (si & ri & Hs & Hr & Hsp & _).
  exists si, ri. repeat split; assumption.
Defined.

Lemma nonzero_from_ascending :
  forall results loc,
    StronglySorted lt (nonzero_from loc results).
Proof.
  induction results as [|r results IH]; intro loc; simpl.
  - constructor.
  - destruct r; [|apply IH].
    constructor; [apply IH|].
    apply Forall_forall. intros i Hi.
    apply nonzero_from_spec in Hi. lia.
Qed.

Lemma filter_ascending {A : Type} (R : A -> A -> Prop) (f : A -> bool) :
  forall l, StronglySorted R l -> StronglySorted R (filter f l).
Proof.
  induction 1 as [|x l Hl IH Hx]; simpl; [constructor|].
  destruct (f x); [|assumption].
  constructor; [assumption|].
  rewrite Forall_forall in *. intros y Hy. apply filter_In in Hy.
  apply Hx. apply Hy.
Qed.

(** The levels are listed in the order of their bars: the positions
    behind the supports, and behind the resistances, are strictly
    ascending, so no bar gives the same kind of level twice. *)
Theorem level_sources_in_series_order :
  forall data order min_touches touch_threshold supports resistances,
    find_extreme_levels data order min_touches touch_threshold
    = Ok (supports, resistances) ->
    exists support_idx resistance_idx,
      supports = map (level_of data) support_idx
      /\ resistances = map (level_of data) resistance_idx
      /\ StronglySorted lt support_idx
      /\ StronglySorted lt resistance_idx.
Proof.
  intros data order min_touches touch_threshold supports resistances H.
  destruct (find_extreme_levels_indices _ _ _ _ _ _ H)
    as (si & ri & Hsrc & -> & ->).
  exists si, ri. split; [reflexivity|]. split; [reflexivity|].
  unfold level_source_indices, argrelextrema in Hsrc.
  destruct (boolrelextrema (map close data) Qgt_bool order) as [bmax|e];
    cbn [bind] in Hsrc; [|discriminate].
  destruct (boolrelextrema (map close data) Qlt_bool order) as [bmin|e];
    cbn [bind] in Hsrc; [|discriminate].
  injection Hsrc as <- <-.
  split; apply filter_ascending; apply nonzero_from_ascending.
Qed.

Lemma level_sources_in_series_order_witness :
  exists support_idx resistance_idx,
    [(800%Q, 1%Z); (810%Q, 3%Z); (810%Q, 5%Z); (810%Q, 7%Z)]
    = map (level_of demo_series) support_idx
    /\ [(1000%Q, 2%Z); (1000%Q, 4%Z); (1000%Q, 6%Z)]
       = map (level_of demo_series) resistance_idx
    /\ StronglySorted lt support_idx
    /\ StronglySorted lt resistance_idx.
Proof.
  exact (level_sources_in_series_order demo_series 1 1 1 _ _ eq_refl).
Defined.

(** Every level returned has at least [min_touches] bars whose close is
    within the touch threshold of its price; and asking for more touches
    only removes levels: the levels for a larger [min_touches] are the
    levels for the smaller one that still have enough touches, in the
    same order. *)
Theorem find_extreme_levels_touches :
  forall data order min_touches touch_threshold supports resistances,
    find_extreme_levels data order min_touches touch_threshold
    = Ok (supports, resistances) ->
    (forall lv, In lv (supports ++ resistances) ->
                min_touches <= touch_count data (fst lv) touch_threshold)
    /\ (forall more,
          min_touches <= more ->
          find_extreme_levels data order more touch_threshold
          = Ok (filter (enough_touches data more touch_threshold) supports,
                filter (enough_touches data more touch_threshold)
                  resistances)).
Proof.
  intros data order min_touches touch_threshold supports resistances H.
  unfold find_extreme_levels in *.
  destruct (argrelextrema (map close data) Qgt_bool order) as [max_idx|e];
    cbn [bind] in *; [|discriminate].
  destruct (argrelextrema (map close data) Qlt_bool order) as [min_idx|e];
    cbn [bind] in *; [|discriminate].
  injection H as <- <-. split.
  - intros lv Hin. apply in_app_or in Hin.
    destruct Hin as [Hin|Hin]; apply filter_In in Hin;
      destruct Hin as [_ Hk]; apply Nat.leb_le in Hk; exact Hk.
  - intros more Hmore.
    assert (Himp : forall lv,
               enough_touches data more touch_threshold lv = true ->
               enough_touches data min_touches touch_threshold lv = true).
    { intros lv Hk. unfold enough_touches in *.
      apply Nat.leb_le in Hk. apply Nat.leb_le. lia. }
    rewrite !(filter_filter_weaker _ _ _ Himp). reflexivity.
Qed.

Lemma find_extreme_levels_touches_witness :
  find_extreme_levels demo_series 1 3 1
  = Ok (filter (enough_touches demo_series 3 1)
          [(800%Q, 1%Z); (810%Q, 3%Z); (810%Q, 5%Z); (810%Q, 7%Z)],
        filter (enough_touches demo_series 3 1)
          [(1000%Q, 2%Z); (1000%Q, 4%Z); (1000%Q, 6%Z)]).
Proof.
  apply (proj2 (find_extreme_levels_touches demo_series 1 1 1 _ _ eq_refl)).
  lia.
Defined.

(** ** No level, no result *)

Lemma classify_rows_without_levels p :
  forall data label,
    classify_rows [] [] p label data = Ok (label_rows label data).
Proof.
  induction data as [|b data IH]; intro label; simpl; [reflexivity|].
  unfold classify_row.
  destruct (truthy (candlestick_pattern b)); cbn.
  - rewrite !andb_false_r. cbn. rewrite IH. reflexivity.
  - rewrite IH. reflexivity.
Qed.

Lemma label_rows_unmarked :
  forall data label, filter marked (label_rows label data) = [].
Proof.
  induction data as [|b data IH]; intro label; simpl; [reflexivity|].
  apply IH.
Qed.

Lemma candle_loop_without_patterns frame target_percent stop_percent :
  forall names by_candle,
    for_each names (candle_step frame [] target_percent stop_percent)
      by_candle = Ok by_candle.
Proof.
  induction names as [|candle names IH]; intro by_candle; simpl;
    [reflexivity|apply IH].
Qed.

(** When the detector finds no level, no occurrence is classified and
    the combination has no result for any candle name, whatever the
    bars are; this is the case of every series of fewer than three
    bars. *)
Theorem process_crypto_data_without_levels :
  forall candle_names data order min_touches touch_threshold
         proximity_threshold target_percent stop_percent,
    (find_extreme_levels data order min_touches touch_threshold
     = Ok ([], []) ->
     process_crypto_data candle_names data order min_touches
       touch_threshold proximity_threshold target_percent stop_percent
     = Ok (mkProcessResult [] [] []))
    /\ (1 <= order -> length data < 3 ->
        process_crypto_data candle_names data order min_touches
          touch_threshold proximity_threshold target_percent stop_percent
        = Ok (mkProcessResult [] [] [])).
Proof.
  intros candle_names data order min_touches touch_threshold
    proximity_threshold target_percent stop_percent.
  assert (Hnone : find_extreme_levels data order min_touches touch_threshold
                  = Ok ([], []) ->
                  process_crypto_data candle_names data order min_touches
                    touch_threshold proximity_threshold target_percent
                    stop_percent = Ok (mkProcessResult [] [] [])).
  { intro H. unfold process_crypto_data. rewrite H. cbn [bind fst snd].
    rewrite classify_rows_without_levels. cbn [bind].
    change (filter (fun row => standard_pattern row || logical_pattern row)
              (label_rows 0 data))
      with (filter marked (label_rows 0 data)).
    rewrite label_rows_unmarked, candle_loop_without_patterns.
    reflexivity. }
  split; [exact Hnone|].
  intros Ho Hshort. apply Hnone.
  destruct (find_extreme_levels_total data order min_touches
              touch_threshold Ho) as [[supports resistances] H].
  rewrite H.
  destruct (find_extreme_levels_indices _ _ _ _ _ _ H)
    as (si & ri & Hsrc & -> & ->).
  destruct (level_source_indices_inv _ _ _ _ _ _ Hsrc) as (_ & Hsup & Hres).
  assert (Hsi : si = []).
  { apply no_member_nil. intros i Hi. destruct (Hsup i Hi) as [Hlt He].
    pose proof (extremum_at_not_at_ends _ _ _ _ Qlt_bool_irrefl Ho
                  ltac:(rewrite length_map; exact Hlt) He) as HE.
    rewrite length_map in HE. lia. }
  assert (Hri : ri = []).
  { apply no_member_nil. intros i Hi. destruct (Hres i Hi) as [Hlt He].
    pose proof (extremum_at_not_at_ends _ _ _ _ Qgt_bool_irrefl Ho
                  ltac:(rewrite length_map; exact Hlt) He) as HE.
    rewrite length_map in HE. lia. }
  rewrite Hsi, Hri. reflexivity.
Qed.

Lemma process_crypto_data_without_levels_witness :
  process_crypto_data ["CDLDOJI"%string]
    [flat_bar 0 0 0 0 "CDLDOJI_Bull"; flat_bar 1 3 3 3 "CDLDOJI_Bear"]
    4 1 1 2 3 1
  = Ok (mkProcessResult [] [] []).
Proof.
  apply (proj2 (process_crypto_data_without_levels ["CDLDOJI"%string]
                  [flat_bar 0 0 0 0 "CDLDOJI_Bull";
                   flat_bar 1 3 3 3 "CDLDOJI_Bear"] 4 1 1 2 3 1)).
  - lia.
  - simpl. lia.
Defined.

(** ** The classifier: level order and proximity threshold *)

Lemma near_existsb price time p levels :
  near price time p levels = existsb (qualifies price time p) levels.
Proof.
  unfold near, first_qualifying.
  induction levels as [|lv levels IH]; simpl; [reflexivity|].
  destruct (qualifies price time p lv); [reflexivity|exact IH].
Qed.

Lemma existsb_permutation {A : Type} (f : A -> bool) (l l' : list A) :
  Permutation l l' -> existsb f l = existsb f l'.
Proof.
  induction 1 as [|x l l' _ IH|x y l|l l' l'' _ IH1 _ IH2]; simpl.
  - reflexivity.
  - rewrite IH. reflexivity.
  - destruct (f x), (f y); reflexivity.
  - congruence.
Qed.

Lemma classify_row_by_near supports resistances p label b :
  nonzero_close b ->
  classify_row supports resistances p label b
  = Ok (if truthy (candlestick_pattern b)
        then mark label b
               (category_by_priority
                  (contains "_Bull" (candlestick_pattern b))
                  (contains "_Bear" (candlestick_pattern b))
                  (near (close b) (time b) p supports)
                  (near (close b) (time b) p resistances))
        else mark label b NoCategory).
Proof.
  intro Hnz. unfold classify_row.
  destruct (truthy (candlestick_pattern b)); [|reflexivity].
  rewrite check_pattern_levels_nonzero by exact Hnz. simpl.
  unfold category_by_priority.
  destruct (contains "_Bull" (candlestick_pattern b)),
    (contains "_Bear" (candlestick_pattern b)),
    (near (close b) (time b) p supports),
    (near (close b) (time b) p resistances); reflexivity.
Qed.

(** The category of an occurrence does not depend on the order in which
    the levels are listed: stopping at the first qualifying level or
    looking for the nearest one gives the same classification. *)
Theorem classify_row_level_order :
  forall supports supports' resistances resistances' p label b,
    nonzero_close b ->
    Permutation supports supports' ->
    Permutation resistances resistances' ->
    classify_row supports resistances p label b
    = classify_row supports' resistances' p label b.
Proof.
  intros supports supports' resistances resistances' p label b Hnz Hs Hr.
  rewrite !classify_row_by_near by exact Hnz.
  rewrite !near_existsb.
  rewrite (existsb_permutation _ _ _ Hs), (existsb_permutation _ _ _ Hr).
  reflexivity.
Qed.

Lemma classify_row_level_order_witness :
  classify_row [(800%Q, 1%Z); (810%Q, 2%Z)] [(1000%Q, 2%Z)] 2 3
    (nth 3 demo_series default_bar)
  = classify_row [(810%Q, 2%Z); (800%Q, 1%Z)] [(1000%Q, 2%Z)] 2 3
      (nth 3 demo_series default_bar).
Proof.
  apply classify_row_level_order.
  - intro H. discriminate H.
  - apply perm_swap.
  - apply Permutation_refl.
Defined.

Lemma qualifies_wider price time p p' lv :
  (p <= p')%Q ->
  qualifies price time p lv = true -> qualifies price time p' lv = true.
Proof.
  intros Hp H. unfold qualifies in *.
  apply andb_true_iff in H. destruct H as [Hd Ht].
  apply andb_true_iff. split; [|assumption].
  apply Qlt_bool_iff in Hd. apply Qlt_bool_iff.
  apply Qlt_le_trans with (p / 100)%Q; [assumption|].
  apply Qmult_le_compat_r; [assumption|discriminate].
Qed.

Lemma near_wider price time p p' levels levels' :
  (p <= p')%Q -> incl levels levels' ->
  near price time p levels = true -> near price time p' levels' = true.
Proof.
  intros Hp Hincl. rewrite !near_existsb. intro H.
  apply existsb_exists in H. destruct H as (lv & Hin & Hq).
  apply existsb_exists. exists lv. split; [apply Hincl; assumption|].
  exact (qualifies_wider _ _ _ _ _ Hp Hq).
Qed.

Lemma marked_mark label b c :
  marked (mark label b c)
  = match c with NoCategory => false | _ => true end.
Proof. destruct c; reflexivity. Qed.

Lemma category_some is_bull is_bear near_s near_r :
  match category_by_priority is_bull is_bear near_s near_r with
  | NoCategory => false
  | _ => true
  end
  = (is_bull || is_bear) && (near_s || near_r).
Proof. destruct is_bull, is_bear, near_s, near_r; reflexivity. Qed.

(** An occurrence that is classified stays classified when the proximity
    threshold is raised or when levels are added: a wider threshold or
    more levels never lose an occurrence. *)
Theorem classify_row_monotone :
  forall supports supports' resistances resistances' p p' label b row,
    nonzero_close b ->
    (p <= p')%Q ->
    incl supports supports' -> incl resistances resistances' ->
    classify_row supports resistances p label b = Ok row ->
    marked row = true ->
    exists row',
      classify_row supports' resistances' p' label b = Ok row'
      /\ marked row' = true.
Proof.
  intros supports supports' resistances resistances' p p' label b row Hnz Hp
    Hs Hr H Hm.
  rewrite classify_row_by_near in H by exact Hnz.
  rewrite classify_row_by_near by exact Hnz.
  eexists. split; [reflexivity|].
  injection H as <-.
  destruct (truthy (candlestick_pattern b)); [|discriminate Hm].
  rewrite marked_mark, category_some in *.
  apply andb_true_iff in Hm. destruct Hm as [Hside Hnear].
  apply andb_true_iff. split; [assumption|].
  apply orb_true_iff in Hnear. apply orb_true_iff.
  destruct Hnear as [Hn|Hn]; [left|right];
    eapply near_wider; eassumption.
Qed.

Lemma classify_row_monotone_witness :
  exists row',
    classify_row [(700%Q, 0%Z); (800%Q, 1%Z)] [(1000%Q, 2%Z)] 3 3
      (nth 3 demo_series default_bar) = Ok row'
    /\ marked row' = true.
Proof.
  apply (classify_row_monotone [(800%Q, 1%Z)] [(700%Q, 0%Z); (800%Q, 1%Z)]
           [] [(1000%Q, 2%Z)] 2 3 3 (nth 3 demo_series default_bar)
           (mark 3 (nth 3 demo_series default_bar) Standard)).
  - intro H. discriminate H.
  - discriminate.
  - intros lv [<-|[]]. right. left. reflexivity.
  - intros lv [].
  - reflexivity.
  - reflexivity.
Defined.

(** ** The simulator: exclusive outcomes, wider stops, nearer targets *)

Lemma returned_cons_bull a b row rest :
  fst (returned (bull_walk a b (row :: rest)))
  = if Qlt_bool (low (bar row)) a then false
    else if Qge_bool (high (bar row)) b then true
    else fst (returned (bull_walk a b rest)).
Proof.
  simpl. destruct (Qlt_bool (low (bar row)) a); [reflexivity|].
  destruct (Qge_bool (high (bar row)) b); [reflexivity|].
  unfold returned. destruct (bull_walk a b rest) as [[v|] n]; reflexivity.
Qed.

Lemma returned_cons_bear c d row rest :
  fst (returned (bear_walk c d (row :: rest)))
  = if Qgt_bool (high (bar row)) c then false
    else if Qle_bool (low (bar row)) d then true
    else fst (returned (bear_walk c d rest)).
Proof.
  simpl. destruct (Qgt_bool (high (bar row)) c); [reflexivity|].
  destruct (Qle_bool (low (bar row)) d); [reflexivity|].
  unfold returned. destruct (bear_walk c d rest) as [[v|] n]; reflexivity.
Qed.

Lemma Qlt_bool_false x y : Qlt_bool x y = false <-> (y <= x)%Q.
Proof.
  unfold Qlt_bool. rewrite negb_false_iff. apply Qle_bool_iff.
Qed.

Lemma Qle_bool_false x y : Qle_bool x y = false <-> (y < x)%Q.
Proof.
  split; intro H.
  - apply Qnot_le_lt. intro Hle. apply Qle_bool_iff in Hle. congruence.
  - destruct (Qle_bool x y) eqn:E; [|reflexivity].
    apply Qle_bool_iff in E. exfalso. exact (Qlt_not_le _ _ H E).
Qed.

(** With the bear target below the bull stop and the bear stop below the
    bull target, no walk succeeds both ways. *)
Lemma walks_exclusive bull_stop bull_target bear_stop bear_target :
  (bear_target < bull_stop)%Q -> (bear_stop < bull_target)%Q ->
  forall future,
    fst (returned (bull_walk bull_stop bull_target future)) = true ->
    fst (returned (bear_walk bear_stop bear_target future)) = true ->
    False.
Proof.
  intros Hlow Hhigh. induction future as [|row rest IH]; [discriminate|].
  rewrite returned_cons_bull, returned_cons_bear.
  unfold Qge_bool, Qgt_bool.
  destruct (Qlt_bool (low (bar row)) bull_stop) eqn:E1; [discriminate|].
  apply Qlt_bool_false in E1.
  destruct (Qle_bool bull_target (high (bar row))) eqn:E2.
  - apply Qle_bool_iff in E2. intros _.
    destruct (Qlt_bool bear_stop (high (bar row))) eqn:E3; [discriminate|].
    apply Qlt_bool_false in E3. exfalso.
    apply (Qlt_irrefl bear_stop).
    apply Qlt_le_trans with bull_target; [assumption|].
    apply Qle_trans with (high (bar row)); assumption.
  - destruct (Qlt_bool bear_stop (high (bar row))); [discriminate|].
    destruct (Qle_bool (low (bar row)) bear_target) eqn:E4; [|exact IH].
    apply Qle_bool_iff in E4. intros _ _.
    apply (Qlt_irrefl bear_target).
    apply Qlt_le_trans with bull_stop; [assumption|].
    apply Qle_trans with (low (bar row)); assumption.
Qed.

Lemma analyze_bull data row target_percent stop_percent :
  bull_outcome data row target_percent stop_percent
  = fst (returned
           (bull_walk (close (bar row) * (1 - stop_percent / 100))%Q
              (close (bar row) * (1 + target_percent / 100))%Q
              (skipn (name row + 1) data))).
Proof.
  unfold bull_outcome, analyze_pattern_performance,
    analyze_pattern_performance_walk.
  destruct (skipn (name row + 1) data); reflexivity.
Qed.

Lemma analyze_bear data row target_percent stop_percent :
  bear_outcome data row target_percent stop_percent
  = fst (returned
           (bear_walk (close (bar row) * (1 + stop_percent / 100))%Q
              (close (bar row) * (1 - target_percent / 100))%Q
              (skipn (name row + 1) data))).
Proof.
  unfold bear_outcome, analyze_pattern_performance,
    analyze_pattern_performance_walk.
  destruct (skipn (name row + 1) data); reflexivity.
Qed.

Lemma scale_lt (e x y : Q) : (0 < e)%Q -> (x < y)%Q -> (e * x < e * y)%Q.
Proof. intros He Hxy. apply Qmult_lt_l; assumption. Qed.

Lemma scale_le (e x y : Q) : (0 <= e)%Q -> (x <= y)%Q -> (e * x <= e * y)%Q.
Proof.
  intros He Hxy. rewrite (Qmult_comm e x), (Qmult_comm e y).
  apply Qmult_le_compat_r; assumption.
Qed.

Lemma percent_lt (s t : Q) : (s < t)%Q -> (s / 100 < t / 100)%Q.
Proof.
  intro H. unfold Qdiv. apply Qmult_lt_r; [reflexivity|assumption].
Qed.

Lemma percent_le (s t : Q) : (s <= t)%Q -> (s / 100 <= t / 100)%Q.
Proof.
  intro H. unfold Qdiv. apply Qmult_le_compat_r; [assumption|discriminate].
Qed.

Lemma above_lt (s t : Q) : (s < t)%Q -> (1 + s / 100 < 1 + t / 100)%Q.
Proof. intro H. apply Qplus_lt_r. apply percent_lt. assumption. Qed.

Lemma below_lt (s t : Q) : (s < t)%Q -> (1 - t / 100 < 1 - s / 100)%Q.
Proof.
  intro H. unfold Qminus. apply Qplus_lt_r.
  apply Qopp_lt_compat. apply percent_lt. assumption.
Qed.

Lemma above_le (s t : Q) : (s <= t)%Q -> (1 + s / 100 <= 1 + t / 100)%Q.
Proof. intro H. apply Qplus_le_r. apply percent_le. assumption. Qed.

Lemma below_le (s t : Q) : (s <= t)%Q -> (1 - t / 100 <= 1 - s / 100)%Q.
Proof.
  intro H. unfold Qminus. apply Qplus_le_r.
  apply Qopp_le_compat. apply percent_le. assumption.
Qed.

(** When the price thresholds that the simulator computes for an
    occurrence are ordered, the bearish target below the bullish stop
    and the bearish stop below the bullish target, the occurrence never
    succeeds both as a bullish and as a bearish trade.  The condition is
    on the computed thresholds, so it reads the same with rounded
    arithmetic. *)
Theorem bull_and_bear_exclusive :
  forall data row target_percent stop_percent,
    (close (bar row) * (1 - target_percent / 100)
     < close (bar row) * (1 - stop_percent / 100))%Q ->
    (close (bar row) * (1 + stop_percent / 100)
     < close (bar row) * (1 + target_percent / 100))%Q ->
    bull_outcome data row target_percent stop_percent = true ->
    bear_outcome data row target_percent stop_percent = false.
Proof.
  intros data row target_percent stop_percent Hlow Hhigh Hbull.
  destruct (bear_outcome data row target_percent stop_percent) eqn:Hbear;
    [|reflexivity].
  exfalso. rewrite analyze_bull in Hbull. rewrite analyze_bear in Hbear.
  exact (walks_exclusive _ _ _ _ Hlow Hhigh _ Hbull Hbear).
Qed.

Lemma bull_and_bear_exclusive_witness :
  bull_outcome demo_rows (demo_row 3) 3 1 = true
  /\ bear_outcome demo_rows (demo_row 3) 3 1 = false.
Proof.
  split; [reflexivity|].
  apply bull_and_bear_exclusive; reflexivity.
Defined.

(** In exact arithmetic the thresholds are ordered whenever the entry
    price is positive and the stop percentage is below the target
    percentage. *)
Lemma thresholds_ordered (entry target_percent stop_percent : Q) :
  (0 < entry)%Q -> (stop_percent < target_percent)%Q ->
  (entry * (1 - target_percent / 100)
   < entry * (1 - stop_percent / 100))%Q
  /\ (entry * (1 + stop_percent / 100)
      < entry * (1 + target_percent / 100))%Q.
Proof.
  intros Hentry Hst. split; apply scale_lt; try assumption;
    [apply below_lt|apply above_lt]; assumption.
Qed.

Lemma bull_walk_monotone a a' b b' :
  (a' <= a)%Q -> (b' <= b)%Q ->
  forall future,
    fst (returned (bull_walk a b future)) = true ->
    fst (returned (bull_walk a' b' future)) = true.
Proof.
  intros Ha Hb. induction future as [|row rest IH]; [discriminate|].
  rewrite !returned_cons_bull. unfold Qge_bool.
  destruct (Qlt_bool (low (bar row)) a) eqn:E1; [discriminate|].
  apply Qlt_bool_false in E1.
  assert (E1' : Qlt_bool (low (bar row)) a' = false).
  { apply Qlt_bool_false. apply Qle_trans with a; assumption. }
  rewrite E1'.
  destruct (Qle_bool b (high (bar row))) eqn:E2.
  - apply Qle_bool_iff in E2. intros _.
    assert (E2' : Qle_bool b' (high (bar row)) = true).
    { apply Qle_bool_iff. apply Qle_trans with b; assumption. }
    rewrite E2'. reflexivity.
  - intro H. destruct (Qle_bool b' (high (bar row))); [reflexivity|].
    apply IH. assumption.
Qed.

Lemma bear_walk_monotone c c' d d' :
  (c <= c')%Q -> (d <= d')%Q ->
  forall future,
    fst (returned (bear_walk c d future)) = true ->
    fst (returned (bear_walk c' d' future)) = true.
Proof.
  intros Hc Hd. induction future as [|row rest IH]; [discriminate|].
  rewrite !returned_cons_bear. unfold Qgt_bool.
  destruct (Qlt_bool c (high (bar row))) eqn:E1; [discriminate|].
  apply Qlt_bool_false in E1.
  assert (E1' : Qlt_bool c' (high (bar row)) = false).
  { apply Qlt_bool_false. apply Qle_trans with c; assumption. }
  rewrite E1'.
  destruct (Qle_bool (low (bar row)) d) eqn:E2.
  - apply Qle_bool_iff in E2. intros _.
    assert (E2' : Qle_bool (low (bar row)) d' = true).
    { apply Qle_bool_iff. apply Qle_trans with d; assumption. }
    rewrite E2'. reflexivity.
  - intro H. destruct (Qle_bool (low (bar row)) d'); [reflexivity|].
    apply IH. assumption.
Qed.

(** With a nonnegative entry price, a trade that succeeds still succeeds
    when the stop percentage is raised or the target percentage is
    lowered, for bullish and for bearish trades alike. *)
Theorem outcome_monotone :
  forall data row target_percent target_percent' stop_percent stop_percent',
    (0 <= close (bar row))%Q ->
    (stop_percent <= stop_percent')%Q ->
    (target_percent' <= target_percent)%Q ->
    (bull_outcome data row target_percent stop_percent = true ->
     bull_outcome data row target_percent' stop_percent' = true)
    /\ (bear_outcome data row target_percent stop_percent = true ->
        bear_outcome data row target_percent' stop_percent' = true).
Proof.
  intros data row target_percent target_percent' stop_percent stop_percent'
    Hentry Hs Ht.
  rewrite !analyze_bull, !analyze_bear. split.
  - apply bull_walk_monotone; apply scale_le; try assumption;
      [apply below_le|apply above_le]; assumption.
  - apply bear_walk_monotone; apply scale_le; try assumption;
      [apply above_le|apply below_le]; assumption.
Qed.

Lemma outcome_monotone_witness :
  bull_outcome demo_rows (demo_row 3) 3 1 = true
  /\ bull_outcome demo_rows (demo_row 3) 2 (3 # 2) = true.
Proof.
  split; [reflexivity|].
  apply (proj1 (outcome_monotone demo_rows (demo_row 3) 3 2 1 (3 # 2)
                  ltac:(discriminate) ltac:(discriminate)
                  ltac:(discriminate))).
  reflexivity.
Defined.

(** ** The aggregator on any table *)

Lemma sum_present_pair items total_success total_patterns :
  sum_present items total_success total_patterns
  = (fst (sum_present items total_success total_patterns),
     total_patterns + sum_total items).
Proof.
  rewrite <- sum_present_total with (total_success := total_success).
  destruct (sum_present items total_success total_patterns); reflexivity.
Qed.

(** Whatever the counters hold, the aggregator returns without raising,
    with the plain sum of the totals; below MIN_PREDICTIONS_COUNT the
    accuracy is 0, so an accuracy that reaches MIN_ACCURACY_THRESHOLD
    already implies enough predictions: for a result of the aggregator
    the keep test is the accuracy test alone. *)
Theorem calculate_average_accuracy_any_table :
  forall pattern_stats,
    exists accuracy,
      calculate_average_accuracy pattern_stats
      = Ok (accuracy, sum_total pattern_stats)
      /\ (sum_total pattern_stats < MIN_PREDICTIONS_COUNT ->
          accuracy = 0%Q)
      /\ kept accuracy (sum_total pattern_stats)
         = Qge_bool accuracy MIN_ACCURACY_THRESHOLD.
Proof.
  intro pattern_stats. unfold calculate_average_accuracy.
  rewrite sum_present_pair. rewrite Nat.add_0_l. cbv beta iota.
  destruct (MIN_PREDICTIONS_COUNT <=? sum_total pattern_stats) eqn:E.
  - pose proof E as E'. apply Nat.leb_le in E'.
    unfold MIN_PREDICTIONS_COUNT in E'.
    rewrite py_div_nonzero by (apply Qnat_nonzero; lia).
    cbn [bind]. eexists. split; [reflexivity|]. split.
    + intro H. unfold MIN_PREDICTIONS_COUNT in H. lia.
    + unfold kept. rewrite E. apply andb_true_r.
  - eexists. split; [reflexivity|]. split; [reflexivity|].
    unfold kept. rewrite E. reflexivity.
Qed.

(** ** The search: charts do not steer it *)

Lemma for_each_simulation {A S : Type} (R : S -> S -> Prop)
    (body body' : A -> S -> result S) :
  (forall x s t s', R s t -> body x s = Ok s' ->
                    exists t', body' x t = Ok t' /\ R s' t') ->
  forall items s t s',
    R s t -> for_each items body s = Ok s' ->
    exists t', for_each items body' t = Ok t' /\ R s' t'.
Proof.
  intro Hstep. induction items as [|x items IH]; intros s t s' HR H;
    cbn [for_each] in *.
  - injection H as <-. exists t. split; [reflexivity|assumption].
  - destruct (body x s) as [u|e] eqn:E; cbn [bind] in H; [|discriminate].
    destruct (Hstep _ _ _ _ HR E) as (u' & -> & HR').
    cbn [bind]. exact (IH _ _ _ HR' H).
Qed.

Lemma report_candle_same_outcome render render' append_line params results
    item s t s' :
  same_outcome s t ->
  report_candle render append_line params results item s = Ok s' ->
  exists t',
    report_candle render' append_line params results item t = Ok t'
    /\ same_outcome s' t'.
Proof.
  intros (Hc & Ha & Hp & Hf) H. destruct item as [candle candle_results].
  unfold report_candle in *. rewrite <- Hf.
  destruct (append_line (results_file s) _) as [u|e]; cbn [bind] in *;
    [|discriminate].
  destruct (kept _ _).
  - destruct (create_and_save_chart render candle candle_results _ _ _)
      as [saved printed].
    destruct (create_and_save_chart render' candle candle_results _ _ _)
      as [saved' printed'].
    rewrite <- Ha.
    destruct (Qgt_bool _ _); injection H as <-; eexists;
      (split; [reflexivity|]); unfold same_outcome; cbn;
      repeat split; congruence.
  - injection H as <-. eexists. split; [reflexivity|].
    unfold same_outcome; cbn. repeat split; congruence.
Qed.

Lemma combination_same_outcome candle_names render render' append_line
    crypto params s t s' :
  same_outcome s t ->
  combination candle_names render append_line crypto params s = Ok s' ->
  exists t',
    combination candle_names render' append_line crypto params t = Ok t'
    /\ same_outcome s' t'.
Proof.
  intros HR H. unfold combination in *.
  destruct (process_crypto_data _ _ _ _ _ _ _ _) as [results|e];
    cbn [bind] in *; [|discriminate].
  refine (for_each_simulation same_outcome _ _ _ _ _ _ _ _ H).
  - intros item u v u' Huv Hu.
    exact (report_candle_same_outcome _ _ _ _ _ _ _ _ _ Huv Hu).
  - destruct HR as (Hc & Ha & Hp & Hf).
    unfold same_outcome; cbn. repeat split; congruence.
Qed.

(** The renderer has no influence on the search: two runs that differ
    only in what the chart code does (save, fail to save, raise) process
    the same combinations, write the same results file and end with the
    same best parameters and best accuracy. *)
Theorem grid_search_ignores_renderer :
  forall candle_names render render' append_line crypto extrema_orders
         min_touches_values touch_thresholds proximity_thresholds
         target_percents stop_percents st,
    grid_search candle_names render append_line crypto extrema_orders
      min_touches_values touch_thresholds proximity_thresholds
      target_percents stop_percents initial_search = Ok st ->
    exists st',
      grid_search candle_names render' append_line crypto extrema_orders
        min_touches_values touch_thresholds proximity_thresholds
        target_percents stop_percents initial_search = Ok st'
      /\ same_outcome st st'.
Proof.
  intros candle_names render render' append_line crypto extrema_orders
    min_touches_values touch_thresholds proximity_thresholds target_percents
    stop_percents st H.
  rewrite grid_search_flat in *.
  refine (for_each_simulation same_outcome _ _ _ _ _ _ _ _ H).
  - intros params u v u' Huv Hu.
    exact (combination_same_outcome _ _ _ _ _ _ _ _ _ Huv Hu).
  - repeat split.
Qed.

Lemma grid_search_ignores_renderer_witness :
  exists st st',
    grid_search ["CDLDOJI"%string] saving_render writable winning_series
      [1] [1] [1%Q] [2%Q] [3%Q] [1%Q] initial_search = Ok st
    /\ grid_search ["CDLDOJI"%string] raising_render writable
         winning_series [1] [1] [1%Q] [2%Q] [3%Q] [1%Q] initial_search
       = Ok st'
    /\ same_outcome st st'.
Proof.
  destruct (grid_search ["CDLDOJI"%string] saving_render writable
              winning_series [1] [1] [1%Q] [2%Q] [3%Q] [1%Q]
              initial_search) as [st|e] eqn:E;
    [|vm_compute in E; discriminate E].
  destruct (grid_search_ignores_renderer ["CDLDOJI"%string] saving_render
              raising_render writable winning_series
              [1] [1] [1%Q] [2%Q] [3%Q] [1%Q] st E) as (st' & Hrun & Hsame).
  exists st, st'. repeat split; try assumption; apply Hsame.
Defined.

(** ** The search: saved charts and the best result *)

Lemma filter_app_one {A : Type} (f : A -> bool) (l : list A) (x : A) :
  length (filter f (l ++ [x]))
  = length (filter f l) + (if f x then 1 else 0).
Proof.
  rewrite filter_app, length_app. simpl. destruct (f x); reflexivity.
Qed.

Lemma report_candle_saved render append_line params results candle
    candle_results st st' :
  report_candle render append_line params results (candle, candle_results)
    st = Ok st' ->
  saved_charts st'
  = saved_charts st
    + (if kept_row (csv_row params candle candle_results)
          && left_a_file
               (render candle candle_results (support_levels results)
                  (resistance_levels results) params)
       then 1 else 0).
Proof.
  unfold report_candle, kept_row. cbn [csv_avg_accuracy
    csv_total_predictions csv_row].
  destruct (append_line _ _) as [u|e]; cbn [bind]; [|discriminate].
  destruct (kept _ _) eqn:Ek.
  - unfold create_and_save_chart. rewrite Ek.
    destruct (render candle candle_results _ _ params) as [[|]|e];
      destruct (Qgt_bool _ _); intro H; injection H as <-; cbn; lia.
  - intro H. injection H as <-. cbn. lia.
Qed.

Lemma report_candle_charts_counted render append_line params results item
    st st' :
  charts_counted render st ->
  report_candle render append_line params results item st = Ok st' ->
  charts_counted render st'.
Proof.
  destruct item as [candle candle_results].
  intros (Hle & Hall & Hnone) H.
  pose proof (report_candle_saved _ _ _ _ _ _ _ _ H) as Hsaved.
  destruct (report_candle_inv _ _ _ _ _ _ _ _ H) as (Hfile & _).
  unfold charts_counted. rewrite Hfile, filter_app_one, Hsaved.
  split; [|split].
  - destruct (kept_row _); destruct (left_a_file _); simpl; lia.
  - intro Hr. rewrite (Hall Hr), Hr, andb_true_r. reflexivity.
  - intro Hr. rewrite (Hnone Hr), Hr, andb_false_r. reflexivity.
Qed.

(** The counter of saved charts never exceeds the number of kept lines
    of the results file; it equals that number when the chart code
    always leaves a file and stays 0 when it never does. *)
Theorem saved_charts_bounded :
  forall candle_names render append_line crypto extrema_orders
         min_touches_values touch_thresholds proximity_thresholds
         target_percents stop_percents st,
    grid_search candle_names render append_line crypto extrema_orders
      min_touches_values touch_thresholds proximity_thresholds
      target_percents stop_percents initial_search = Ok st ->
    charts_counted render st.
Proof.
  intros candle_names render append_line crypto extrema_orders
    min_touches_values touch_thresholds proximity_thresholds target_percents
    stop_percents st H.
  rewrite grid_search_flat in H.
  refine (for_each_invariant (charts_counted render) _ _ _ st _ _ H).
  - intros params t t' _ Ht Hstep. unfold combination in Hstep.
    destruct (process_crypto_data _ _ _ _ _ _ _ _) as [results|e];
      cbn [bind] in Hstep; [|discriminate].
    refine (for_each_invariant (charts_counted render) _ _ _ t' _ _ Hstep).
    + intros item u u' _ Hu Hrep.
      exact (report_candle_charts_counted _ _ _ _ _ _ _ Hu Hrep).
    + exact Ht.
  - unfold charts_counted. cbn. repeat split; lia.
Qed.

Lemma saved_charts_bounded_witness :
  exists st,
    grid_search ["CDLDOJI"%string] saving_render writable winning_series
      [1] [1] [1%Q] [2%Q] [3%Q] [1%Q; 1%Q] initial_search = Ok st
    /\ saved_charts st = length (filter kept_row (results_file st)).
Proof.
  destruct (grid_search ["CDLDOJI"%string] saving_render writable
              winning_series [1] [1] [1%Q] [2%Q] [3%Q] [1%Q; 1%Q]
              initial_search) as [st|e] eqn:E;
    [|vm_compute in E; discriminate E].
  exists st. split; [reflexivity|].
  apply (saved_charts_bounded _ _ _ _ _ _ _ _ _ _ _ E).
  reflexivity.
Defined.

(** The search ends with a best combination exactly when at least one
    result was kept; its accuracy is then at least
    MIN_ACCURACY_THRESHOLD, and otherwise the best accuracy is 0. *)
Theorem best_params_present_iff_kept :
  forall candle_names render append_line crypto extrema_orders
         min_touches_values touch_thresholds proximity_thresholds
         target_percents stop_percents st,
    grid_search candle_names render append_line crypto extrema_orders
      min_touches_values touch_thresholds proximity_thresholds
      target_percents stop_percents initial_search = Ok st ->
    (best_params st = None
     <-> forall r, In r (results_file st) -> kept_row r = false)
    /\ (best_params st = None -> best_accuracy st = 0%Q)
    /\ (best_params st <> None ->
        (MIN_ACCURACY_THRESHOLD <= best_accuracy st)%Q).
Proof.
  intros candle_names render append_line crypto extrema_orders
    min_touches_values touch_thresholds proximity_thresholds target_percents
    stop_percents st H.
  rewrite grid_search_flat in H.
  pose proof (combinations_track _ _ _ _ _ _ _ best_tracks_kept_initial H)
    as Hb.
  unfold best_tracks_kept, best_among in Hb.
  destruct (best_params st) as [[candle params]|].
  - destruct Hb as (before & r & rest & Hf & Hr & _ & _ & Ha & _).
    split; [|split].
    + split; [discriminate|]. intro Hnone.
      rewrite (Hnone r) in Hr; [discriminate|].
      rewrite Hf. apply in_or_app. right. left. reflexivity.
    + discriminate.
    + intros _. rewrite <- Ha. unfold kept_row, kept, Qge_bool in Hr.
      apply andb_true_iff in Hr. apply Qle_bool_iff. apply Hr.
  - destruct Hb as [H0 Hnone]. split; [|split].
    + split; [|reflexivity]. intros _ r Hin.
      destruct (kept_row r) eqn:Ek; [|reflexivity].
      exfalso. apply (Hnone r Hin Ek). exact (kept_positive _ _ Ek).
    + intros _. exact H0.
    + intro Hne. contradiction.
Qed.

Lemma best_params_present_iff_kept_witness :
  exists st,
    grid_search ["CDLDOJI"%string] saving_render writable demo_series
      [1] [1] [1%Q] [2%Q] [3%Q] [1%Q] initial_search = Ok st
    /\ (best_params st = None
        <-> forall r, In r (results_file st) -> kept_row r = false).
Proof.
  destruct (grid_search ["CDLDOJI"%string] saving_render writable
              demo_series [1] [1] [1%Q] [2%Q] [3%Q] [1%Q] initial_search)
    as [st|e] eqn:E; [|vm_compute in E; discriminate E].
  exists st. split; [reflexivity|].
  exact (proj1 (best_params_present_iff_kept _ _ _ _ _ _ _ _ _ _ _ E)).
Defined.

(** ** The grid is the cartesian product *)

Lemma NoDup_flat_map {A B : Type} (f : A -> list B) :
  forall l,
    NoDup l ->
    (forall x, In x l -> NoDup (f x)) ->
    (forall x y b, In x l -> In y l -> In b (f x) -> In b (f y) -> x = y) ->
    NoDup (flat_map f l).
Proof.
  induction l as [|x l IH]; intros Hl Hf Hdisj; simpl; [constructor|].
  inversion Hl as [|? ? Hnotin Hrest]; subst.
  assert (Htail : NoDup (flat_map f l)).
  { apply IH; [assumption| |].
    - intros y Hy. apply Hf. right. assumption.
    - intros y z b Hy Hz. apply Hdisj; right; assumption. }
  assert (Hhead : NoDup (f x)) by (apply Hf; left; reflexivity).
  revert Hhead.
  assert (Hsep : forall b, In b (f x) -> ~ In b (flat_map f l)).
  { intros b Hb Hin. apply in_flat_map in Hin.
    destruct Hin as (y & Hy & Hby).
    assert (x = y)
      by (apply (Hdisj x y b); [left; reflexivity|right; assumption| |];
          assumption).
    subst y. contradiction. }
  revert Hsep. generalize (f x) as bs.
  induction bs as [|b bs IHb]; intros Hsep Hhead; simpl; [assumption|].
  inversion Hhead as [|? ? Hb Hbs]; subst.
  constructor.
  - intro Hin. apply in_app_or in Hin. destruct Hin as [Hin|Hin];
      [contradiction|]. apply (Hsep b); [left; reflexivity|assumption].
  - apply IHb; [|assumption]. intros c Hc. apply Hsep. right. assumption.
Qed.

Lemma NoDup_map_injective {A B : Type} (f : A -> B) (l : list A) :
  (forall x y, f x = f y -> x = y) -> NoDup l -> NoDup (map f l).
Proof.
  intros Hinj Hl. induction Hl as [|x l Hx Hl IH]; simpl; constructor.
  - intro Hin. apply in_map_iff in Hin. destruct Hin as (y & Hy & Hin).
    apply Hinj in Hy. subst y. contradiction.
  - assumption.
Qed.

Lemma grid_member extrema_orders min_touches_values touch_thresholds
    proximity_thresholds target_percents stop_percents params :
  In params (grid extrema_orders min_touches_values touch_thresholds
               proximity_thresholds target_percents stop_percents)
  <-> In (extrema_order params) extrema_orders
      /\ In (min_touches params) min_touches_values
      /\ In (touch_threshold params) touch_thresholds
      /\ In (level_proximity_threshold params) proximity_thresholds
      /\ In (target_percent params) target_percents
      /\ In (stop_percent params) stop_percents.
Proof.
  unfold grid. split.
  - intro H.
    apply in_flat_map in H. destruct H as (eo & Heo & H).
    apply in_flat_map in H. destruct H as (mt & Hmt & H).
    apply in_flat_map in H. destruct H as (tt & Htt & H).
    apply in_flat_map in H. destruct H as (lp & Hlp & H).
    apply in_flat_map in H. destruct H as (tp & Htp & H).
    apply in_map_iff in H. destruct H as (sp & <- & Hsp).
    cbn. repeat split; assumption.
  - destruct params as [eo mt tt lp tp sp]. cbn.
    intros (Heo & Hmt & Htt & Hlp & Htp & Hsp).
    apply in_flat_map. exists eo. split; [assumption|].
    apply in_flat_map. exists mt. split; [assumption|].
    apply in_flat_map. exists tt. split; [assumption|].
    apply in_flat_map. exists lp. split; [assumption|].
    apply in_flat_map. exists tp. split; [assumption|].
    apply in_map_iff. exists sp. split; [reflexivity|assumption].
Qed.

Lemma grid_nodup extrema_orders min_touches_values touch_thresholds
    proximity_thresholds target_percents stop_percents :
  NoDup extrema_orders -> NoDup min_touches_values ->
  NoDup touch_thresholds -> NoDup proximity_thresholds ->
  NoDup target_percents -> NoDup stop_percents ->
  NoDup (grid extrema_orders min_touches_values touch_thresholds
           proximity_thresholds target_percents stop_percents).
Proof.
  intros Heo Hmt Htt Hlp Htp Hsp. unfold grid.
  apply NoDup_flat_map; [assumption| |].
  - intros eo _. apply NoDup_flat_map; [assumption| |].
    + intros mt _. apply NoDup_flat_map; [assumption| |].
      * intros tt _. apply NoDup_flat_map; [assumption| |].
        -- intros lp _. apply NoDup_flat_map; [assumption| |].
           ++ intros tp _. apply NoDup_map_injective; [|assumption].
              intros x y H. injection H as H. exact H.
           ++ intros x y b _ _ Hx Hy.
              apply in_map_iff in Hx. destruct Hx as (? & <- & _).
              apply in_map_iff in Hy. destruct Hy as (? & H & _).
              injection H as H _. congruence.
        -- intros x y b _ _ Hx Hy.
           apply in_flat_map in Hx. destruct Hx as (? & _ & Hx).
           apply in_map_iff in Hx. destruct Hx as (? & <- & _).
           apply in_flat_map in Hy. destruct Hy as (? & _ & Hy).
           apply in_map_iff in Hy. destruct Hy as (? & H & _).
           injection H as H _ _. congruence.
      * intros x y b _ _ Hx Hy.
        apply in_flat_map in Hx. destruct Hx as (? & _ & Hx).
        apply in_flat_map in Hx. destruct Hx as (? & _ & Hx).
        apply in_map_iff in Hx. destruct Hx as (? & <- & _).
        apply in_flat_map in Hy. destruct Hy as (? & _ & Hy).
        apply in_flat_map in Hy. destruct Hy as (? & _ & Hy).
        apply in_map_iff in Hy. destruct Hy as (? & H & _).
        injection H as H _ _ _. congruence.
    + intros x y b _ _ Hx Hy.
      apply in_flat_map in Hx. destruct Hx as (? & _ & Hx).
      apply in_flat_map in Hx. destruct Hx as (? & _ & Hx).
      apply in_flat_map in Hx. destruct Hx as (? & _ & Hx).
      apply in_map_iff in Hx. destruct Hx as (? & <- & _).
      apply in_flat_map in Hy. destruct Hy as (? & _ & Hy).
      apply in_flat_map in Hy. destruct Hy as (? & _ & Hy).
      apply in_flat_map in Hy. destruct Hy as (? & _ & Hy).
      apply in_map_iff in Hy. destruct Hy as (? & H & _).
      injection H as H _ _ _ _. congruence.
  - intros x y b _ _ Hx Hy.
    assert (Hbx : extrema_order b = x).
    { apply in_flat_map in Hx. destruct Hx as (? & _ & Hx).
      apply in_flat_map in Hx. destruct Hx as (? & _ & Hx).
      apply in_flat_map in Hx. destruct Hx as (? & _ & Hx).
      apply in_flat_map in Hx. destruct Hx as (? & _ & Hx).
      apply in_map_iff in Hx. destruct Hx as (? & <- & _). reflexivity. }
    assert (Hby : extrema_order b = y).
    { apply in_flat_map in Hy. destruct Hy as (? & _ & Hy).
      apply in_flat_map in Hy. destruct Hy as (? & _ & Hy).
      apply in_flat_map in Hy. destruct Hy as (? & _ & Hy).
      apply in_flat_map in Hy. destruct Hy as (? & _ & Hy).
      apply in_map_iff in Hy. destruct Hy as (? & <- & _). reflexivity. }
    congruence.
Qed.

(** The six nested loops of the search run the body of a combination
    over exactly the cartesian product of the candidate lists, in the
    order of [grid]: a combination is visited if and only if each of its
    six values is a candidate, and when no candidate list repeats a
    value no combination is visited twice. *)
Theorem grid_is_cartesian_product :
  forall candle_names render append_line crypto extrema_orders
         min_touches_values touch_thresholds proximity_thresholds
         target_percents stop_percents,
    (forall st,
       grid_search candle_names render append_line crypto extrema_orders
         min_touches_values touch_thresholds proximity_thresholds
         target_percents stop_percents st
       = for_each
           (grid extrema_orders min_touches_values touch_thresholds
              proximity_thresholds target_percents stop_percents)
           (combination candle_names render append_line crypto) st)
    /\ (forall params,
          In params
            (grid extrema_orders min_touches_values touch_thresholds
               proximity_thresholds target_percents stop_percents)
          <-> In (extrema_order params) extrema_orders
              /\ In (min_touches params) min_touches_values
              /\ In (touch_threshold params) touch_thresholds
              /\ In (level_proximity_threshold params) proximity_thresholds
              /\ In (target_percent params) target_percents
              /\ In (stop_percent params) stop_percents)
    /\ (NoDup extrema_orders -> NoDup min_touches_values ->
        NoDup touch_thresholds -> NoDup proximity_thresholds ->
        NoDup target_percents -> NoDup stop_percents ->
        NoDup (grid extrema_orders min_touches_values touch_thresholds
                 proximity_thresholds target_percents stop_percents)
        /\ forall st st',
             grid_search candle_names render append_line crypto
               extrema_orders min_touches_values touch_thresholds
               proximity_thresholds target_percents stop_percents st
             = Ok st' ->
             combination_counter st'
             = combination_counter st
               + length extrema_orders * length min_touches_values
                 * length touch_thresholds * length proximity_thresholds
                 * length target_percents * length stop_percents).
Proof.
  intros candle_names render append_line crypto extrema_orders
    min_touches_values touch_thresholds proximity_thresholds target_percents
    stop_percents.
  split; [intro st; apply grid_search_flat|].
  split; [intro params; apply grid_member|].
  intros Heo Hmt Htt Hlp Htp Hsp.
  split; [apply grid_nodup; assumption|].
  intros st st' H. rewrite grid_search_flat in H.
  destruct (combinations_rows _ _ _ _ _ _ _ H) as [_ Hcount].
  rewrite Hcount, grid_length. reflexivity.
Qed.

Lemma grid_is_cartesian_product_witness :
  NoDup (grid [1; 2] [1] [1%Q] [2%Q] [3%Q; 4%Q] [1%Q])
  /\ exists st,
       grid_search ["CDLDOJI"%string] saving_render writable demo_series
         [1; 2] [1] [1%Q] [2%Q] [3%Q; 4%Q] [1%Q] initial_search = Ok st
       /\ combination_counter st = 4.
Proof.
  destruct (proj2 (proj2
              (grid_is_cartesian_product ["CDLDOJI"%string] saving_render
                 writable demo_series [1; 2] [1] [1%Q] [2%Q] [3%Q; 4%Q]
                 [1%Q]))) as [Hnd Hcount];
    try (repeat constructor; simpl; intuition discriminate).
  split; [exact Hnd|].
  destruct (grid_search ["CDLDOJI"%string] saving_render writable
              demo_series [1; 2] [1] [1%Q] [2%Q] [3%Q; 4%Q] [1%Q]
              initial_search) as [st|e] eqn:E;
    [|vm_compute in E; discriminate E].
  exists st. split; [reflexivity|].
  rewrite (Hcount initial_search st); [reflexivity|exact E].
Defined.

(** ** Results by candle: catalog order and selection by name *)

Lemma dict_set_fresh {V : Type} (k : string) (v : V) :
  forall d, ~ In k (map fst d) -> dict_set k v d = d ++ [(k, v)].
Proof.
  induction d as [|[k0 v0] d IH]; intro Hnotin; simpl; [reflexivity|].
  destruct (String.eqb k0 k) eqn:E.
  - apply String.eqb_eq in E. subst k0. exfalso. apply Hnotin. left.
    reflexivity.
  - rewrite IH; [reflexivity|]. intro H. apply Hnotin. right. assumption.
Qed.

Lemma existsb_selected candle frame :
  existsb (fun row => contains candle (candlestick_pattern (bar row)))
    (filter marked frame)
  = match selected_rows candle frame with
    | [] => false
    | _ :: _ => true
    end.
Proof.
  unfold selected_rows.
  induction (filter marked frame) as [|row rows IH]; simpl; [reflexivity|].
  destruct (contains candle (candlestick_pattern (bar row)));
    [reflexivity|exact IH].
Qed.

Lemma candle_loop_order frame target_percent stop_percent :
  forall names by_candle by_candle',
    NoDup names ->
    (forall k, In k names -> ~ In k (map fst by_candle)) ->
    for_each names
      (candle_step frame (filter marked frame) target_percent stop_percent)
      by_candle = Ok by_candle' ->
    map fst by_candle'
    = map fst by_candle ++ candles_with_result names frame.
Proof.
  induction names as [|candle names IH]; intros by_candle by_candle' Hnd
    Hfresh H; cbn [for_each] in H.
  - injection H as <-. simpl. rewrite app_nil_r. reflexivity.
  - inversion Hnd as [|? ? Hnotin Hrest]; subst.
    destruct (candle_step frame (filter marked frame) target_percent
                stop_percent candle by_candle) as [mid|e] eqn:E;
      cbn [bind] in H; [|discriminate].
    assert (Hmid : map fst mid
                   = map fst by_candle
                     ++ candles_with_result [candle] frame).
    { unfold candle_step in E.
      fold (selected_rows candle frame) in E.
      unfold candles_with_result. cbn [filter].
      rewrite existsb_selected.
      destruct (selected_rows candle frame) as [|row rows].
      - injection E as <-. rewrite app_nil_r. reflexivity.
      - destruct (for_each _ _ empty_stats) as [stats|e]; cbn [bind] in E;
          [|discriminate].
        destruct (calculate_average_accuracy stats) as [acc|e];
          cbn [bind] in E; [|discriminate].
        injection E as <-.
        rewrite dict_set_fresh by (apply Hfresh; left; reflexivity).
        rewrite map_app. reflexivity. }
    rewrite (IH mid by_candle' Hrest); [| |exact H].
    + rewrite Hmid, <- app_assoc. f_equal.
      unfold candles_with_result. cbn [filter].
      rewrite existsb_selected.
      destruct (selected_rows candle frame); reflexivity.
    + intros k Hk Hin. rewrite Hmid in Hin. apply in_app_or in Hin.
      destruct Hin as [Hin|Hin].
      * apply (Hfresh k); [right; assumption|assumption].
      * unfold candles_with_result in Hin. apply filter_In in Hin.
        destruct Hin as [[<-|[]] _]. contradiction.
Qed.

(** With a catalog of names made of letters and digits that lists no
    name twice, the results of a combination, and so its lines in the
    results file, follow the catalog order: they are the recognised
    names found in the pattern string of at least one classified row
    (a name with a classified occurrence of its own, or one that occurs
    inside the name of such a pattern), in the order of
    [candle_names]. *)
Theorem results_follow_catalog_order :
  forall candle_names crypto params res,
    plain_names candle_names ->
    NoDup candle_names ->
    process_with candle_names crypto params = Ok res ->
    exists frame,
      working_frame crypto (extrema_order params) (min_touches params)
        (touch_threshold params) (level_proximity_threshold params)
      = Ok frame
      /\ map fst (results_by_candle res)
         = candles_with_result candle_names frame
      /\ map csv_candle_name (cell_rows candle_names crypto params)
         = candles_with_result candle_names frame.
Proof.
  intros candle_names crypto params res Hplain Hnd H.
  unfold cell_rows. rewrite H. unfold process_with in H.
  unfold process_crypto_data, working_frame in *.
  destruct (find_extreme_levels crypto _ _ _)
    as [[supports resistances]|e]; cbn [bind fst snd] in *; [|discriminate].
  destruct (classify_rows supports resistances _ 0 crypto) as [frame|e];
    cbn [bind] in *; [|discriminate].
  change (filter (fun row => standard_pattern row || logical_pattern row)
            frame)
    with (filter marked frame) in H.
  destruct (for_each candle_names
              (candle_step frame (filter marked frame)
                 (target_percent params) (stop_percent params)) [])
    as [by_candle|e] eqn:Eb; cbn [bind] in H; [|discriminate].
  injection H as <-. exists frame. split; [reflexivity|]. cbn.
  pose proof (candle_loop_order _ _ _ _ _ _ Hnd
                (fun k _ (Hin : In k (map fst [])) => Hin) Eb) as Hkeys.
  simpl in Hkeys. split; [exact Hkeys|].
  rewrite <- Hkeys, map_map. apply map_ext.
  intros [candle candle_results]. reflexivity.
Qed.

Lemma results_follow_catalog_order_witness :
  exists res frame,
    process_with ["CDLHAMMER"%string; "CDLDOJI"%string] demo_series
      (mkParams 1 1 1 2 3 1) = Ok res
    /\ working_frame demo_series 1 1 1 2 = Ok frame
    /\ map fst (results_by_candle res)
       = candles_with_result ["CDLHAMMER"%string; "CDLDOJI"%string] frame.
Proof.
  destruct (process_with ["CDLHAMMER"%string; "CDLDOJI"%string] demo_series
              (mkParams 1 1 1 2 3 1)) as [res|e] eqn:E;
    [|vm_compute in E; discriminate E].
  assert (Hplain : plain_names ["CDLHAMMER"%string; "CDLDOJI"%string])
    by (repeat constructor).
  assert (Hnd : NoDup ["CDLHAMMER"%string; "CDLDOJI"%string])
    by (repeat constructor; simpl; intuition discriminate).
  destruct (results_follow_catalog_order _ _ _ _ Hplain Hnd E)
    as (frame & Hframe & Hkeys & _).
  exists res, frame. repeat split; assumption.
Defined.

(** With a catalog of names made of letters and digits, for which the
    regular-expression search of [str.contains] is a substring test, a
    classified row is in [pattern_data], and counted in
    [total_predictions], for every recognised candle name that occurs in
    its pattern string; so an occurrence whose pattern name contains
    another recognised name is counted under both. *)
Theorem occurrence_counted_for_every_matching_name :
  forall candle_names data order min_touches touch_threshold
         proximity_threshold target_percent stop_percent res,
    plain_names candle_names ->
    process_crypto_data candle_names data order min_touches touch_threshold
      proximity_threshold target_percent stop_percent = Ok res ->
    exists frame,
      working_frame data order min_touches touch_threshold
        proximity_threshold = Ok frame
      /\ forall candle row,
           In candle candle_names -> In row frame -> marked row = true ->
           contains candle (candlestick_pattern (bar row)) = true ->
           exists candle_results,
             In (candle, candle_results) (results_by_candle res)
             /\ In row (pattern_data candle_results)
             /\ 1 <= total_predictions candle_results.
Proof.
  intros candle_names data order min_touches touch_threshold
    proximity_threshold target_percent stop_percent res Hplain H.
  destruct (process_crypto_data_inv _ _ _ _ _ _ _ _ _ H)
    as (frame & Hframe & _ & Hmarks & Hentries).
  destruct (process_crypto_data_keys _ _ _ _ _ _ _ _ _ H)
    as (frame' & Hframe' & _ & Hkeys).
  rewrite Hframe in Hframe'. injection Hframe' as <-.
  exists frame. split; [assumption|].
  intros candle row Hname Hrow Hm Hsub.
  assert (Hocc : In row (selected_rows candle frame)).
  { unfold selected_rows. apply filter_In. split; [|assumption].
    apply filter_In. split; assumption. }
  assert (Hkey : In candle (map fst (results_by_candle res))).
  { apply Hkeys. split; [assumption|]. intro Hnil. rewrite Hnil in Hocc.
    contradiction. }
  apply in_map_iff in Hkey. destruct Hkey as ([k candle_results] & Hk & Hin).
  simpl in Hk. subst k. exists candle_results. split; [assumption|].
  rewrite Forall_forall in Hentries.
  destruct (Hentries _ Hin) as (_ & Hdata & Hstats & Hacc).
  cbn [fst snd] in Hdata, Hstats, Hacc.
  split; [rewrite Hdata; assumption|].
  pose proof (tally_table_consistent frame target_percent stop_percent
                (selected_rows candle frame)) as Hcons.
  rewrite <- Hstats in Hcons.
  destruct (calculate_average_accuracy_range _ _ _ Hcons Hacc)
    as (Hpred & _).
  rewrite Hpred, Hstats, sum_total_table, key_count_total.
  - destruct (selected_rows candle frame); [contradiction|].
    simpl. lia.
  - apply selected_rows_keys. assumption.
Qed.

Lemma occurrence_counted_for_every_matching_name_witness :
  exists res frame,
    process_crypto_data ["CDLDOJI"%string; "CDLDOJISTAR"%string]
      star_series 1 1 1 2 3 1 = Ok res
    /\ working_frame star_series 1 1 1 2 = Ok frame
    /\ forall candle row,
         In candle ["CDLDOJI"%string; "CDLDOJISTAR"%string] ->
         In row frame ->
         marked row = true ->
         contains candle (candlestick_pattern (bar row)) = true ->
         exists candle_results,
           In (candle, candle_results) (results_by_candle res)
           /\ In row (pattern_data candle_results)
           /\ 1 <= total_predictions candle_results.
Proof.
  assert (Hplain : plain_names ["CDLDOJI"%string; "CDLDOJISTAR"%string])
    by (repeat constructor).
  destruct (process_crypto_data ["CDLDOJI"%string; "CDLDOJISTAR"%string]
              star_series 1 1 1 2 3 1) as [res|e] eqn:E;
    [|vm_compute in E; discriminate E].
  destruct (occurrence_counted_for_every_matching_name _ _ _ _ _ _ _ _ _
              Hplain E)
    as (frame & Hframe & Hall).
  exists res, frame. repeat split; assumption.
Defined.

(** ** The pattern column *)

Lemma dict_get_first {V : Type} (k : string) (v : V) :
  forall before rest,
    ~ In k (map fst before) ->
    dict_get k (before ++ (k, v) :: rest) = Ok v.
Proof.
  induction before as [|[k0 v0] before IH]; intros rest Hnotin; simpl.
  - rewrite String.eqb_refl. reflexivity.
  - destruct (String.eqb k0 k) eqn:E.
    + apply String.eqb_eq in E. subst k0. exfalso. apply Hnotin. left.
      reflexivity.
    + apply IH. intro H. apply Hnotin. right. assumption.
Qed.

Lemma detected_patterns_quiet signals :
  Forall (fun s => snd s = 0%Z) signals -> detected_patterns signals = [].
Proof.
  unfold detected_patterns. induction 1 as [|s signals Hs _ IH]; simpl;
    [reflexivity|].
  rewrite Hs. simpl. exact IH.
Qed.

Lemma detected_patterns_app before rest :
  detected_patterns (before ++ rest)
  = detected_patterns before ++ detected_patterns rest.
Proof.
  unfold detected_patterns. rewrite filter_app, map_app. reflexivity.
Qed.

Lemma detected_patterns_cons name v rest :
  v <> 0%Z ->
  detected_patterns ((name, v) :: rest) = name :: detected_patterns rest.
Proof.
  intro Hv. unfold detected_patterns. cbn [filter snd].
  apply Z.eqb_neq in Hv. rewrite Hv. reflexivity.
Qed.

Lemma first_signal (signals : dict Z) :
  Forall (fun s => snd s = 0%Z) signals
  \/ exists before name v rest,
       signals = before ++ (name, v) :: rest
       /\ Forall (fun s => snd s = 0%Z) before
       /\ v <> 0%Z.
Proof.
  induction signals as [|[name v] signals IH].
  - left. constructor.
  - destruct (Z.eq_dec v 0) as [->|Hv].
    + destruct IH as [Hall|(before & n & w & rest & -> & Hb & Hw)].
      * left. constructor; [reflexivity|assumption].
      * right. exists ((name, 0%Z) :: before), n, w, rest.
        repeat split; [|assumption]. constructor; [reflexivity|assumption].
    + right. exists [], name, v, signals. repeat split; [constructor|].
      assumption.
Qed.

Lemma string_app_truthy (s t : string) :
  truthy t = true -> truthy (s ++ t) = true.
Proof. destruct s; simpl; auto. Qed.

Lemma label_row_first before name v rest :
  NoDup (map fst (before ++ (name, v) :: rest)) ->
  Forall (fun s => snd s = 0%Z) before ->
  v <> 0%Z ->
  label_row (before ++ (name, v) :: rest)
  = Ok ((name ++ (if (0 <? v)%Z then "_Bull" else "_Bear"))%string,
        S (length (detected_patterns rest))).
Proof.
  intros Hnd Hquiet Hv. unfold label_row.
  rewrite detected_patterns_app, (detected_patterns_quiet _ Hquiet).
  cbn [app]. rewrite (detected_patterns_cons _ _ _ Hv).
  rewrite dict_get_first.
  - reflexivity.
  - rewrite map_app in Hnd. apply NoDup_remove_2 in Hnd.
    intro Hin. apply Hnd. apply in_or_app. left. assumption.
Qed.

(** With a catalog that lists no name twice, labelling a row never
    raises; the row gets an empty pattern and a count of 0 exactly when
    all its signals are zero, and otherwise the name of the first
    pattern of the catalog with a nonzero signal followed by "_Bull" for
    a positive and "_Bear" for a negative signal, with the number of
    nonzero signals as its match count. *)
Theorem label_row_first_signal :
  forall signals,
    NoDup (map fst signals) ->
    exists pattern count,
      label_row signals = Ok (pattern, count)
      /\ count = length (detected_patterns signals)
      /\ (Forall (fun s => snd s = 0%Z) signals ->
          pattern = EmptyString /\ count = 0)
      /\ truthy pattern = (0 <? count)
      /\ (forall before name v rest,
            signals = before ++ (name, v) :: rest ->
            Forall (fun s => snd s = 0%Z) before ->
            v <> 0%Z ->
            pattern
            = (name ++ (if (0 <? v)%Z then "_Bull" else "_Bear"))%string).
Proof.
  intros signals Hnd.
  destruct (first_signal signals)
    as [Hquiet|(before & name & v & rest & -> & Hquiet & Hv)].
  - exists EmptyString, 0. unfold label_row.
    rewrite (detected_patterns_quiet _ Hquiet).
    repeat split; try reflexivity.
    intros before name v rest -> _ Hv. exfalso.
    rewrite Forall_forall in Hquiet.
    apply Hv. apply (Hquiet (name, v)). apply in_or_app. right. left.
    reflexivity.
  - rewrite (label_row_first _ _ _ _ Hnd Hquiet Hv).
    eexists. eexists. split; [reflexivity|].
    split; [|split; [|split]].
    + rewrite detected_patterns_app, (detected_patterns_quiet _ Hquiet).
      cbn [app]. rewrite (detected_patterns_cons _ _ _ Hv). reflexivity.
    + intro Hall. exfalso. rewrite Forall_forall in Hall.
      apply Hv. apply (Hall (name, v)). apply in_or_app. right. left.
      reflexivity.
    + cbn [Nat.ltb Nat.leb]. apply string_app_truthy.
      destruct (0 <? v)%Z; reflexivity.
    + intros before' name' v' rest' Heq Hquiet' Hv'.
      pose proof (label_row_first before' name' v' rest') as H'.
      rewrite <- Heq in H'.
      rewrite (label_row_first _ _ _ _ Hnd Hquiet Hv) in H'.
      specialize (H' Hnd Hquiet' Hv'). injection H' as H' _. exact H'.
Qed.

Lemma label_row_first_signal_witness :
  exists pattern count,
    label_row [("CDLDOJI"%string, 0%Z); ("CDLHAMMER"%string, (-100)%Z);
               ("CDLENGULFING"%string, 100%Z)]
    = Ok (pattern, count)
    /\ count = 2
    /\ pattern = "CDLHAMMER_Bear"%string.
Proof.
  assert (Hnd : NoDup (map fst [("CDLDOJI"%string, 0%Z);
                                ("CDLHAMMER"%string, (-100)%Z);
                                ("CDLENGULFING"%string, 100%Z)]))
    by (repeat constructor; simpl; intuition discriminate).
  destruct (label_row_first_signal _ Hnd)
    as (pattern & count & Hrun & Hcount & _ & _ & Hfirst).
  exists pattern, count. split; [exact Hrun|]. split; [exact Hcount|].
  apply (Hfirst [("CDLDOJI"%string, 0%Z)] "CDLHAMMER"%string (-100)%Z
           [("CDLENGULFING"%string, 100%Z)]).
  - reflexivity.
  - repeat constructor.
  - discriminate.
Defined.

Lemma contains_underscore_suffix (suffix name tail : string) :
  underscore_free name = true ->
  contains (String "_" suffix) (name ++ tail)
  = contains (String "_" suffix) tail.
Proof.
  intro Hfree. induction name as [|c name IH]; [reflexivity|].
  simpl in Hfree. apply andb_true_iff in Hfree. destruct Hfree as [Hc Hrest].
  apply negb_true_iff in Hc. apply Ascii.eqb_neq in Hc.
  cbn [append contains]. rewrite (IH Hrest).
  cbn [prefix]. destruct (ascii_dec "_" c) as [Heq|_]; [|reflexivity].
  exfalso. apply Hc. symmetry. exact Heq.
Qed.

(** A labelled pattern is bullish or bearish, never both: when the
    catalog name has no underscore, the pattern string contains "_Bull"
    exactly for a positive first signal and "_Bear" exactly for a
    negative one, and it contains its own catalog name, under which it
    is selected. *)
Theorem label_row_direction :
  forall before name v rest,
    NoDup (map fst (before ++ (name, v) :: rest)) ->
    Forall (fun s => snd s = 0%Z) before ->
    v <> 0%Z ->
    underscore_free name = true ->
    exists pattern count,
      label_row (before ++ (name, v) :: rest) = Ok (pattern, count)
      /\ contains "_Bull" pattern = (0 <? v)%Z
      /\ contains "_Bear" pattern = (v <? 0)%Z
      /\ contains name pattern = true.
Proof.
  intros before name v rest Hnd Hquiet Hv Hfree.
  rewrite (label_row_first _ _ _ _ Hnd Hquiet Hv).
  eexists. eexists. split; [reflexivity|].
  rewrite !contains_underscore_suffix by exact Hfree.
  split; [|split; [|apply contains_own_prefix]].
  - destruct (0 <? v)%Z; reflexivity.
  - destruct (0 <? v)%Z eqn:E.
    + apply Z.ltb_lt in E. symmetry. apply Z.ltb_ge. lia.
    + apply Z.ltb_ge in E. symmetry. apply Z.ltb_lt. lia.
Qed.

Lemma label_row_direction_witness :
  exists pattern count,
    label_row ([("CDLDOJI"%string, 0%Z)]
               ++ ("CDLHAMMER"%string, (-100)%Z)
                  :: [("CDLENGULFING"%string, 100%Z)])
    = Ok (pattern, count)
    /\ contains "_Bull" pattern = false
    /\ contains "_Bear" pattern = true.
Proof.
  destruct (label_row_direction [("CDLDOJI"%string, 0%Z)]
              "CDLHAMMER"%string (-100)%Z
              [("CDLENGULFING"%string, 100%Z)])
    as (pattern & count & Hrun & Hbull & Hbear & _).
  - repeat constructor; simpl; intuition discriminate.
  - repeat constructor.
  - discriminate.
  - reflexivity.
  - exists pattern, count. repeat split; assumption.
Defined.

(** ** The single-pass script *)

Lemma insert_level_members x :
  forall l q, In q (ExtremumLevels.insert_level x l) -> q = x \/ In q l.
Proof.
  induction l as [|y l IH]; intros q H; simpl in H.
  - destruct H as [<-|[]]. left. reflexivity.
  - destruct (Qlt_bool x y).
    + destruct H as [<-|H]; [left; reflexivity|right; assumption].
    + destruct (Qeq_bool x y); [right; assumption|].
      destruct H as [<-|H]; [right; left; reflexivity|].
      destruct (IH q H) as [->|Hin]; [left; reflexivity|].
      right. right. assumption.
Qed.

Lemma insert_level_keeps x :
  forall l q, In q l -> In q (ExtremumLevels.insert_level x l).
Proof.
  induction l as [|y l IH]; intros q H; [destruct H|]. simpl.
  destruct (Qlt_bool x y); [right; assumption|].
  destruct (Qeq_bool x y); [assumption|].
  destruct H as [<-|H]; [left; reflexivity|right; apply IH; assumption].
Qed.

Lemma insert_level_has x :
  forall l, exists q, In q (ExtremumLevels.insert_level x l) /\ (q == x)%Q.
Proof.
  induction l as [|y l IH]; simpl.
  - exists x. split; [left; reflexivity|reflexivity].
  - destruct (Qlt_bool x y).
    + exists x. split; [left; reflexivity|reflexivity].
    + destruct (Qeq_bool x y) eqn:E.
      * apply Qeq_bool_iff in E. exists y. split; [left; reflexivity|].
        symmetry. assumption.
      * destruct IH as (q & Hin & Hq). exists q.
        split; [right; assumption|assumption].
Qed.

Lemma insert_level_sorted x :
  forall l,
    StronglySorted Qlt l ->
    StronglySorted Qlt (ExtremumLevels.insert_level x l).
Proof.
  induction l as [|y l IH]; intro Hs; simpl.
  - constructor; constructor.
  - inversion Hs as [|? ? Hl Hy]; subst.
    destruct (Qlt_bool x y) eqn:E1.
    + apply Qlt_bool_iff in E1. constructor; [assumption|].
      constructor; [assumption|].
      rewrite Forall_forall in *. intros z Hz.
      apply Qlt_trans with y; [assumption|]. apply Hy. assumption.
    + destruct (Qeq_bool x y) eqn:E2; [assumption|].
      apply Qlt_bool_false in E1.
      assert (Hyx : (y < x)%Q).
      { destruct (Qle_lt_or_eq _ _ E1) as [Hlt|Heq]; [assumption|].
        exfalso. assert (Hxy : Qeq_bool x y = true)
          by (apply Qeq_bool_iff; symmetry; assumption).
        congruence. }
      constructor; [apply IH; assumption|].
      rewrite Forall_forall in *. intros z Hz.
      destruct (insert_level_members _ _ _ Hz) as [->|Hin];
        [assumption|apply Hy; assumption].
Qed.

Lemma sorted_set_sorted levels :
  StronglySorted Qlt (ExtremumLevels.sorted_set levels).
Proof.
  unfold ExtremumLevels.sorted_set.
  induction levels as [|x levels IH]; simpl; [constructor|].
  apply insert_level_sorted. assumption.
Qed.

Lemma sorted_set_members levels :
  (forall q, In q (ExtremumLevels.sorted_set levels) -> In q levels)
  /\ (forall x, In x levels ->
        exists q, In q (ExtremumLevels.sorted_set levels) /\ (q == x)%Q).
Proof.
  unfold ExtremumLevels.sorted_set.
  induction levels as [|y levels [IH1 IH2]]; simpl.
  - split; [auto|intros x []].
  - split.
    + intros q Hq. destruct (insert_level_members _ _ _ Hq) as [->|Hin];
        [left; reflexivity|right; apply IH1; assumption].
    + intros x [<-|Hx]; [apply insert_level_has|].
      destruct (IH2 x Hx) as (q & Hin & Hq). exists q.
      split; [apply insert_level_keeps; assumption|assumption].
Qed.

(** The single-pass script returns its support levels and its
    resistance levels in strictly ascending order, so without repeated
    prices. *)
Theorem simple_levels_strictly_ascending :
  forall data order min_touches supports resistances,
    ExtremumLevels.find_extreme_levels data order min_touches
    = Ok (supports, resistances) ->
    StronglySorted Qlt supports /\ StronglySorted Qlt resistances.
Proof.
  intros data order min_touches supports resistances H.
  unfold ExtremumLevels.find_extreme_levels in H.
  destruct (argrelextrema (map close data) Qgt_bool order) as [max_idx|e];
    cbn [bind] in H; [|discriminate].
  destruct (argrelextrema (map close data) Qlt_bool order) as [min_idx|e];
    cbn [bind] in H; [|discriminate].
  injection H as <- <-. split; apply sorted_set_sorted.
Qed.

Lemma simple_levels_strictly_ascending_witness :
  ExtremumLevels.find_extreme_levels demo_series 1 1
  = Ok ([800%Q; 810%Q], [1000%Q])
  /\ StronglySorted Qlt [800%Q; 810%Q].
Proof.
  split; [reflexivity|].
  exact (proj1 (simple_levels_strictly_ascending demo_series 1 1
                  [800%Q; 810%Q] [1000%Q] eq_refl)).
Defined.

(** Every price returned by the single-pass script is the close of a
    bar that is neither the first nor the last of the series, is a
    strict local extremum of the closes and has at least [min_touches]
    closes within one percent of it; and every such bar has its close
    (as a number) among the returned prices. *)
Theorem simple_levels_are_tested_extrema :
  forall data order min_touches supports resistances,
    ExtremumLevels.find_extreme_levels data order min_touches
    = Ok (supports, resistances) ->
    (forall q, In q supports ->
       exists i,
         1 <= i /\ i + 1 < length data /\ q = close (iloc data i)
         /\ extremum_at (map close data) Qlt_bool order i = true
         /\ ExtremumLevels.tested data min_touches q = true)
    /\ (forall q, In q resistances ->
          exists i,
            1 <= i /\ i + 1 < length data /\ q = close (iloc data i)
            /\ extremum_at (map close data) Qgt_bool order i = true
            /\ ExtremumLevels.tested data min_touches q = true)
    /\ (forall i,
          i < length data ->
          extremum_at (map close data) Qlt_bool order i = true ->
          ExtremumLevels.tested data min_touches (close (iloc data i))
          = true ->
          exists q, In q supports /\ (q == close (iloc data i))%Q)
    /\ (forall i,
          i < length data ->
          extremum_at (map close data) Qgt_bool order i = true ->
          ExtremumLevels.tested data min_touches (close (iloc data i))
          = true ->
          exists q, In q resistances /\ (q == close (iloc data i))%Q).
Proof.
  intros data order min_touches supports resistances H.
  unfold ExtremumLevels.find_extreme_levels in H.
  destruct (argrelextrema (map close data) Qgt_bool order) as [max_idx|e]
    eqn:Emax; cbn [bind] in H; [|discriminate].
  destruct (argrelextrema (map close data) Qlt_bool order) as [min_idx|e]
    eqn:Emin; cbn [bind] in H; [|discriminate].
  injection H as <- <-.
  destruct (argrelextrema_spec _ _ _ _ Emax) as [Ho Hmax].
  destruct (argrelextrema_spec _ _ _ _ Emin) as [_ Hmin].
  rewrite length_map in Hmax, Hmin.
  split; [|split; [|split]].
  - intros q Hq. apply (proj1 (sorted_set_members _)) in Hq.
    apply filter_In in Hq. destruct Hq as [Hq Ht].
    apply in_map_iff in Hq. destruct Hq as (i & <- & Hi).
    apply Hmin in Hi. destruct Hi as [Hlt He].
    pose proof (extremum_at_not_at_ends _ _ _ _ Qlt_bool_irrefl Ho
                  ltac:(rewrite length_map; exact Hlt) He) as HE.
    rewrite length_map in HE. exists i. intuition.
  - intros q Hq. apply (proj1 (sorted_set_members _)) in Hq.
    apply filter_In in Hq. destruct Hq as [Hq Ht].
    apply in_map_iff in Hq. destruct Hq as (i & <- & Hi).
    apply Hmax in Hi. destruct Hi as [Hlt He].
    pose proof (extremum_at_not_at_ends _ _ _ _ Qgt_bool_irrefl Ho
                  ltac:(rewrite length_map; exact Hlt) He) as HE.
    rewrite length_map in HE. exists i. intuition.
  - intros i Hlt He Ht. apply (proj2 (sorted_set_members _)).
    apply filter_In. split; [|assumption].
    apply in_map_iff. exists i. split; [reflexivity|].
    apply Hmin. split; assumption.
  - intros i Hlt He Ht. apply (proj2 (sorted_set_members _)).
    apply filter_In. split; [|assumption].
    apply in_map_iff. exists i. split; [reflexivity|].
    apply Hmax. split; assumption.
Qed.

Lemma simple_levels_are_tested_extrema_witness :
  exists i,
    1 <= i /\ i + 1 < length demo_series
    /\ 800%Q = close (iloc demo_series i).
Proof.
  destruct (proj1 (simple_levels_are_tested_extrema demo_series 1 1
                     [800%Q; 810%Q] [1000%Q] eq_refl) 800%Q
              (or_introl eq_refl)) as (i & H1 & H2 & H3 & _).
  exists i. repeat split; assumption.
Defined.

Lemma close_to_nonzero price threshold level :
  ~ (price == 0)%Q ->
  ExtremumLevels.close_to price threshold level
  = Qlt_bool (Qabs (price - level) / price) threshold.
Proof.
  intro H. unfold ExtremumLevels.close_to.
  destruct (Qeq_bool price 0) eqn:E; [|reflexivity].
  apply Qeq_bool_iff in E. contradiction.
Qed.

Lemma near_implies_close_to price time p levels :
  ~ (price == 0)%Q ->
  near price time p levels = true ->
  ExtremumLevels.is_near_extreme_level price (map fst levels) (p / 100)
  = true.
Proof.
  intros Hnz. rewrite near_existsb. unfold
    ExtremumLevels.is_near_extreme_level.
  intro H. apply existsb_exists in H. destruct H as (lv & Hin & Hq).
  apply existsb_exists. exists (fst lv). split; [apply in_map; assumption|].
  rewrite close_to_nonzero by assumption.
  unfold qualifies in Hq. apply andb_true_iff in Hq. apply Hq.
Qed.

Lemma close_to_implies_near price time p levels :
  ~ (price == 0)%Q ->
  Forall (fun lv => (snd lv < time)%Z) levels ->
  ExtremumLevels.is_near_extreme_level price (map fst levels) (p / 100)
  = true ->
  near price time p levels = true.
Proof.
  intros Hnz Hall. rewrite near_existsb.
  unfold ExtremumLevels.is_near_extreme_level. intro H.
  apply existsb_exists in H. destruct H as (q & Hin & Hq).
  apply in_map_iff in Hin. destruct Hin as (lv & <- & Hin).
  apply existsb_exists. exists lv. split; [assumption|].
  rewrite close_to_nonzero in Hq by assumption.
  unfold qualifies. rewrite Hq. simpl.
  rewrite Forall_forall in Hall. apply Z.ltb_lt. apply Hall. assumption.
Qed.

(** The classifier of the search is the nearness test of the
    single-pass script with causality added: for a nonzero price, an
    occurrence that the search finds near a support or a resistance
    level is near one of the same prices for the single-pass test with
    threshold p/100, and the two tests agree when every level was formed
    before the occurrence. *)
Theorem causal_nearness_refines_plain_nearness :
  forall price time supports resistances p results,
    ~ (price == 0)%Q ->
    check_pattern_levels price time supports resistances p = Ok results ->
    (standard_bull results || standard_bear results = true ->
     ExtremumLevels.is_near_extreme_level price
       (map fst supports ++ map fst resistances) (p / 100) = true)
    /\ (Forall (fun lv => (snd lv < time)%Z) (supports ++ resistances) ->
        ExtremumLevels.is_near_extreme_level price
          (map fst supports ++ map fst resistances) (p / 100)
        = standard_bull results || standard_bear results).
Proof.
  intros price time supports resistances p results Hnz H.
  rewrite check_pattern_levels_nonzero in H by assumption.
  injection H as <-. cbn [standard_bull standard_bear].
  assert (Hsplit : ExtremumLevels.is_near_extreme_level price
                     (map fst supports ++ map fst resistances) (p / 100)
                   = ExtremumLevels.is_near_extreme_level price
                       (map fst supports) (p / 100)
                     || ExtremumLevels.is_near_extreme_level price
                          (map fst resistances) (p / 100))
    by (unfold ExtremumLevels.is_near_extreme_level; apply existsb_app).
  rewrite Hsplit. split.
  - intro Hn. apply orb_true_iff in Hn. apply orb_true_iff.
    destruct Hn as [Hn|Hn]; [left|right];
      apply (near_implies_close_to _ time); assumption.
  - intro Hall. apply Forall_app in Hall. destruct Hall as [Hs Hr].
    assert (Heq : forall levels,
               Forall (fun lv => (snd lv < time)%Z) levels ->
               ExtremumLevels.is_near_extreme_level price (map fst levels)
                 (p / 100) = near price time p levels).
    { intros levels Hl.
      destruct (near price time p levels) eqn:En.
      - apply (near_implies_close_to _ time); assumption.
      - destruct (ExtremumLevels.is_near_extreme_level price
                    (map fst levels) (p / 100)) eqn:Ec; [|reflexivity].
        rewrite (close_to_implies_near _ _ _ _ Hnz Hl Ec) in En.
        discriminate. }
    rewrite (Heq _ Hs), (Heq _ Hr). reflexivity.
Qed.

Lemma causal_nearness_refines_plain_nearness_witness :
  ExtremumLevels.is_near_extreme_level 810
    (map fst [(800%Q, 1%Z)] ++ map fst [(1000%Q, 2%Z)]) (2 / 100) = true.
Proof.
  apply (proj1 (causal_nearness_refines_plain_nearness 810 3
                  [(800%Q, 1%Z)] [(1000%Q, 2%Z)] 2
                  (mkCheck true false false true)
                  ltac:(intro H; discriminate H) eq_refl)).
  reflexivity.
Defined.

(** What the search classifies with a proximity threshold of 2 percent
    is also selected by the single-pass script when it is given the
    prices of the same levels: the script's selection only drops the
    requirement that the level was formed before the occurrence. *)
Theorem classified_rows_are_near_extreme :
  forall data supports resistances label b row,
    nonzero_close b ->
    In b data ->
    classify_row supports resistances 2 label b = Ok row ->
    marked row = true ->
    In b (ExtremumLevels.patterns_near_extreme data (map fst supports)
            (map fst resistances)).
Proof.
  intros data supports resistances label b row Hnz Hin H Hm.
  rewrite classify_row_by_near in H by exact Hnz. injection H as <-.
  destruct (truthy (candlestick_pattern b)) eqn:Et; [|discriminate Hm].
  rewrite marked_mark, category_some in Hm.
  apply andb_true_iff in Hm. destruct Hm as [_ Hnear].
  unfold ExtremumLevels.patterns_near_extreme.
  apply filter_In. split; [assumption|]. apply andb_true_iff. split.
  - destruct (candlestick_pattern b); [discriminate Et|reflexivity].
  - change (2 # 100)%Q with (2 / 100)%Q.
    unfold ExtremumLevels.is_near_extreme_level. rewrite existsb_app.
    apply orb_true_iff in Hnear. apply orb_true_iff.
    destruct Hnear as [Hn|Hn]; [left|right];
      apply (near_implies_close_to _ (time b)); assumption.
Qed.

Lemma classified_rows_are_near_extreme_witness :
  In (nth 3 demo_series default_bar)
    (ExtremumLevels.patterns_near_extreme demo_series
       (map fst [(800%Q, 1%Z)]) (map fst [(1000%Q, 2%Z)])).
Proof.
  apply (classified_rows_are_near_extreme demo_series [(800%Q, 1%Z)]
           [(1000%Q, 2%Z)] 3 (nth 3 demo_series default_bar)
           (mark 3 (nth 3 demo_series default_bar) Standard)).
  - intro H. discriminate H.
  - simpl. tauto.
  - reflexivity.
  - reflexivity.
Defined.
